(** * LibreChat client-side storage: a shallow embedding of [ClientStorage]

    The class [ClientStorage] (client/src/utils/clientStorage.ts, the last
    part of src/client/src/utils/clientConfiguration.ts) keeps conversations
    and messages in three IndexedDB object stores and encrypts the sensitive
    fields of each record with crypto-js.

    Conventions of the embedding:
    - an object store is a finite map from its primary key to the record;
    - an index is the list of (index key, primary key, record) triples in
      ascending order, as an IndexedDB cursor walks it;
    - a method that can throw returns a [Completion]; a method that writes
      returns the new [ClientStorage] as well;
    - the clock, the random generator, crypto-js and JSON are the host's:
      clock and randomness are read from an [Ambient] value passed to each
      call, crypto-js and JSON are operations of a type class. *)

From stdpp Require Import gmap strings list fin_maps sorting pretty.
From Stdlib Require Import ZArith Ascii String.

Local Open Scope string_scope.

(** ** Completions and errors *)

(** The errors that flow through the storage code.  [Error msg] is
    [new Error(msg)]; [SyntaxError] is what [JSON.parse] throws; [DataError]
    is what an IndexedDB [put] throws when the key path of the store yields
    no valid key; [OpenDBError] is a rejected [openDB]; [TypeError] is a
    method call on [null].  [IntegrityError] and
    [QuotaExceededError] are the two error classes the storage contract
    names in addition; no statement of [ClientStorage] constructs them. *)
Inductive JsError : Type :=
| Error (message : string)
| SyntaxError
| DataError
| OpenDBError
| TypeError
| IntegrityError
| QuotaExceededError.

#[global] Instance JsError_eq_dec : EqDecision JsError.
Proof. solve_decision. Defined.

Inductive Completion (A : Type) : Type :=
| Return (a : A)
| Throw (e : JsError).
Arguments Return {A} a.
Arguments Throw {A} e.

(** JavaScript truthiness of an optional string: [undefined], [null] and the
    empty string are falsy. *)
Definition truthy (s : option string) : bool :=
  match s with
  | Some (String _ _) => true
  | _ => false
  end.

(** [a || b] on optional strings. *)
Definition or_else (a : option string) (b : string) : option string :=
  if truthy a then a else Some b.

(** ** The host: clock, randomness, crypto-js, JSON *)

(** What one call reads from the clock and the random generator. *)
Record Ambient : Type := mkAmbient {
  now : Z;              (* the first [Date.now()] of the call *)
  now_encrypt : Z;      (* [Date.now()] inside [encrypt] *)
  now_encryptedAt : Z;  (* [Date.now()] after [encrypt] returned *)
  now_iso : string;     (* [new Date().toISOString()] *)
  random_iv : string;   (* [CryptoJS.lib.WordArray.random(16).toString()] *)
  random_salt : string  (* the salt crypto-js draws inside [AES.encrypt] *)
}.

(** crypto-js.  [AES_encrypt message key iv salt] is
    [CryptoJS.AES.encrypt(message, key, {iv, mode: CBC, padding: Pkcs7}).toString()];
    [AES_decrypt data key iv] is the word array [CryptoJS.AES.decrypt]
    returns, as a byte string; [enc_Utf8] is [toString(CryptoJS.enc.Utf8)],
    which throws [Error "Malformed UTF-8 data"] on bytes that are not
    UTF-8. *)
Class CryptoJS : Type := {
  AES_encrypt : string → string → string → string → string;
  AES_decrypt : string → string → string → string;
  enc_Utf8 : string → option string;
  SHA256 : string → string
}.

(** [new Date(s).getTime()]; [None] is [NaN], the time of an invalid date. *)
Class JSDate : Type := {
  Date_getTime : string → option Z
}.

(** [JSON.stringify] and [JSON.parse] at the type of a payload. *)
Class JSON (A : Type) : Type := {
  JSON_stringify : A → string;
  JSON_parse : string → option A
}.

(** ** Data model *)

Inductive SyncStatus : Type := local | synced | conflict.

#[global] Instance SyncStatus_eq_dec : EqDecision SyncStatus.
Proof. solve_decision. Defined.

(** interface EncryptedData *)
Record EncryptedData : Type := mkEncryptedData {
  data : string;
  iv : string;
  timestamp : Z
}.

#[global] Instance EncryptedData_eq_dec : EqDecision EncryptedData.
Proof. solve_decision. Defined.

(** interface StorageSettings *)
Record StorageSettings : Type := mkStorageSettings {
  encryptionEnabled : bool;
  backupEnabled : bool;
  masterKeyHash : option string;
  lastBackup : option Z;
  maxStorageSize : option Z
}.

#[global] Instance StorageSettings_eq_dec : EqDecision StorageSettings.
Proof. solve_decision. Defined.

(** [StoredConversation extends TConversation]: the fields the storage code
    reads or writes, plus the two index keys [endpoint] and [createdAt] and
    [model].  An absent property and a property set to [undefined] are both
    [None]. *)
Module TConversation.
Record t : Type := mk {
  conversationId : option string;
  title : option string;
  promptPrefix : option string;
  endpoint : option string;
  model : option string;
  createdAt : option string;
  updatedAt : option string;
  encryptedData : option EncryptedData;
  encryptedAt : option Z;
  lastAccessed : option Z;
  syncStatus : option SyncStatus
}.

#[global] Instance eq_dec : EqDecision t.
Proof. solve_decision. Defined.

Definition set_title (v : option string) (c : t) : t :=
  mk (conversationId c) v (promptPrefix c) (endpoint c) (model c) (createdAt c)
     (updatedAt c) (encryptedData c) (encryptedAt c) (lastAccessed c) (syncStatus c).
Definition set_promptPrefix (v : option string) (c : t) : t :=
  mk (conversationId c) (title c) v (endpoint c) (model c) (createdAt c)
     (updatedAt c) (encryptedData c) (encryptedAt c) (lastAccessed c) (syncStatus c).
Definition set_updatedAt (v : option string) (c : t) : t :=
  mk (conversationId c) (title c) (promptPrefix c) (endpoint c) (model c) (createdAt c)
     v (encryptedData c) (encryptedAt c) (lastAccessed c) (syncStatus c).
Definition set_encryptedData (v : option EncryptedData) (c : t) : t :=
  mk (conversationId c) (title c) (promptPrefix c) (endpoint c) (model c) (createdAt c)
     (updatedAt c) v (encryptedAt c) (lastAccessed c) (syncStatus c).
Definition set_encryptedAt (v : option Z) (c : t) : t :=
  mk (conversationId c) (title c) (promptPrefix c) (endpoint c) (model c) (createdAt c)
     (updatedAt c) (encryptedData c) v (lastAccessed c) (syncStatus c).
Definition set_lastAccessed (v : option Z) (c : t) : t :=
  mk (conversationId c) (title c) (promptPrefix c) (endpoint c) (model c) (createdAt c)
     (updatedAt c) (encryptedData c) (encryptedAt c) v (syncStatus c).
Definition set_syncStatus (v : option SyncStatus) (c : t) : t :=
  mk (conversationId c) (title c) (promptPrefix c) (endpoint c) (model c) (createdAt c)
     (updatedAt c) (encryptedData c) (encryptedAt c) (lastAccessed c) v.

(** The object literal [{ promptPrefix, title }] that is encrypted. *)
Record sensitive : Type := mkSensitive {
  s_promptPrefix : option string;
  s_title : option string
}.

(** [{...stored, ...decrypted, encryptedData: undefined, encryptedAt: undefined}];
    a property [JSON.stringify] dropped (it was [undefined]) is not in
    [decrypted] and leaves the stored one in place. *)
Definition spread_decrypted (stored : t) (decrypted : sensitive) : t :=
  set_encryptedAt None
    (set_encryptedData None
       (set_title (from_option Some (title stored) (s_title decrypted))
          (set_promptPrefix
             (from_option Some (promptPrefix stored) (s_promptPrefix decrypted))
             stored))).
End TConversation.

(** [StoredMessage extends TMessage]; a content part is kept as its
    (type, text) pair, the storage code never looks inside. *)
Module TMessage.
Record t : Type := mk {
  messageId : string;
  conversationId : option string;
  parentMessageId : option string;
  isCreatedByUser : bool;
  text : option string;
  content : option (list (string * string));
  createdAt : option string;
  encryptedData : option EncryptedData;
  encryptedAt : option Z;
  syncStatus : option SyncStatus
}.

#[global] Instance eq_dec : EqDecision t.
Proof. solve_decision. Defined.

Definition set_text (v : option string) (m : t) : t :=
  mk (messageId m) (conversationId m) (parentMessageId m) (isCreatedByUser m) v
     (content m) (createdAt m) (encryptedData m) (encryptedAt m) (syncStatus m).
Definition set_content (v : option (list (string * string))) (m : t) : t :=
  mk (messageId m) (conversationId m) (parentMessageId m) (isCreatedByUser m) (text m)
     v (createdAt m) (encryptedData m) (encryptedAt m) (syncStatus m).
Definition set_createdAt (v : option string) (m : t) : t :=
  mk (messageId m) (conversationId m) (parentMessageId m) (isCreatedByUser m) (text m)
     (content m) v (encryptedData m) (encryptedAt m) (syncStatus m).
Definition set_encryptedData (v : option EncryptedData) (m : t) : t :=
  mk (messageId m) (conversationId m) (parentMessageId m) (isCreatedByUser m) (text m)
     (content m) (createdAt m) v (encryptedAt m) (syncStatus m).
Definition set_encryptedAt (v : option Z) (m : t) : t :=
  mk (messageId m) (conversationId m) (parentMessageId m) (isCreatedByUser m) (text m)
     (content m) (createdAt m) (encryptedData m) v (syncStatus m).
Definition set_syncStatus (v : option SyncStatus) (m : t) : t :=
  mk (messageId m) (conversationId m) (parentMessageId m) (isCreatedByUser m) (text m)
     (content m) (createdAt m) (encryptedData m) (encryptedAt m) v.

(** The object literal [{ text, content }] that is encrypted. *)
Record sensitive : Type := mkSensitive {
  s_text : option string;
  s_content : option (list (string * string))
}.

Definition spread_decrypted (stored : t) (decrypted : sensitive) : t :=
  set_encryptedAt None
    (set_encryptedData None
       (set_content (from_option Some (content stored) (s_content decrypted))
          (set_text (from_option Some (text stored) (s_text decrypted)) stored))).
End TMessage.

(** A record of the settings store: [{ key, value, updatedAt }] under its
    key. *)
Record SettingsRecord : Type := mkSettingsRecord {
  value : StorageSettings;
  sr_updatedAt : string
}.

(** The database [LibreChat]: its three object stores. *)
Record IDB : Type := mkIDB {
  conversations : gmap string TConversation.t;
  messages : gmap string TMessage.t;
  settings : gmap string SettingsRecord
}.

(** The fields of a [ClientStorage] instance; [db] is the content of the
    database the connection [this.db] is open on. *)
Record ClientStorage : Type := mkClientStorage {
  db : IDB;
  encryptionKey : option string
}.

Definition with_db (d : IDB) (this : ClientStorage) : ClientStorage :=
  mkClientStorage d (encryptionKey this).
Definition with_conversations (c : gmap string TConversation.t) (d : IDB) : IDB :=
  mkIDB c (messages d) (settings d).
Definition with_messages (m : gmap string TMessage.t) (d : IDB) : IDB :=
  mkIDB (conversations d) m (settings d).
Definition with_settings (s : gmap string SettingsRecord) (d : IDB) : IDB :=
  mkIDB (conversations d) (messages d) s.

(** ** IndexedDB: keys, indexes, cursors *)

(** The keys the stores index on are numbers ([lastAccessed]) and strings
    (the ISO dates, the ids); IndexedDB orders every number before every
    string. *)
Inductive IDBKey : Type :=
| KNumber (z : Z)
| KString (s : string).

#[global] Instance IDBKey_eq_dec : EqDecision IDBKey.
Proof. solve_decision. Defined.

Definition IDBKey_leb (a b : IDBKey) : bool :=
  match a, b with
  | KNumber x, KNumber y => (x <=? y)%Z
  | KNumber _, KString _ => true
  | KString _, KNumber _ => false
  | KString x, KString y => String.leb x y
  end.

(** An entry of an index: index key, primary key, record. *)
Definition entry (A : Type) : Type := (IDBKey * string * A)%type.

(** Entries are ordered by index key, then by primary key. *)
Definition entry_leb {A} (e1 e2 : entry A) : bool :=
  if decide (e1.1.1 = e2.1.1) then String.leb e1.1.2 e2.1.2
  else IDBKey_leb e1.1.1 e2.1.1.

(** Stable insertion sort by a "goes after" test: [x] is placed after every
    [y] with [after x y] and before the first [y] without.  For a consistent
    comparator this is the result of [Array.prototype.sort], which is
    stable. *)
Fixpoint insert_by {A} (after : A → A → bool) (x : A) (l : list A) : list A :=
  match l with
  | [] => [x]
  | y :: l' => if after x y then y :: insert_by after x l' else x :: y :: l'
  end.

Definition sort_by {A} (after : A → A → bool) (l : list A) : list A :=
  foldr (insert_by after) [] l.

(** [store.index(keyPath)]: the records that have a key at [keyPath], in
    index order. *)
Definition index_of {A} (keyPath : A → option IDBKey) (store : gmap string A)
  : list (entry A) :=
  sort_by (λ e1 e2, negb (entry_leb e1 e2))
    (omap (λ kv, k ← keyPath kv.2; Some (k, kv.1, kv.2)) (map_to_list store)).

(** [index.openCursor(null, direction)]: the entries in the order the cursor
    visits them. *)
Inductive Direction : Type := next | prev.

Definition openCursor {A} (idx : list (entry A)) (d : Direction) : list (entry A) :=
  match d with next => idx | prev => reverse idx end.

(** [index.openCursor(IDBKeyRange.only(k))]. *)
Definition openCursor_only {A} (idx : list (entry A)) (k : IDBKey) : list (entry A) :=
  filter (λ e, e.1.1 = k) idx.

(** [db.put(store, record)] for the two stores with a key path. *)
Definition put_conversation (v : TConversation.t) (d : IDB) : Completion IDB :=
  match TConversation.conversationId v with
  | Some k => Return (with_conversations (<[k := v]> (conversations d)) d)
  | None => Throw DataError
  end.

Definition put_message (v : TMessage.t) (d : IDB) : IDB :=
  with_messages (<[TMessage.messageId v := v]> (messages d)) d.

Section storage.
Context `{CryptoJS} `{JSDate} `{JSON TConversation.sensitive} `{JSON TMessage.sensitive}.

(** ** encrypt, decrypt *)

(** private encrypt(data: any): EncryptedData *)
Definition encrypt {A} `{JSON A} (encryptionKey : option string) (amb : Ambient)
    (data : A) : Completion EncryptedData :=
  if negb (truthy encryptionKey) then Throw (Error "Encryption not available")
  else
    let dataString := JSON_stringify data in
    let iv := random_iv amb in
    let encrypted :=
      AES_encrypt dataString (default EmptyString encryptionKey) iv (random_salt amb) in
    Return {| data := encrypted; iv := iv; timestamp := now_encrypt amb |}.

(** private decrypt(encryptedData: EncryptedData): any *)
Definition decrypt {A} `{JSON A} (encryptionKey : option string)
    (encryptedData : EncryptedData) : Completion A :=
  if negb (truthy encryptionKey) then Throw (Error "Encryption key not available")
  else
    let decrypted :=
      AES_decrypt (data encryptedData) (default EmptyString encryptionKey)
        (iv encryptedData) in
    match enc_Utf8 decrypted with
    | None => Throw (Error "Malformed UTF-8 data")
    | Some dataString =>
        match JSON_parse dataString with
        | None => Throw SyntaxError
        | Some v => Return v
        end
    end.

(** ** Settings *)

Definition default_settings : StorageSettings :=
  {| encryptionEnabled := false;
     backupEnabled := true;
     masterKeyHash := None;
     lastBackup := None;
     maxStorageSize := Some (100 * 1024 * 1024)%Z |}.

(** getSettings, once [ensureInitialized] has returned. *)
Definition getSettings (this : ClientStorage) : StorageSettings :=
  match settings (db this) !! "global" with
  | Some r => value r
  | None => default_settings
  end.

(** updateSettings, once [ensureInitialized] has returned. *)
Definition updateSettings (amb : Ambient) (s : StorageSettings)
    (this : ClientStorage) : ClientStorage :=
  with_db
    (with_settings
       (<["global" := {| value := s; sr_updatedAt := now_iso amb |}]> (settings (db this)))
       (db this))
    this.

(** ** Conversations *)

(** The record [storeConversation] hands to [put]. *)
Definition storedConversation_of (amb : Ambient) (conversation : TConversation.t)
    (this : ClientStorage) : TConversation.t :=
  let storedConversation :=
    TConversation.set_updatedAt
      (or_else (TConversation.updatedAt conversation) (now_iso amb))
      (TConversation.set_syncStatus (Some local)
         (TConversation.set_lastAccessed (Some (now amb)) conversation)) in
  let settings := getSettings this in
  if encryptionEnabled settings && truthy (encryptionKey this) then
    let sensitiveData :=
      {| TConversation.s_promptPrefix := TConversation.promptPrefix conversation;
         TConversation.s_title := TConversation.title conversation |} in
    match encrypt (encryptionKey this) amb sensitiveData with
    | Return encrypted =>
        TConversation.set_title None
          (TConversation.set_promptPrefix None
             (TConversation.set_encryptedAt (Some (now amb))
                (TConversation.set_encryptedData (Some encrypted) storedConversation)))
    | Throw _ => storedConversation (* stored without encryption *)
    end
  else storedConversation.

(** async storeConversation(conversation: TConversation): Promise<void> *)
Definition storeConversation (amb : Ambient) (conversation : TConversation.t)
    (this : ClientStorage) : Completion unit * ClientStorage :=
  match put_conversation (storedConversation_of amb conversation this) (db this) with
  | Return d => (Return (), with_db d this)
  | Throw e => (Throw e, this)
  end.

(** What a reader makes of a stored conversation: decrypted when it carries
    a blob and a key is loaded, the stored record itself when there is no
    blob, no key, or [decrypt] throws. *)
Definition read_conversation (this : ClientStorage) (stored : TConversation.t)
  : TConversation.t :=
  match TConversation.encryptedData stored with
  | Some blob =>
      if truthy (encryptionKey this) then
        match decrypt (encryptionKey this) blob with
        | Return decrypted => TConversation.spread_decrypted stored decrypted
        | Throw _ => stored
        end
      else stored
  | None => stored
  end.

(** async getConversation(conversationId): Promise<TConversation | null> *)
Definition getConversation (amb : Ambient) (conversationId : string)
    (this : ClientStorage) : option TConversation.t * ClientStorage :=
  match conversations (db this) !! conversationId with
  | None => (None, this)
  | Some stored =>
      let stored := TConversation.set_lastAccessed (Some (now amb)) stored in
      match put_conversation stored (db this) with
      | Throw _ => (None, this)
      | Return d =>
          let this' := with_db d this in
          (Some (read_conversation this' stored), this')
      end
  end.

(** The [options] of [getConversations]. *)
Inductive SortBy : Type := by_createdAt | by_updatedAt | by_lastAccessed.
Inductive SortOrder : Type := asc | desc.

Record ListOptions : Type := mkListOptions {
  cursor : option string;
  limit : option Z;
  sortBy : option SortBy;
  sortOrder : option SortOrder
}.

Definition keyPath_of (s : SortBy) (c : TConversation.t) : option IDBKey :=
  match s with
  | by_createdAt => KString <$> TConversation.createdAt c
  | by_updatedAt => KString <$> TConversation.updatedAt c
  | by_lastAccessed => KNumber <$> TConversation.lastAccessed c
  end.

(** The [while (cursor && count < limit)] loop of [getConversations]:
    [rest] is what the cursor has still to visit, its head the entry the
    cursor is on.  The result is the page and [nextCursor]. *)
Fixpoint page_loop (this : ClientStorage) (cursor : option string) (limit : Z)
    (rest : list (entry TConversation.t)) (conversations : list TConversation.t)
    (count : nat) (shouldStart : bool)
  : list TConversation.t * option string :=
  match rest with
  | [] => (conversations, None)
  | e :: rest' =>
      let stored := e.2 in
      if (Z.of_nat count <? limit)%Z then
        if negb shouldStart
           && bool_decide (TConversation.conversationId stored = cursor) then
          page_loop this cursor limit rest' conversations count true
        else if shouldStart then
          page_loop this cursor limit rest'
            (conversations ++ [read_conversation this stored]) (S count) true
        else
          page_loop this cursor limit rest' conversations count false
      else (conversations, TConversation.conversationId stored)
  end.

(** async getConversations(options): Promise<{ conversations, nextCursor? }> *)
Definition getConversations (options : ListOptions) (this : ClientStorage)
  : list TConversation.t * option string :=
  let limit := default 25%Z (limit options) in
  let sortBy := default by_updatedAt (sortBy options) in
  let sortOrder := default desc (sortOrder options) in
  let index := index_of (keyPath_of sortBy) (conversations (db this)) in
  let visit := openCursor index (match sortOrder with desc => prev | asc => next end) in
  page_loop this (cursor options) limit visit [] 0 (negb (truthy (cursor options))).

(** The caller of [getConversations] ([useInfiniteQuery] with
    [getNextPageParam: (lastPage) => lastPage.nextCursor]): each page's
    [nextCursor] is the cursor of the next call, until a page has none; at
    most [fuel] pages. *)
Fixpoint follow_pages (fuel : nat) (options : ListOptions) (this : ClientStorage)
  : list (list TConversation.t) :=
  match fuel with
  | O => []
  | S fuel' =>
      let page := getConversations options this in
      page.1 ::
        match page.2 with
        | Some c =>
            follow_pages fuel'
              (mkListOptions (Some c) (limit options) (sortBy options) (sortOrder options))
              this
        | None => []
        end
  end.

(** ** Messages *)

(** The record [storeMessage] hands to [put]. *)
Definition storedMessage_of (amb : Ambient) (message : TMessage.t)
    (this : ClientStorage) : TMessage.t :=
  let storedMessage :=
    TMessage.set_createdAt (or_else (TMessage.createdAt message) (now_iso amb))
      (TMessage.set_syncStatus (Some local) message) in
  let settings := getSettings this in
  if encryptionEnabled settings && truthy (encryptionKey this) then
    let sensitiveData :=
      {| TMessage.s_text := TMessage.text message;
         TMessage.s_content := TMessage.content message |} in
    match encrypt (encryptionKey this) amb sensitiveData with
    | Return encrypted =>
        TMessage.set_content None
          (TMessage.set_text None
             (TMessage.set_encryptedAt (Some (now_encryptedAt amb))
                (TMessage.set_encryptedData (Some encrypted) storedMessage)))
    | Throw _ => storedMessage (* stored without encryption *)
    end
  else storedMessage.

(** async storeMessage(message: TMessage): Promise<void> *)
Definition storeMessage (amb : Ambient) (message : TMessage.t)
    (this : ClientStorage) : Completion unit * ClientStorage :=
  (Return (), with_db (put_message (storedMessage_of amb message this) (db this)) this).

Definition read_message (this : ClientStorage) (stored : TMessage.t) : TMessage.t :=
  match TMessage.encryptedData stored with
  | Some blob =>
      if truthy (encryptionKey this) then
        match decrypt (encryptionKey this) blob with
        | Return decrypted => TMessage.spread_decrypted stored decrypted
        | Throw _ => stored
        end
      else stored
  | None => stored
  end.

(** [new Date(m.createdAt || '').getTime()] *)
Definition createdAt_time (m : TMessage.t) : option Z :=
  Date_getTime (default EmptyString (or_else (TMessage.createdAt m) EmptyString)).

(** The comparator of the final sort is [time a - time b]; [sort] places [a]
    after [b] when it is positive, and reads [NaN] as [0]. *)
Definition createdAt_after (a b : TMessage.t) : bool :=
  match createdAt_time a, createdAt_time b with
  | Some x, Some y => (0 <? x - y)%Z
  | _, _ => false
  end.

(** The index [conversationId] of the messages store. *)
Definition messages_by_conversation (this : ClientStorage) (conversationId : string)
  : list (entry TMessage.t) :=
  openCursor_only
    (index_of (λ m, KString <$> TMessage.conversationId m) (messages (db this)))
    (KString conversationId).

(** async getMessagesByConversationId(conversationId): Promise<TMessage[]> *)
Definition getMessagesByConversationId (conversationId : string)
    (this : ClientStorage) : list TMessage.t :=
  let messages :=
    map (λ e, read_message this e.2) (messages_by_conversation this conversationId) in
  sort_by createdAt_after messages.

(** async deleteConversation(conversationId: string): Promise<void>.  One
    read-write transaction on both stores: the conversation is deleted, then
    the cursor over the index deletes each record it visits. *)
Definition deleteConversation (conversationId : string) (this : ClientStorage)
  : ClientStorage :=
  let d := db this in
  let visit := messages_by_conversation this conversationId in
  with_db
    (mkIDB (delete conversationId (conversations d))
       (foldl (λ store e, delete e.1.2 store) (messages d) visit)
       (settings d))
    this.

(** ** Statistics, export, import *)

Record StorageStats : Type := mkStorageStats {
  conversationCount : nat;
  messageCount : nat;
  estimatedSizeBytes : nat
}.

(** async getStorageStats() *)
Definition getStorageStats (this : ClientStorage) : StorageStats :=
  let conversationCount := size (conversations (db this)) in
  let messageCount := size (messages (db this)) in
  {| conversationCount := conversationCount;
     messageCount := messageCount;
     estimatedSizeBytes := conversationCount * 1000 + messageCount * 500 |}.

(** The object [exportData] returns and [importData] takes; [importData]
    reads [conversations], [messages] and the optional [settings]. *)
Record Backup : Type := mkBackup {
  b_conversations : list TConversation.t;
  b_messages : list TMessage.t;
  b_settings : option StorageSettings;
  exportDate : option string
}.

(** async exportData() *)
Definition exportData (amb : Ambient) (this : ClientStorage) : Backup :=
  let conversationsData :=
    getConversations
      {| cursor := None; limit := Some 10000%Z; sortBy := None; sortOrder := None |}
      this in
  let settings := getSettings this in
  let allMessages :=
    flat_map
      (λ conversation,
         match TConversation.conversationId conversation with
         | Some id => getMessagesByConversationId id this
         | None => []
         end)
      conversationsData.1 in
  {| b_conversations := conversationsData.1;
     b_messages := allMessages;
     b_settings := Some settings;
     exportDate := Some (now_iso amb) |}.

(** The two [for ... of] loops of [importData]; call number [i] reads the
    ambient [amb i].  A call that throws ends the loop: the [catch] of
    [importData] logs and rethrows. *)
Fixpoint import_conversations (amb : nat → Ambient) (i : nat)
    (l : list TConversation.t) (this : ClientStorage)
  : Completion unit * ClientStorage :=
  match l with
  | [] => (Return (), this)
  | conversation :: l' =>
      match storeConversation (amb i) conversation this with
      | (Return _, this') => import_conversations amb (S i) l' this'
      | (Throw e, this') => (Throw e, this')
      end
  end.

Fixpoint import_messages (amb : nat → Ambient) (i : nat)
    (l : list TMessage.t) (this : ClientStorage)
  : Completion unit * ClientStorage :=
  match l with
  | [] => (Return (), this)
  | message :: l' =>
      match storeMessage (amb i) message this with
      | (Return _, this') => import_messages amb (S i) l' this'
      | (Throw e, this') => (Throw e, this')
      end
  end.

(** async importData(data): Promise<void> *)
Definition importData (amb : nat → Ambient) (data : Backup) (this : ClientStorage)
  : Completion unit * ClientStorage :=
  match import_conversations amb 0 (b_conversations data) this with
  | (Throw e, this') => (Throw e, this')
  | (Return _, this1) =>
      let n := List.length (b_conversations data) in
      match import_messages amb n (b_messages data) this1 with
      | (Throw e, this') => (Throw e, this')
      | (Return _, this2) =>
          match b_settings data with
          | Some s =>
              (Return (), updateSettings (amb (n + List.length (b_messages data))) s this2)
          | None => (Return (), this2)
          end
      end
  end.

End storage.

(** ** Initialization

    [initializeStorage], [initializeEncryption], [getSettings],
    [updateSettings] and [ensureInitialized] call one another: [getSettings]
    and [updateSettings] begin with [await this.ensureInitialized()], which
    calls [initializeStorage] again while [isInitialized] is false.  The
    recursion is not bounded by the code, so the model takes fuel; [None]
    is a run that has not returned within the fuel.

    The host is read through a step counter: [openDB_ok n] tells whether the
    [openDB] issued at step [n] resolves, [random_key n] is the key
    [WordArray.random(256/8).toString()] returns at step [n], [iso_at n] the
    ISO date read at step [n]. *)

Record Session : Type := mkSession {
  this : ClientStorage;                (* database content and encryptionKey *)
  connected : bool;                    (* this.db is not null *)
  isInitialized : bool;
  librechat_master_key : option string; (* the localStorage item *)
  steps : nat
}.

Definition tick (s : Session) : Session :=
  mkSession (this s) (connected s) (isInitialized s) (librechat_master_key s)
    (S (steps s)).
Definition set_this (c : ClientStorage) (s : Session) : Session :=
  mkSession c (connected s) (isInitialized s) (librechat_master_key s) (steps s).
Definition set_connected (b : bool) (s : Session) : Session :=
  mkSession (this s) b (isInitialized s) (librechat_master_key s) (steps s).
Definition set_isInitialized (b : bool) (s : Session) : Session :=
  mkSession (this s) (connected s) b (librechat_master_key s) (steps s).
Definition set_librechat_master_key (k : option string) (s : Session) : Session :=
  mkSession (this s) (connected s) (isInitialized s) k (steps s).
Definition set_encryptionKey (k : option string) (s : Session) : Session :=
  set_this (mkClientStorage (db (this s)) k) s.

(** The state [new ClientStorage()] starts from, on a database [d] and a
    local storage holding [k]. *)
Definition new_ClientStorage (d : IDB) (k : option string) : Session :=
  {| this := mkClientStorage d None;
     connected := false;
     isInitialized := false;
     librechat_master_key := k;
     steps := 0 |}.

Definition empty_IDB : IDB := mkIDB ∅ ∅ ∅.

Section initialization.
Context `{CryptoJS}.
Variable openDB_ok : nat → bool.
Variable random_key : nat → string.
Variable iso_at : nat → string.

(** A call of [ensureInitialized]: what it does to the session. *)
Definition Ensure : Type := Session → option (Completion unit * Session).

(** async getSettings(), with its [await this.ensureInitialized()] *)
Definition getSettings_init (ensure : Ensure) (s : Session)
  : option (Completion StorageSettings * Session) :=
  match ensure s with
  | None => None
  | Some (Throw e, s1) => Some (Throw e, s1)
  | Some (Return _, s1) =>
      if connected s1 then Some (Return (getSettings (this s1)), s1)
      else Some (Return default_settings, s1) (* the catch of getSettings *)
  end.

(** async updateSettings(settings), with its [await this.ensureInitialized()] *)
Definition updateSettings_init (ensure : Ensure) (settings : StorageSettings)
    (s : Session) : option (Completion unit * Session) :=
  match ensure s with
  | None => None
  | Some (Throw e, s1) => Some (Throw e, s1)
  | Some (Return _, s1) =>
      if connected s1 then
        let amb := mkAmbient 0 0 0 (iso_at (steps s1)) EmptyString EmptyString in
        Some (Return (), tick (set_this (updateSettings amb settings (this s1)) s1))
      else Some (Throw TypeError, s1)
  end.

(** private async initializeEncryption(); its [catch] swallows every error
    and sets [encryptionKey] to [null], so it returns a session, never an
    error. *)
Definition initializeEncryption (ensure : Ensure) (s : Session) : option Session :=
  match getSettings_init ensure s with
  | None => None
  | Some (Throw _, s1) => Some (set_encryptionKey None s1)
  | Some (Return settings, s1) =>
      if negb (encryptionEnabled settings) then
        let masterKey := random_key (steps s1) in
        let s2 := set_encryptionKey (Some masterKey) (tick s1) in
        let settings' :=
          {| encryptionEnabled := true;
             backupEnabled := backupEnabled settings;
             masterKeyHash := Some (SHA256 masterKey);
             lastBackup := lastBackup settings;
             maxStorageSize := maxStorageSize settings |} in
        match updateSettings_init ensure settings' s2 with
        | None => None
        | Some (Throw _, s3) => Some (set_encryptionKey None s3)
        | Some (Return _, s3) => Some s3
        end
      else if truthy (masterKeyHash settings) then
        let storedKey := librechat_master_key s1 in
        if truthy storedKey
           && bool_decide (SHA256 <$> storedKey = masterKeyHash settings) then
          Some (set_encryptionKey storedKey s1)
        else
          let masterKey := random_key (steps s1) in
          let s2 :=
            set_librechat_master_key (Some masterKey)
              (set_encryptionKey (Some masterKey) (tick s1)) in
          let settings' :=
            {| encryptionEnabled := encryptionEnabled settings;
               backupEnabled := backupEnabled settings;
               masterKeyHash := Some (SHA256 masterKey);
               lastBackup := lastBackup settings;
               maxStorageSize := maxStorageSize settings |} in
          match updateSettings_init ensure settings' s2 with
          | None => None
          | Some (Throw _, s3) => Some (set_encryptionKey None s3)
          | Some (Return _, s3) => Some s3
          end
      else Some s1
  end.

(** private async initializeStorage() *)
Fixpoint initializeStorage (fuel : nat) (s : Session)
  : option (Completion unit * Session) :=
  match fuel with
  | O => None
  | S fuel' =>
      if openDB_ok (steps s) then
        let s1 := set_connected true (tick s) in
        let ensure : Ensure :=
          λ s', if isInitialized s' then Some (Return (), s')
                else initializeStorage fuel' s' in
        match initializeEncryption ensure s1 with
        | None => None
        | Some s2 => Some (Return (), set_isInitialized true s2)
        end
      else Some (Throw OpenDBError, tick s) (* logged and rethrown *)
  end.

(** private async ensureInitialized() *)
Definition ensureInitialized (fuel : nat) : Ensure :=
  λ s, if isInitialized s then Some (Return (), s) else initializeStorage fuel s.

(** The persisted settings record says that encryption is enabled. *)
Definition persisted_encryptionEnabled (s : Session) : bool :=
  match settings (db (this s)) !! "global" with
  | Some r => encryptionEnabled (value r)
  | None => false
  end.

End initialization.

(** ** Methods, with their [await this.ensureInitialized()]

    Every public method begins with [await this.ensureInitialized()]; the
    definitions of the sections above are what a method does once that call
    has returned.  Here the call comes first, as in [getSettings_init] and
    [updateSettings_init]: the method does not return while
    [ensureInitialized] does not, rejects when it rejects, and runs its body
    otherwise.  The methods a body calls begin with the same call, which
    then returns at once: [ensureInitialized] returns only with
    [isInitialized] set.  With [this.db] null, [this.db!.transaction] throws
    [TypeError]. *)
Section methods.
Context `{CryptoJS} `{JSDate} `{JSON TConversation.sensitive} `{JSON TMessage.sensitive}.

(** async getMessagesByConversationId(conversationId), with its
    [await this.ensureInitialized()]; the transaction is opened inside the
    [try], whose [catch] returns [[]]. *)
Definition getMessagesByConversationId_init (ensure : Ensure) (conversationId : string)
    (s : Session) : option (Completion (list TMessage.t) * Session) :=
  match ensure s with
  | None => None
  | Some (Throw e, s1) => Some (Throw e, s1)
  | Some (Return _, s1) =>
      if connected s1
      then Some (Return (getMessagesByConversationId conversationId (this s1)), s1)
      else Some (Return [], s1)
  end.

(** async deleteConversation(conversationId), with its
    [await this.ensureInitialized()]; the transaction is opened before the
    [try]. *)
Definition deleteConversation_init (ensure : Ensure) (conversationId : string)
    (s : Session) : option (Completion unit * Session) :=
  match ensure s with
  | None => None
  | Some (Throw e, s1) => Some (Throw e, s1)
  | Some (Return _, s1) =>
      if connected s1
      then Some (Return (), set_this (deleteConversation conversationId (this s1)) s1)
      else Some (Throw TypeError, s1)
  end.

(** async exportData(), with its [await this.ensureInitialized()].  With
    [this.db] null [getConversations] and [getSettings] catch the
    [TypeError]: no conversation, the default settings. *)
Definition exportData_init (ensure : Ensure) (amb : Ambient) (s : Session)
  : option (Completion Backup * Session) :=
  match ensure s with
  | None => None
  | Some (Throw e, s1) => Some (Throw e, s1)
  | Some (Return _, s1) =>
      if connected s1 then Some (Return (exportData amb (this s1)), s1)
      else Some (Return {| b_conversations := [];
                           b_messages := [];
                           b_settings := Some default_settings;
                           exportDate := Some (now_iso amb) |}, s1)
  end.

(** async importData(data), with its [await this.ensureInitialized()]; the
    transaction is opened before the [try]. *)
Definition importData_init (ensure : Ensure) (amb : nat → Ambient) (data : Backup)
    (s : Session) : option (Completion unit * Session) :=
  match ensure s with
  | None => None
  | Some (Throw e, s1) => Some (Throw e, s1)
  | Some (Return _, s1) =>
      if connected s1 then
        let result := importData amb data (this s1) in
        Some (result.1, set_this result.2 s1)
      else Some (Throw TypeError, s1)
  end.

End methods.

(** ** Clearing the stores *)

(** async clearAllData(): Promise<void>, once [ensureInitialized] has
    returned.  One read-write transaction clears the conversations and the
    messages; the settings store is not part of it.  Afterwards the item
    [librechat_master_key] of the local storage is removed; the field
    [encryptionKey] is not touched. *)
Definition clearAllData (s : Session) : Session :=
  let d := db (this s) in
  set_librechat_master_key None
    (set_this (with_db (mkIDB ∅ ∅ (settings d)) (this s)) s).

(** ** The data service (the second part of
    src/client/src/data-provider/Messages/clientQueries.ts)

    The functions the application calls; each wraps one method of the
    singleton [clientStorage].  The two ids [Constants.NEW_CONVO] and
    [Constants.PENDING_CONVO] come from the package librechat-data-provider. *)

Class Constants : Type := {
  NEW_CONVO : string;
  PENDING_CONVO : string
}.

Module clientDataService.
Section clientDataService.
Context `{CryptoJS} `{JSDate} `{JSON TConversation.sensitive} `{JSON TMessage.sensitive}.
Context `{Constants}.

(** export async function getMessagesByConvoId(conversationId) *)
Definition getMessagesByConvoId (conversationId : string) (this : ClientStorage)
  : list TMessage.t :=
  if bool_decide (conversationId = NEW_CONVO)
     || bool_decide (conversationId = PENDING_CONVO)
  then []
  else getMessagesByConversationId conversationId this.

(** export async function getConversations(cursor?) *)
Definition getConversations (cursor : option string) (this : ClientStorage)
  : list TConversation.t * option string :=
  getConversations
    {| cursor := cursor; limit := Some 25%Z;
       sortBy := Some by_updatedAt; sortOrder := Some desc |}
    this.

(** export async function getConversationById(id) *)
Definition getConversationById (amb : Ambient) (id : string) (this : ClientStorage)
  : option TConversation.t * ClientStorage :=
  getConversation amb id this.

(** export async function updateConversation(conversation); [iso] is the
    [new Date().toISOString()] of the wrapper, [amb] what the call of
    [storeConversation] reads. *)
Definition updateConversation (iso : string) (amb : Ambient)
    (conversation : TConversation.t) (this : ClientStorage)
  : Completion TConversation.t * ClientStorage :=
  let updatedConversation := TConversation.set_updatedAt (Some iso) conversation in
  match storeConversation amb updatedConversation this with
  | (Return _, this') => (Return updatedConversation, this')
  | (Throw e, this') => (Throw e, this') (* logged and rethrown *)
  end.

(** export async function storeMessage(message) *)
Definition storeMessage (iso : string) (amb : Ambient) (message : TMessage.t)
    (this : ClientStorage) : Completion TMessage.t * ClientStorage :=
  let messageToStore :=
    TMessage.set_createdAt (or_else (TMessage.createdAt message) iso) message in
  match storeMessage amb messageToStore this with
  | (Return _, this') => (Return messageToStore, this')
  | (Throw e, this') => (Throw e, this')
  end.

End clientDataService.
End clientDataService.

(** ** The server backup (the second part of
    src/client/src/data-provider/unifiedQueries.ts)

    [ServerBackupService] encrypts what [exportData] returns under a key of
    its own and sends it to the server; unlike [EncryptedData], an
    [EncryptedBackup] carries a checksum of the plain text. *)

(** interface EncryptedBackup *)
Record EncryptedBackup : Type := mkEncryptedBackup {
  backup_data : string;
  backup_iv : string;
  backup_timestamp : Z;
  checksum : string
}.

(** interface BackupData: [{ ...localData, version }] *)
Record BackupData : Type := mkBackupData {
  localData : Backup;
  version : string
}.

(** [error instanceof Error ? error.message : 'Unknown error'] on the errors
    of the model: every one of them is an [Error]; the message of an
    [Error msg] is [msg], the messages of the others are the host's. *)
Class ErrorMessages : Type := {
  host_message : JsError → string
}.

Definition error_message `{ErrorMessages} (e : JsError) : string :=
  match e with
  | Error msg => msg
  | _ => host_message e
  end.

(** [{ success, error? }] *)
Record BackupResult : Type := mkBackupResult {
  success : bool;
  error : option string
}.

Module ServerBackupService.
Section ServerBackupService.
Context `{CryptoJS}.

(** private encryptBackup(data: BackupData): EncryptedBackup *)
Definition encryptBackup {A} `{JSON A} (backupKey : option string) (amb : Ambient)
    (data : A) : Completion EncryptedBackup :=
  if negb (truthy backupKey) then Throw (Error "Backup key not initialized")
  else
    let dataString := JSON_stringify data in
    let iv := random_iv amb in
    let encrypted :=
      AES_encrypt dataString (default EmptyString backupKey) iv (random_salt amb) in
    let checksum := SHA256 dataString in
    Return {| backup_data := encrypted;
              backup_iv := iv;
              backup_timestamp := now amb;
              checksum := checksum |}.

(** private decryptBackup(encryptedBackup: EncryptedBackup): BackupData *)
Definition decryptBackup {A} `{JSON A} (backupKey : option string)
    (encryptedBackup : EncryptedBackup) : Completion A :=
  if negb (truthy backupKey) then Throw (Error "Backup key not initialized")
  else
    let decrypted :=
      AES_decrypt (backup_data encryptedBackup) (default EmptyString backupKey)
        (backup_iv encryptedBackup) in
    match enc_Utf8 decrypted with
    | None => Throw (Error "Malformed UTF-8 data")
    | Some dataString =>
        match JSON_parse dataString with
        | None => Throw SyntaxError
        | Some data =>
            if bool_decide (SHA256 dataString = checksum encryptedBackup)
            then Return data
            else Throw (Error "Backup data integrity check failed")
        end
    end.

Context `{JSDate} `{JSON TConversation.sensitive} `{JSON TMessage.sensitive}.
Context `{JSON BackupData} `{ErrorMessages}.

(** async restoreBackup(backupId?).  [canBackup] is what [this.canBackup()]
    resolved to, [fetched] the outcome of [request.get(url)]; [amb] is read
    by the calls of [importData]. *)
Definition restoreBackup (backupKey : option string) (canBackup : bool)
    (fetched : Completion EncryptedBackup) (amb : nat → Ambient)
    (this : ClientStorage) : BackupResult * ClientStorage :=
  if negb canBackup then
    ({| success := false; error := Some "Server backup not available" |}, this)
  else
    match fetched with
    | Throw e => ({| success := false; error := Some (error_message e) |}, this)
    | Return encryptedBackup =>
        match decryptBackup backupKey encryptedBackup with
        | Throw e => ({| success := false; error := Some (error_message e) |}, this)
        | Return backupData =>
            match importData amb (localData backupData) this with
            | (Throw e, this') =>
                ({| success := false; error := Some (error_message e) |}, this')
            | (Return _, this') => ({| success := true; error := None |}, this')
            end
        end
    end.

End ServerBackupService.
End ServerBackupService.

(** ** The endpoints (enum EModelEndpoint of librechat-data-provider) *)
Module EModelEndpoint.
Definition openAI : string := "openAI".
Definition anthropic : string := "anthropic".
Definition google : string := "google".
Definition azureOpenAI : string := "azureOpenAI".
End EModelEndpoint.

(** ** Property lookup

    [object[key]] on an object made by an object literal, a spread or
    [JSON.parse]: an own property is found first; a key that names a member
    of [Object.prototype] and is not an own property finds that inherited
    member, which is a function or an object and is truthy; any other key
    gives [undefined]. *)
Definition Object_prototype : list string :=
  [ "constructor"; "__defineGetter__"; "__defineSetter__"; "hasOwnProperty";
    "__lookupGetter__"; "__lookupSetter__"; "isPrototypeOf";
    "propertyIsEnumerable"; "toString"; "valueOf"; "__proto__";
    "toLocaleString" ].

Inductive Property (A : Type) : Type :=
| own (a : A)
| inherited
| absent.
Arguments own {A} a.
Arguments inherited {A}.
Arguments absent {A}.

Fixpoint assoc {A} (key : string) (object : list (string * A)) : option A :=
  match object with
  | [] => None
  | (k, v) :: object' => if bool_decide (k = key) then Some v else assoc key object'
  end.

Definition get_property {A} (object : list (string * A)) (key : string) : Property A :=
  match assoc key object with
  | Some v => own v
  | None => if bool_decide (key ∈ Object_prototype) then inherited else absent
  end.

(** ** File processing (the second part of
    src/client/src/utils/clientConfiguration.ts)

    Reading a file and drawing an image are the browser's: the two private
    methods [processImage] and [processDocument] are operations of the
    host.  Sizes are whole numbers of bytes. *)
Module ClientFileProcessor.

(** The properties of a [File] the code reads. *)
Record File : Type := mkFile {
  name : string;
  size : Z;
  type : string
}.

(** interface FileProcessingOptions; [None] is a property the object does
    not have.  Options with a property that is there and [undefined] are
    not among these. *)
Record FileProcessingOptions : Type := mkFileProcessingOptions {
  maxSize : option Z;
  allowedTypes : option (list string);
  resizeImages : option bool;
  maxImageDimension : option Z;
  enableThumbnails : option bool
}.

(** interface ProcessedFile *)
Record ProcessedFile : Type := mkProcessedFile {
  originalFile : File;
  processedData : string;
  mimeType : string;
  p_size : Z;
  p_name : string;
  isImage : bool;
  isDocument : bool;
  thumbnailUrl : option string;
  p_error : option string
}.

Definition DEFAULT_OPTIONS : FileProcessingOptions :=
  {| maxSize := Some (20 * 1024 * 1024)%Z;
     allowedTypes :=
       Some [ "image/jpeg"; "image/png"; "image/gif"; "image/webp";
              "application/pdf"; "text/plain"; "text/markdown";
              "application/json"; "text/csv";
              "text/javascript"; "text/typescript"; "text/html"; "text/css";
              "text/python" ];
     resizeImages := Some true;
     maxImageDimension := Some 2048%Z;
     enableThumbnails := Some true |}.

(** [{ ...a, ...b }] on one property. *)
Definition spread {A} (a b : option A) : option A :=
  match b with
  | Some _ => b
  | None => a
  end.

(** constructor(options = {}): [this.options = { ...DEFAULT_OPTIONS, ...options }] *)
Definition new (options : FileProcessingOptions) : FileProcessingOptions :=
  {| maxSize := spread (maxSize DEFAULT_OPTIONS) (maxSize options);
     allowedTypes := spread (allowedTypes DEFAULT_OPTIONS) (allowedTypes options);
     resizeImages := spread (resizeImages DEFAULT_OPTIONS) (resizeImages options);
     maxImageDimension :=
       spread (maxImageDimension DEFAULT_OPTIONS) (maxImageDimension options);
     enableThumbnails :=
       spread (enableThumbnails DEFAULT_OPTIONS) (enableThumbnails options) |}.

(** [a || b] on numbers: [undefined] and [0] are falsy. *)
Definition or_number (a : option Z) (b : Z) : Z :=
  match a with
  | Some z => if bool_decide (z = 0%Z) then b else z
  | None => b
  end.

(** [Math.round(n / 1024 / 1024)]: the divisions by a power of two are
    exact, and [Math.round] rounds halves up. *)
Definition megabytes (n : Z) : Z := ((n + 512 * 1024) / (1024 * 1024))%Z.

(** [list.join(', ')] *)
Fixpoint join (l : list string) : string :=
  match l with
  | [] => EmptyString
  | [x] => x
  | x :: l' => x ++ ", " ++ join l'
  end.

(** [{ valid: boolean; error?: string }] *)
Inductive Validation : Type :=
| valid
| invalid (error : string).

(** private validateFile(file: File) *)
Definition validateFile (options : FileProcessingOptions) (file : File) : Validation :=
  let maxSize' := or_number (maxSize options) (default 0%Z (maxSize DEFAULT_OPTIONS)) in
  if (maxSize' <? size file)%Z then
    invalid ("File size (" ++ pretty (megabytes (size file))
             ++ "MB) exceeds maximum allowed size ("
             ++ pretty (megabytes maxSize') ++ "MB)")
  else
    let allowedTypes' :=
      default (default [] (allowedTypes DEFAULT_OPTIONS)) (allowedTypes options) in
    if negb (bool_decide (type file ∈ allowedTypes')) then
      invalid ("File type '" ++ type file ++ "' is not supported. Allowed types: "
               ++ join allowedTypes')
    else valid.

(** static getSupportedTypes(provider: string): string[].  The result is
    [providerSupport[provider] || DEFAULT_OPTIONS.allowedTypes]; [None] is
    the inherited member a key of [Object.prototype] finds, which is no
    list of types. *)
Definition providerSupport : list (string * list string) :=
  [ (EModelEndpoint.openAI,
     [ "image/jpeg"; "image/png"; "image/gif"; "image/webp"; "application/pdf";
       "text/plain"; "text/markdown"; "application/json"; "text/csv" ]);
    (EModelEndpoint.anthropic,
     [ "image/jpeg"; "image/png"; "image/gif"; "image/webp"; "application/pdf";
       "text/plain"; "text/markdown" ]);
    (EModelEndpoint.google,
     [ "image/jpeg"; "image/png"; "text/plain"; "application/pdf" ]);
    (EModelEndpoint.azureOpenAI,
     [ "image/jpeg"; "image/png"; "image/gif"; "image/webp"; "application/pdf";
       "text/plain" ]) ].

Definition getSupportedTypes (provider : string) : option (list string) :=
  match get_property providerSupport provider with
  | own types => Some types
  | inherited => None
  | absent => allowedTypes DEFAULT_OPTIONS
  end.

(** The browser: what the promises of [processImage] and [processDocument]
    settle to. *)
Class FileHost : Type := {
  processImage : FileProcessingOptions → File → Completion (string * option string);
  processDocument : File → Completion string
}.

Section processing.
Context `{FileHost} `{ErrorMessages}.

(** The [ProcessedFile] of the [catch] of [processFile]. *)
Definition failed (file : File) (error : string) : ProcessedFile :=
  {| originalFile := file;
     processedData := EmptyString;
     mimeType := type file;
     p_size := size file;
     p_name := name file;
     isImage := String.prefix "image/" (type file);
     isDocument := negb (String.prefix "image/" (type file));
     thumbnailUrl := None;
     p_error := Some error |}.

Definition processed (file : File) (data : string) (thumbnail : option string)
  : ProcessedFile :=
  {| originalFile := file;
     processedData := data;
     mimeType := type file;
     p_size := size file;
     p_name := name file;
     isImage := String.prefix "image/" (type file);
     isDocument := negb (String.prefix "image/" (type file));
     thumbnailUrl := thumbnail;
     p_error := None |}.

(** async processFile(file: File): Promise<ProcessedFile> *)
Definition processFile (options : FileProcessingOptions) (file : File) : ProcessedFile :=
  match validateFile options file with
  | invalid error => failed file error (* thrown, caught, [error.message] *)
  | valid =>
      if String.prefix "image/" (type file) then
        match processImage options file with
        | Return result => processed file result.1 result.2
        | Throw e => failed file (error_message e)
        end
      else
        match processDocument file with
        | Return data => processed file data None
        | Throw e => failed file (error_message e)
        end
  end.

(** async processFiles(files: File[]): [processFile] never rejects, so every
    result of [Promise.allSettled] is fulfilled. *)
Definition processFiles (options : FileProcessingOptions) (files : list File)
  : list ProcessedFile :=
  map (processFile options) files.

End processing.

(** [s.split(',')[1]] *)
Fixpoint until_comma (s : string) : string * option string :=
  match s with
  | EmptyString => (EmptyString, None)
  | String c s' =>
      if bool_decide (c = ","%char) then (EmptyString, Some s')
      else let r := until_comma s' in (String c r.1, r.2)
  end.

Definition split_comma_1 (s : string) : option string :=
  match (until_comma s).2 with
  | Some rest => Some (until_comma rest).1
  | None => None
  end.

(** The objects [convertToLLMFormat] returns, by shape. *)
Inductive LLMContent : Type :=
| image_url_content (name : string) (size : Z) (url : string)
    (* { type: 'image_url', name, size, image_url: { url } } *)
| text_content (name : string) (size : Z) (text : string)
    (* { type: 'text', name, size, text } *)
| anthropic_image (media_type : string) (data : option string)
    (* { type: 'image', source: { type: 'base64', media_type, data } } *)
| anthropic_text (text : string)
    (* { type: 'text', text } *)
| google_inlineData (mimeType : string) (data : option string)
    (* { inlineData: { mimeType, data } } *)
| google_text (text : string)
    (* { text } *)
| generic_content (type : string) (content : string) (mimeType : string) (name : string).
    (* { type, content, mimeType, name } *)

(** static convertToLLMFormat(processedFile, provider) *)
Definition convertToLLMFormat (processedFile : ProcessedFile) (provider : string)
  : Completion LLMContent :=
  if truthy (p_error processedFile) then
    Throw (Error ("File processing error: " ++ default EmptyString (p_error processedFile)))
  else if bool_decide (provider = EModelEndpoint.openAI)
          || bool_decide (provider = EModelEndpoint.azureOpenAI) then
    if isImage processedFile then
      Return (image_url_content (p_name processedFile) (p_size processedFile)
                (processedData processedFile))
    else
      Return (text_content (p_name processedFile) (p_size processedFile)
                (processedData processedFile))
  else if bool_decide (provider = EModelEndpoint.anthropic) then
    if isImage processedFile then
      Return (anthropic_image (mimeType processedFile)
                (split_comma_1 (processedData processedFile)))
    else Return (anthropic_text (processedData processedFile))
  else if bool_decide (provider = EModelEndpoint.google) then
    if isImage processedFile then
      Return (google_inlineData (mimeType processedFile)
                (split_comma_1 (processedData processedFile)))
    else Return (google_text (processedData processedFile))
  else
    Return (generic_content (if isImage processedFile then "image" else "text")
              (processedData processedFile) (mimeType processedFile)
              (p_name processedFile)).

End ClientFileProcessor.

(** ** The configuration manager (the first part of
    src/client/src/utils/clientConfiguration.ts)

    [ClientConfigManager] keeps [this.config], a [ClientConfig] whose
    properties are references to objects.  [{ ...DEFAULT_CONFIG }] copies
    the references, not the objects, and four methods write into the
    object a property refers to, so the model has a heap: the [features]
    object, the [preferredModels] object and each provider object are
    cells, and a configuration holds their locations.  The objects no
    method writes into ([providers], [user], [ui], [customSettings]) are
    values.  No change listener is registered. *)
Module ClientConfigManager.

Record SupportedFeatures : Type := mkSupportedFeatures {
  vision : option bool;
  function_calling : option bool;
  streaming : option bool;
  file_upload : option bool
}.

(** A price is kept as the literal that writes it; no method computes with
    it. *)
Record Pricing : Type := mkPricing {
  input : option string;
  output : option string
}.

(** interface ModelConfig *)
Record ModelConfig : Type := mkModelConfig {
  id : string;
  name : string;
  provider : string;
  description : option string;
  maxTokens : option Z;
  contextWindow : option Z;
  supportedFeatures : SupportedFeatures;
  pricing : option Pricing;
  deprecated : option bool;
  enabled : option bool
}.

Record RateLimits : Type := mkRateLimits {
  requestsPerMinute : option Z;
  tokensPerMinute : option Z;
  requestsPerDay : option Z
}.

(** interface ProviderConfig *)
Record ProviderConfig : Type := mkProviderConfig {
  p_id : string;
  p_name : string;
  endpoint : string;
  supportsCORS : bool;
  requiresApiKey : bool;
  defaultModel : option string;
  models : list ModelConfig;
  features : SupportedFeatures;
  rateLimits : option RateLimits
}.

Definition set_models (l : list ModelConfig) (p : ProviderConfig) : ProviderConfig :=
  mkProviderConfig (p_id p) (p_name p) (endpoint p) (supportsCORS p) (requiresApiKey p)
    (defaultModel p) l (features p) (rateLimits p).

Definition set_provider (providerId : string) (m : ModelConfig) : ModelConfig :=
  mkModelConfig (id m) (name m) providerId (description m) (maxTokens m)
    (contextWindow m) (supportedFeatures m) (pricing m) (deprecated m) (enabled m).

(** ClientConfig['features'] and its keys *)
Record Features : Type := mkFeatures {
  clientStorageEnabled : bool;
  offlineModeEnabled : bool;
  encryptionEnabled : bool;
  backupEnabled : bool
}.

Inductive Feature : Type :=
| f_clientStorageEnabled
| f_offlineModeEnabled
| f_encryptionEnabled
| f_backupEnabled.

Definition get_feature (f : Feature) (fs : Features) : bool :=
  match f with
  | f_clientStorageEnabled => clientStorageEnabled fs
  | f_offlineModeEnabled => offlineModeEnabled fs
  | f_encryptionEnabled => encryptionEnabled fs
  | f_backupEnabled => backupEnabled fs
  end.

Definition set_feature (f : Feature) (b : bool) (fs : Features) : Features :=
  match f with
  | f_clientStorageEnabled =>
      mkFeatures b (offlineModeEnabled fs) (encryptionEnabled fs) (backupEnabled fs)
  | f_offlineModeEnabled =>
      mkFeatures (clientStorageEnabled fs) b (encryptionEnabled fs) (backupEnabled fs)
  | f_encryptionEnabled =>
      mkFeatures (clientStorageEnabled fs) (offlineModeEnabled fs) b (backupEnabled fs)
  | f_backupEnabled =>
      mkFeatures (clientStorageEnabled fs) (offlineModeEnabled fs) (encryptionEnabled fs) b
  end.

(** ClientConfig['ui'] *)
Record UI : Type := mkUI {
  theme : string;
  language : string;
  density : string
}.

(** Locations of objects. *)
Abbreviation loc := nat.

(** An object used as a record from keys to values: [Record<string, A>].
    No method of the class depends on the order of the keys. *)
Abbreviation Object := (gmap string).

(** interface ClientConfig, with references where methods write through
    them. *)
Record ClientConfig : Type := mkClientConfig {
  providers : Object loc;
  defaultProvider : string;
  preferredModels : loc;
  customSettings : Object string;
  c_features : loc;
  ui : UI
}.

Record Heap : Type := mkHeap {
  provider_objects : gmap loc ProviderConfig;
  preferredModels_objects : gmap loc (Object string);
  features_objects : gmap loc Features
}.

(** The configuration as a value, every reference followed: what
    [JSON.stringify] walks. *)
Record ConfigValue : Type := mkConfigValue {
  v_providers : Object ProviderConfig;
  v_defaultProvider : string;
  v_preferredModels : Object string;
  v_customSettings : Object string;
  v_features : Features;
  v_ui : UI
}.

(** What [JSON.parse] returns, of which [mergeWithDefaults] reads these
    properties; each may be missing. *)
Record PartialFeatures : Type := mkPartialFeatures {
  s_clientStorageEnabled : option bool;
  s_offlineModeEnabled : option bool;
  s_encryptionEnabled : option bool;
  s_backupEnabled : option bool
}.

Record PartialUI : Type := mkPartialUI {
  s_theme : option string;
  s_language : option string;
  s_density : option string
}.

Record StoredUser : Type := mkStoredUser {
  s_preferredModels : option (Object string);
  s_customSettings : option (Object string)
}.

Record StoredConfig : Type := mkStoredConfig {
  s_providers : option (Object ProviderConfig);
  s_defaultProvider : option string;
  s_user : option StoredUser;
  s_features : option PartialFeatures;
  s_ui : option PartialUI
}.

(** [JSON.stringify(config)], [JSON.stringify(config, null, 2)] and
    [JSON.parse]; [None] is a text [JSON.parse] throws on, or one that
    parses to [null], on which [mergeWithDefaults] throws. *)
Class ConfigJSON : Type := {
  stringify : ConfigValue → string;
  stringify_indented : ConfigValue → string;
  parse : string → option StoredConfig
}.

(** *** The defaults *)

Definition all_features : SupportedFeatures :=
  mkSupportedFeatures (Some true) (Some true) (Some true) (Some true).
Definition no_function_calling : SupportedFeatures :=
  mkSupportedFeatures (Some true) None (Some true) (Some true).

Definition openAI_config : ProviderConfig :=
  {| p_id := EModelEndpoint.openAI;
     p_name := "OpenAI";
     endpoint := "https://api.openai.com/v1";
     supportsCORS := true;
     requiresApiKey := true;
     defaultModel := Some "gpt-4o-mini";
     features := all_features;
     rateLimits := Some (mkRateLimits (Some 3500%Z) (Some 200000%Z) None);
     models :=
       [ mkModelConfig "gpt-4o" "GPT-4o" EModelEndpoint.openAI
           (Some "Most capable model, multimodal") (Some 4096%Z) (Some 128000%Z)
           all_features (Some (mkPricing (Some "0.005") (Some "0.015"))) None (Some true);
         mkModelConfig "gpt-4o-mini" "GPT-4o Mini" EModelEndpoint.openAI
           (Some "Fast, cost-effective model") (Some 4096%Z) (Some 128000%Z)
           all_features (Some (mkPricing (Some "0.00015") (Some "0.0006"))) None
           (Some true);
         mkModelConfig "gpt-4-turbo" "GPT-4 Turbo" EModelEndpoint.openAI
           (Some "High-performance model with large context") (Some 4096%Z)
           (Some 128000%Z)
           all_features (Some (mkPricing (Some "0.01") (Some "0.03"))) None (Some true);
         mkModelConfig "gpt-3.5-turbo" "GPT-3.5 Turbo" EModelEndpoint.openAI
           (Some "Fast and efficient for most tasks") (Some 4096%Z) (Some 16385%Z)
           (mkSupportedFeatures None (Some true) (Some true) None)
           (Some (mkPricing (Some "0.0005") (Some "0.0015"))) None (Some true) ] |}.

Definition anthropic_config : ProviderConfig :=
  {| p_id := EModelEndpoint.anthropic;
     p_name := "Anthropic";
     endpoint := "https://api.anthropic.com/v1";
     supportsCORS := true;
     requiresApiKey := true;
     defaultModel := Some "claude-3-5-sonnet-20241022";
     features := no_function_calling;
     rateLimits := Some (mkRateLimits (Some 1000%Z) (Some 40000%Z) None);
     models :=
       [ mkModelConfig "claude-3-5-sonnet-20241022" "Claude 3.5 Sonnet"
           EModelEndpoint.anthropic
           (Some "Most intelligent model") (Some 8192%Z) (Some 200000%Z)
           no_function_calling (Some (mkPricing (Some "0.003") (Some "0.015"))) None
           (Some true);
         mkModelConfig "claude-3-5-haiku-20241022" "Claude 3.5 Haiku"
           EModelEndpoint.anthropic
           (Some "Fast and cost-effective") (Some 8192%Z) (Some 200000%Z)
           no_function_calling (Some (mkPricing (Some "0.001") (Some "0.005"))) None
           (Some true);
         mkModelConfig "claude-3-opus-20240229" "Claude 3 Opus"
           EModelEndpoint.anthropic
           (Some "Most capable model for complex tasks") (Some 4096%Z) (Some 200000%Z)
           no_function_calling (Some (mkPricing (Some "0.015") (Some "0.075"))) None
           (Some true) ] |}.

Definition google_config : ProviderConfig :=
  {| p_id := EModelEndpoint.google;
     p_name := "Google";
     endpoint := "https://generativelanguage.googleapis.com/v1";
     supportsCORS := true;
     requiresApiKey := true;
     defaultModel := Some "gemini-1.5-pro-latest";
     features := no_function_calling;
     rateLimits := Some (mkRateLimits (Some 360%Z) None (Some 1000%Z));
     models :=
       [ mkModelConfig "gemini-1.5-pro-latest" "Gemini 1.5 Pro" EModelEndpoint.google
           (Some "Most capable model with large context window") (Some 8192%Z)
           (Some 2000000%Z) no_function_calling None None (Some true);
         mkModelConfig "gemini-1.5-flash-latest" "Gemini 1.5 Flash" EModelEndpoint.google
           (Some "Fast and efficient model") (Some 8192%Z) (Some 1000000%Z)
           no_function_calling None None (Some true) ] |}.

Definition azureOpenAI_config : ProviderConfig :=
  {| p_id := EModelEndpoint.azureOpenAI;
     p_name := "Azure OpenAI";
     endpoint := "https://{instance}.openai.azure.com";
     supportsCORS := true;
     requiresApiKey := true;
     defaultModel := Some "gpt-4o";
     features := all_features;
     rateLimits := None;
     models :=
       [ mkModelConfig "gpt-4o" "GPT-4o (Azure)" EModelEndpoint.azureOpenAI
           (Some "Azure-hosted GPT-4o") (Some 4096%Z) (Some 128000%Z)
           all_features None None (Some true) ] |}.

(** The objects the module creates when it is loaded: the four provider
    objects at locations 0 to 3, the [preferredModels] and the [features]
    object of [DEFAULT_CONFIG] at location 0 of their kind. *)
Definition initial_heap : Heap :=
  {| provider_objects :=
       <[0 := openAI_config]> (<[1 := anthropic_config]>
         (<[2 := google_config]> (<[3 := azureOpenAI_config]> ∅)));
     preferredModels_objects :=
       <[0 := <[EModelEndpoint.openAI := "gpt-4o-mini"]>
                (<[EModelEndpoint.anthropic := "claude-3-5-sonnet-20241022"]>
                   (<[EModelEndpoint.google := "gemini-1.5-pro-latest"]> ∅))]> ∅;
     features_objects := <[0 := mkFeatures true true true false]> ∅ |}.

Definition DEFAULT_PROVIDER_CONFIGS : Object loc :=
  <[EModelEndpoint.openAI := 0]> (<[EModelEndpoint.anthropic := 1]>
    (<[EModelEndpoint.google := 2]> (<[EModelEndpoint.azureOpenAI := 3]> ∅))).

Definition DEFAULT_CONFIG : ClientConfig :=
  {| providers := DEFAULT_PROVIDER_CONFIGS;
     defaultProvider := EModelEndpoint.openAI;
     preferredModels := 0;
     customSettings := ∅;
     c_features := 0;
     ui := mkUI "auto" "en" "comfortable" |}.

(** *** The instance *)

(** [this.config], the heap, and the item [librechat_client_config] of the
    local storage. *)
Record State : Type := mkState {
  config : ClientConfig;
  heap : Heap;
  localStorage : option string
}.

Definition set_config (c : ClientConfig) (s : State) : State :=
  mkState c (heap s) (localStorage s).
Definition set_heap (h : Heap) (s : State) : State :=
  mkState (config s) h (localStorage s).

(** [object[key]]: see [get_property]. *)
Definition get {A} (object : Object A) (key : string) : Property A :=
  match object !! key with
  | Some v => own v
  | None => if bool_decide (key ∈ Object_prototype) then inherited else absent
  end.

(** [object[key] = value] with a string for value: the setter of
    [__proto__] ignores it, unless [__proto__] is an own property. *)
Definition set {A} (object : Object A) (key : string) (value : A) : Object A :=
  if bool_decide (key = "__proto__") && bool_decide (object !! key = None)
  then object
  else <[key := value]> object.

(** [{ ...a, ...b }] *)
Definition spread_object {A} (a b : Object A) : Object A := b ∪ a.

(** Reading through a reference; a location that holds nothing reads as
    the empty object. *)
Definition features_of (h : Heap) (l : loc) : Features :=
  default (mkFeatures false false false false) (features_objects h !! l).
Definition preferredModels_of (h : Heap) (l : loc) : Object string :=
  default ∅ (preferredModels_objects h !! l).

(** A location that holds nothing yet. *)
Definition fresh {A} (m : gmap loc A) : loc := S (max_list (elements (dom m))).

Definition snapshot (h : Heap) (c : ClientConfig) : ConfigValue :=
  {| v_providers := omap (λ l, provider_objects h !! l) (providers c);
     v_defaultProvider := defaultProvider c;
     v_preferredModels := preferredModels_of h (preferredModels c);
     v_customSettings := customSettings c;
     v_features := features_of h (c_features c);
     v_ui := ui c |}.

Section manager.
Context `{ConfigJSON}.

(** private saveConfig(): void *)
Definition saveConfig (s : State) : State :=
  mkState (config s) (heap s) (Some (stringify (snapshot (heap s) (config s)))).

(** Allocating the provider objects [JSON.parse] made. *)
Definition alloc_providers (parsed : Object ProviderConfig)
    (objects : gmap loc ProviderConfig) : Object loc * gmap loc ProviderConfig :=
  map_fold
    (λ k p (r : Object loc * gmap loc ProviderConfig),
       let here := fresh r.2 in (<[k := here]> r.1, <[here := p]> r.2))
    (∅, objects) parsed.

Definition spread_features (a : Features) (b : option PartialFeatures) : Features :=
  match b with
  | None => a
  | Some b =>
      {| clientStorageEnabled := default (clientStorageEnabled a) (s_clientStorageEnabled b);
         offlineModeEnabled := default (offlineModeEnabled a) (s_offlineModeEnabled b);
         encryptionEnabled := default (encryptionEnabled a) (s_encryptionEnabled b);
         backupEnabled := default (backupEnabled a) (s_backupEnabled b) |}
  end.

Definition spread_ui (a : UI) (b : option PartialUI) : UI :=
  match b with
  | None => a
  | Some b =>
      {| theme := default (theme a) (s_theme b);
         language := default (language a) (s_language b);
         density := default (density a) (s_density b) |}
  end.

(** private mergeWithDefaults(stored: any): ClientConfig.  The object it
    returns and the objects of its [providers], [preferredModels] and
    [features] properties are new; a provider the stored configuration
    does not have is the provider object of the defaults itself. *)
Definition mergeWithDefaults (stored : StoredConfig) (h : Heap) : ClientConfig * Heap :=
  let parsed := alloc_providers (default ∅ (s_providers stored)) (provider_objects h) in
  let preferred := fresh (preferredModels_objects h) in
  let features := fresh (features_objects h) in
  ({| providers := spread_object DEFAULT_PROVIDER_CONFIGS parsed.1;
      defaultProvider :=
        default EmptyString
          (or_else (s_defaultProvider stored) (defaultProvider DEFAULT_CONFIG));
      preferredModels := preferred;
      customSettings := default ∅ (s_user stored ≫= s_customSettings);
      c_features := features;
      ui := spread_ui (ui DEFAULT_CONFIG) (s_ui stored) |},
   {| provider_objects := parsed.2;
      preferredModels_objects :=
        <[preferred :=
            spread_object (preferredModels_of h (preferredModels DEFAULT_CONFIG))
              (default ∅ (s_user stored ≫= s_preferredModels))]>
          (preferredModels_objects h);
      features_objects :=
        <[features :=
            spread_features (features_of h (c_features DEFAULT_CONFIG))
              (s_features stored)]>
          (features_objects h) |}).

(** private loadConfig(): ClientConfig *)
Definition loadConfig (stored : option string) (h : Heap) : ClientConfig * Heap :=
  if truthy stored then
    match parse (default EmptyString stored) with
    | Some parsedConfig => mergeWithDefaults parsedConfig h
    | None => (DEFAULT_CONFIG, h) (* the catch; then [{ ...DEFAULT_CONFIG }] *)
    end
  else (DEFAULT_CONFIG, h).

(** constructor(), in a page whose heap is [h] and whose local storage
    holds [stored] *)
Definition new (stored : option string) (h : Heap) : State :=
  let r := loadConfig stored h in
  mkState r.1 r.2 stored.

(** getProvider(providerId): [this.config.providers[providerId]] *)
Definition getProvider (providerId : string) (s : State) : Property ProviderConfig :=
  match get (providers (config s)) providerId with
  | own l =>
      match provider_objects (heap s) !! l with
      | Some p => own p
      | None => absent
      end
  | inherited => inherited
  | absent => absent
  end.

(** getModelsForProvider(providerId); an inherited member has no [models],
    and the call of [filter] on it throws. *)
Definition getModelsForProvider (providerId : string) (s : State)
  : Completion (list ModelConfig) :=
  match getProvider providerId s with
  | own p => Return (filter (λ m, enabled m ≠ Some false) (models p))
  | inherited => Throw TypeError
  | absent => Return []
  end.

(** getModel(providerId, modelId) *)
Definition getModel (providerId modelId : string) (s : State)
  : Completion (option ModelConfig) :=
  match getProvider providerId s with
  | own p => Return (snd <$> list_find (λ m, id m = modelId) (models p))
  | inherited => Throw TypeError
  | absent => Return None
  end.

(** [provider?.defaultModel || provider?.models[0]?.id || ''] *)
Definition fallback_model (providerId : string) (s : State) : Completion string :=
  match getProvider providerId s with
  | own p =>
      Return
        (default EmptyString
           (or_else (defaultModel p)
              (default EmptyString (or_else (id <$> head (models p)) EmptyString))))
  | inherited => Throw TypeError (* [models] is undefined, [models[0]] throws *)
  | absent => Return EmptyString
  end.

(** getPreferredModel(providerId); [Return None] is an inherited member,
    returned where a model id is expected. *)
Definition getPreferredModel (providerId : string) (s : State)
  : Completion (option string) :=
  match get (preferredModels_of (heap s) (preferredModels (config s))) providerId with
  | inherited => Return None
  | own preferred =>
      if truthy (Some preferred) then Return (Some preferred)
      else
        match fallback_model providerId s with
        | Return m => Return (Some m)
        | Throw e => Throw e
        end
  | absent =>
      match fallback_model providerId s with
      | Return m => Return (Some m)
      | Throw e => Throw e
      end
  end.

(** setPreferredModel(providerId, modelId) *)
Definition setPreferredModel (providerId modelId : string) (s : State) : State :=
  let l := preferredModels (config s) in
  let h := heap s in
  saveConfig
    (set_heap
       (mkHeap (provider_objects h)
          (<[l := set (preferredModels_of h l) providerId modelId]>
             (preferredModels_objects h))
          (features_objects h))
       s).

Definition write_provider (l : loc) (p : ProviderConfig) (s : State) : State :=
  let h := heap s in
  set_heap
    (mkHeap (<[l := p]> (provider_objects h)) (preferredModels_objects h)
       (features_objects h))
    s.

(** addCustomModel(providerId, model) *)
Definition addCustomModel (providerId : string) (model : ModelConfig) (s : State)
  : Completion unit * State :=
  match get (providers (config s)) providerId with
  | absent => (Throw (Error ("Provider " ++ providerId ++ " not found")), s)
  | inherited => (Throw TypeError, s) (* [provider.models] is undefined *)
  | own l =>
      match provider_objects (heap s) !! l with
      | None => (Throw (Error ("Provider " ++ providerId ++ " not found")), s)
      | Some p =>
          let modelWithProvider := set_provider providerId model in
          (Return (),
           saveConfig
             (write_provider l (set_models (models p ++ [modelWithProvider])%list p) s))
      end
  end.

(** removeCustomModel(providerId, modelId) *)
Definition removeCustomModel (providerId modelId : string) (s : State)
  : Completion unit * State :=
  match get (providers (config s)) providerId with
  | absent => (Return (), s)
  | inherited => (Throw TypeError, s) (* [provider.models] is undefined *)
  | own l =>
      match provider_objects (heap s) !! l with
      | None => (Return (), s)
      | Some p =>
          (Return (),
           saveConfig
             (write_provider l
                (set_models (filter (λ m, id m ≠ modelId) (models p)) p) s))
      end
  end.

(** isFeatureEnabled(feature) *)
Definition isFeatureEnabled (feature : Feature) (s : State) : bool :=
  get_feature feature (features_of (heap s) (c_features (config s))).

(** toggleFeature(feature) *)
Definition toggleFeature (feature : Feature) (s : State) : State :=
  let l := c_features (config s) in
  let h := heap s in
  saveConfig
    (set_heap
       (mkHeap (provider_objects h) (preferredModels_objects h)
          (<[l := set_feature feature (negb (get_feature feature (features_of h l)))
                    (features_of h l)]>
             (features_objects h)))
       s).

(** getUISettings() *)
Definition getUISettings (s : State) : UI := ui (config s).

(** updateUISettings(settings) *)
Definition updateUISettings (settings : PartialUI) (s : State) : State :=
  let c := config s in
  saveConfig
    (set_config
       (mkClientConfig (providers c) (defaultProvider c) (preferredModels c)
          (customSettings c) (c_features c) (spread_ui (ui c) (Some settings)))
       s).

(** resetToDefaults(): [this.config = { ...DEFAULT_CONFIG }] *)
Definition resetToDefaults (s : State) : State :=
  saveConfig (set_config DEFAULT_CONFIG s).

(** exportConfig() *)
Definition exportConfig (s : State) : string :=
  stringify_indented (snapshot (heap s) (config s)).

(** importConfig(configJson) *)
Definition importConfig (configJson : string) (s : State) : Completion unit * State :=
  match parse configJson with
  | Some imported =>
      let r := mergeWithDefaults imported (heap s) in
      (Return (), saveConfig (mkState r.1 r.2 (localStorage s)))
  | None => (Throw (Error "Invalid configuration format"), s)
  end.

End manager.
End ClientConfigManager.

(** ** An executable host

    Closed instances of the host classes, to run the model on concrete
    inputs: a cipher with the shape of crypto-js' passphrase mode (a salted
    key, CBC chaining, here over one-byte blocks), UTF-8 decoding of ASCII,
    a JSON printer and reader for the two payloads, and the ISO 8601 dates
    [toISOString] writes. *)
Module Host.

Definition byte_add (a b : ascii) : ascii :=
  ascii_of_N ((N_of_ascii a + N_of_ascii b) mod 256).
Definition byte_sub (a b : ascii) : ascii :=
  ascii_of_N ((N_of_ascii a + 256 - N_of_ascii b) mod 256).
Definition byte_xor (a b : ascii) : ascii :=
  ascii_of_N (N.lxor (N_of_ascii a) (N_of_ascii b)).

Fixpoint byte_sum (s : string) : ascii :=
  match s with
  | EmptyString => zero
  | String c s' => byte_add c (byte_sum s')
  end.

(** CBC over one-byte blocks; the block cipher adds the key byte. *)
Fixpoint cbc_encrypt (k prev : ascii) (plain : string) : string :=
  match plain with
  | EmptyString => EmptyString
  | String p plain' =>
      let c := byte_add (byte_xor p prev) k in
      String c (cbc_encrypt k c plain')
  end.

Fixpoint cbc_decrypt (k prev : ascii) (cipher : string) : string :=
  match cipher with
  | EmptyString => EmptyString
  | String c cipher' => String (byte_xor (byte_sub c k) prev) (cbc_decrypt k c cipher')
  end.

(** The salt is the first four bytes of the cipher text, as the OpenSSL
    format of crypto-js carries it; key byte and first chaining byte are
    derived from passphrase and salt, the [iv] option is not used. *)
Definition salt_of (s : string) : string := substring 0 4 (s ++ "0000").

Definition aes_encrypt (message key iv salt : string) : string :=
  let salt := salt_of salt in
  salt ++ cbc_encrypt (byte_sum (key ++ salt)) (byte_sum salt) message.

Definition aes_decrypt (data key iv : string) : string :=
  let salt := salt_of data in
  cbc_decrypt (byte_sum (key ++ salt)) (byte_sum salt)
    (substring 4 (String.length data - 4) data).

Fixpoint is_ascii (s : string) : bool :=
  match s with
  | EmptyString => true
  | String c s' => (N_of_ascii c <? 128)%N && is_ascii s'
  end.

Definition utf8 (s : string) : option string := if is_ascii s then Some s else None.

(** A stand-in for the hash: the text behind a tag. *)
Definition sha256 (s : string) : string := "sha256:" ++ s.

#[export] Instance cryptojs : CryptoJS :=
  {| AES_encrypt := aes_encrypt;
     AES_decrypt := aes_decrypt;
     enc_Utf8 := utf8;
     SHA256 := sha256 |}.

(** *** JSON *)

#[local] Unset Elimination Schemes.
Inductive json : Type :=
| JString (s : string)
| JArray (l : list json)
| JObject (l : list (string * json)).
#[local] Set Elimination Schemes.

Definition quote : ascii := "034"%char.
Definition backslash : ascii := "092"%char.

Fixpoint escape (s : string) : string :=
  match s with
  | EmptyString => EmptyString
  | String c s' =>
      if bool_decide (c = quote) || bool_decide (c = backslash)
      then String backslash (String c (escape s'))
      else String c (escape s')
  end.

Definition print_string (s : string) : string :=
  String quote (escape s ++ String quote EmptyString).

Fixpoint join (sep : string) (l : list string) : string :=
  match l with
  | [] => EmptyString
  | [x] => x
  | x :: l' => x ++ sep ++ join sep l'
  end.

Fixpoint print (j : json) : string :=
  match j with
  | JString s => print_string s
  | JArray l => "[" ++ join "," (map print l) ++ "]"
  | JObject l =>
      "{" ++ join "," (map (λ kv, let '(k, v) := kv in print_string k ++ ":" ++ print v) l)
        ++ "}"
  end.

(** The characters of a string literal after its opening quote, and the
    rest of the input. *)
Fixpoint read_string (s : string) : option (string * string) :=
  match s with
  | EmptyString => None
  | String c s' =>
      if bool_decide (c = quote) then Some (EmptyString, s')
      else if bool_decide (c = backslash) then
        match s' with
        | String d s'' =>
            match read_string s'' with
            | Some (r, rest) => Some (String d r, rest)
            | None => None
            end
        | EmptyString => None
        end
      else
        match read_string s' with
        | Some (r, rest) => Some (String c r, rest)
        | None => None
        end
  end.

Inductive reading : Type := a_value | elements | members.
Inductive read : Type :=
| RValue (j : json)
| RElements (l : list json)
| RMembers (l : list (string * json)).

(** A recursive-descent reader; [elements] and [members] read the rest of
    an array or object after its opening bracket or after a comma. *)
Fixpoint read_json (fuel : nat) (what : reading) (s : string) : option (read * string) :=
  match fuel with
  | O => None
  | S fuel' =>
      match what, s with
      | a_value, String c s' =>
          if bool_decide (c = quote) then
            match read_string s' with
            | Some (r, rest) => Some (RValue (JString r), rest)
            | None => None
            end
          else if bool_decide (c = "["%char) then
            match s' with
            | String "]" rest => Some (RValue (JArray []), rest)
            | _ =>
                match read_json fuel' elements s' with
                | Some (RElements l, rest) => Some (RValue (JArray l), rest)
                | _ => None
                end
            end
          else if bool_decide (c = "{"%char) then
            match s' with
            | String "}" rest => Some (RValue (JObject []), rest)
            | _ =>
                match read_json fuel' members s' with
                | Some (RMembers l, rest) => Some (RValue (JObject l), rest)
                | _ => None
                end
            end
          else None
      | elements, _ =>
          match read_json fuel' a_value s with
          | Some (RValue v, String "," rest) =>
              match read_json fuel' elements rest with
              | Some (RElements l, rest') => Some (RElements (v :: l), rest')
              | _ => None
              end
          | Some (RValue v, String "]" rest) => Some (RElements [v], rest)
          | _ => None
          end
      | members, String c s' =>
          if bool_decide (c = quote) then
            match read_string s' with
            | Some (k, String ":" rest) =>
                match read_json fuel' a_value rest with
                | Some (RValue v, String "," rest') =>
                    match read_json fuel' members rest' with
                    | Some (RMembers l, rest'') => Some (RMembers ((k, v) :: l), rest'')
                    | _ => None
                    end
                | Some (RValue v, String "}" rest') => Some (RMembers [(k, v)], rest')
                | _ => None
                end
            | _ => None
            end
          else None
      | _, EmptyString => None
      end
  end.

Definition parse (s : string) : option json :=
  match read_json (S (String.length s)) a_value s with
  | Some (RValue j, EmptyString) => Some j
  | _ => None
  end.

Definition member (k : string) (v : option json) : list (string * json) :=
  match v with Some j => [(k, j)] | None => [] end.

Fixpoint get (k : string) (l : list (string * json)) : option json :=
  match l with
  | [] => None
  | (k', v) :: l' => if bool_decide (k = k') then Some v else get k l'
  end.

Definition get_string (k : string) (j : json) : option string :=
  match j with
  | JObject l => match get k l with Some (JString s) => Some s | _ => None end
  | _ => None
  end.

Definition part_to_json (p : string * string) : json :=
  JObject [("type", JString p.1); ("text", JString p.2)].

Definition part_of_json (j : json) : string * string :=
  (default EmptyString (get_string "type" j), default EmptyString (get_string "text" j)).

Definition get_parts (k : string) (j : json) : option (list (string * string)) :=
  match j with
  | JObject l => match get k l with Some (JArray ps) => Some (map part_of_json ps) | _ => None end
  | _ => None
  end.

#[export] Instance json_conversation : JSON TConversation.sensitive :=
  {| JSON_stringify d :=
       print (JObject (member "promptPrefix" (JString <$> TConversation.s_promptPrefix d)
                       ++ member "title" (JString <$> TConversation.s_title d)));
     JSON_parse s :=
       j ← parse s;
       Some {| TConversation.s_promptPrefix := get_string "promptPrefix" j;
               TConversation.s_title := get_string "title" j |} |}.

#[export] Instance json_message : JSON TMessage.sensitive :=
  {| JSON_stringify d :=
       print (JObject (member "text" (JString <$> TMessage.s_text d)
                       ++ member "content"
                            (JArray <$> (map part_to_json <$> TMessage.s_content d))));
     JSON_parse s :=
       j ← parse s;
       Some {| TMessage.s_text := get_string "text" j;
               TMessage.s_content := get_parts "content" j |} |}.

(** *** Dates: [YYYY-MM-DDTHH:MM:SS.sssZ] *)

Fixpoint digits (s : string) (acc : Z) : option Z :=
  match s with
  | EmptyString => Some acc
  | String c s' =>
      let n := N_of_ascii c in
      if ((48 <=? n) && (n <=? 57))%N then digits s' (10 * acc + Z.of_N n - 48)%Z
      else None
  end.

Definition field (from len : nat) (s : string) : option Z :=
  digits (substring from len s) 0%Z.

Definition days_from_civil (y m d : Z) : Z :=
  let y := (if m <=? 2 then y - 1 else y)%Z in
  let era := (y / 400)%Z in
  let yoe := (y - era * 400)%Z in
  let doy := ((153 * (if m >? 2 then m - 3 else m + 9) + 2) / 5 + d - 1)%Z in
  let doe := (yoe * 365 + yoe / 4 - yoe / 100 + doy)%Z in
  (era * 146097 + doe - 719468)%Z.

Definition getTime (s : string) : option Z :=
  if bool_decide (String.length s = 24%nat)
     && bool_decide (substring 4 1 s = "-") && bool_decide (substring 7 1 s = "-")
     && bool_decide (substring 10 1 s = "T") && bool_decide (substring 13 1 s = ":")
     && bool_decide (substring 16 1 s = ":") && bool_decide (substring 19 1 s = ".")
     && bool_decide (substring 23 1 s = "Z")
  then
    y ← field 0 4 s; m ← field 5 2 s; d ← field 8 2 s;
    hh ← field 11 2 s; mm ← field 14 2 s; ss ← field 17 2 s; ms ← field 20 3 s;
    if ((1 <=? m) && (m <=? 12) && (1 <=? d) && (d <=? 31)
        && (hh <=? 23) && (mm <=? 59) && (ss <=? 59))%Z
    then Some ((((days_from_civil y m d * 24 + hh) * 60 + mm) * 60 + ss) * 1000 + ms)%Z
    else None
  else None.

#[export] Instance jsdate : JSDate := {| Date_getTime := getTime |}.

End Host.

(** ** Concrete stores *)
Module Scenario.
Import Host.

Definition at_time (t : Z) : Ambient :=
  {| now := t; now_encrypt := t + 1; now_encryptedAt := t + 2;
     now_iso := "2024-02-01T00:00:00.000Z";
     random_iv := "00112233445566778899aabbccddeeff";
     random_salt := "salt" |}.

Definition conversation (id : option string) (title updatedAt : string) : TConversation.t :=
  {| TConversation.conversationId := id;
     TConversation.title := Some title;
     TConversation.promptPrefix := None;
     TConversation.endpoint := Some "openAI";
     TConversation.model := Some "gpt-4";
     TConversation.createdAt := Some updatedAt;
     TConversation.updatedAt := Some updatedAt;
     TConversation.encryptedData := None;
     TConversation.encryptedAt := None;
     TConversation.lastAccessed := None;
     TConversation.syncStatus := None |}.

Definition message (id conversationId text createdAt : string) : TMessage.t :=
  {| TMessage.messageId := id;
     TMessage.conversationId := Some conversationId;
     TMessage.parentMessageId := None;
     TMessage.isCreatedByUser := true;
     TMessage.text := Some text;
     TMessage.content := None;
     TMessage.createdAt := Some createdAt;
     TMessage.encryptedData := None;
     TMessage.encryptedAt := None;
     TMessage.syncStatus := None |}.

Definition settings_with (enabled : bool) (max : Z) : StorageSettings :=
  {| encryptionEnabled := enabled;
     backupEnabled := true;
     masterKeyHash := Some (SHA256 "k3y");
     lastBackup := None;
     maxStorageSize := Some max |}.

(** An initialized instance on a database that holds only the settings. *)
Definition started (enabled : bool) (key : option string) : ClientStorage :=
  updateSettings (at_time 0) (settings_with enabled (100 * 1024 * 1024))
    (mkClientStorage empty_IDB key).

Definition store_conversations (l : list TConversation.t) (this : ClientStorage)
  : ClientStorage :=
  (import_conversations (λ i, at_time (1000 + Z.of_nat i)) 0 l this).2.

Definition store_messages (l : list TMessage.t) (this : ClientStorage) : ClientStorage :=
  (import_messages (λ i, at_time (2000 + Z.of_nat i)) 0 l this).2.

(** Three conversations, [a] the most recently updated. *)
Definition a := conversation (Some "a") "first" "2024-01-03T00:00:00.000Z".
Definition b := conversation (Some "b") "second" "2024-01-02T00:00:00.000Z".
Definition c := conversation (Some "c") "third" "2024-01-01T00:00:00.000Z".
Definition three : ClientStorage := store_conversations [a; b; c] (started true (Some "k3y")).

Definition page_size (n : Z) : ListOptions :=
  {| cursor := None; limit := Some n; sortBy := None; sortOrder := None |}.

(** Scenario A. *)
Definition c1 := conversation (Some "c1") "Hello" "2024-01-01T00:00:00.000Z".
Definition m1 := message "m1" "c1" "hi" "2024-01-01T00:00:01.000Z".
Definition m2 := message "m2" "c1" "there" "2024-01-01T00:00:02.000Z".
Definition scenario_A : ClientStorage :=
  store_messages [m1; m2] (store_conversations [c1] (started true (Some "k3y"))).

(** Flipping the lowest bit of byte [i] of a string. *)
Fixpoint flip_byte (i : nat) (s : string) : string :=
  match s, i with
  | EmptyString, _ => EmptyString
  | String c s', O => String (ascii_of_N (N.lxor (N_of_ascii c) 1)) s'
  | String c s', S i' => String c (flip_byte i' s')
  end.

Definition tamper (i : nat) (blob : EncryptedData) : EncryptedData :=
  {| data := flip_byte i (data blob); iv := iv blob; timestamp := timestamp blob |}.

(** Scenario C: the stored cipher text of [m1] is corrupted. *)
Definition corrupt_message (i : nat) (id : string) (this : ClientStorage) : ClientStorage :=
  with_db
    (with_messages
       (alter (λ m, TMessage.set_encryptedData (tamper i <$> TMessage.encryptedData m) m)
          id (messages (db this)))
       (db this))
    this.

Definition scenario_C : ClientStorage := corrupt_message 10 "m1" scenario_A.

(** The payload of Scenario B and its blob. *)
Definition secret : TConversation.sensitive :=
  {| TConversation.s_promptPrefix := None; TConversation.s_title := Some "secret" |}.

Definition secret_blob : EncryptedData :=
  Eval vm_compute in
    match encrypt (Some "k3y") (at_time 1000) secret with
    | Return blob => blob
    | Throw _ => mkEncryptedData EmptyString EmptyString 0
    end.

(** Scenario D: two conversations, an estimated 2000 bytes, and a limit of
    1000. *)
Definition over_quota : ClientStorage :=
  updateSettings (at_time 3000) (settings_with false 1000)
    (store_conversations [a; b] (started false None)).

(** A snapshot whose first conversation has no id. *)
Definition no_id := conversation None "lost" "2024-01-04T00:00:00.000Z".
Definition snapshot : Backup :=
  {| b_conversations := [no_id; c1];
     b_messages := [m1];
     b_settings := None;
     exportDate := None |}.

(** A host on which only the first [openDB] resolves, and one on which the
    first two do. *)
Definition first_open_only (n : nat) : bool := bool_decide (n = 0).
Definition first_two_opens (n : nat) : bool := bool_decide (n < 2).
Definition fresh_key (n : nat) : string := "4f0c".
Definition iso (n : nat) : string := "2024-02-01T00:00:00.000Z".

(** A second session on a database whose settings say enabled. *)
Definition restarted : option (Completion unit * Session) :=
  initializeStorage first_open_only fresh_key iso 2
    (new_ClientStorage (db (started true None)) (Some "k3y")).

Definition keyless : ClientStorage :=
  match restarted with
  | Some (_, s) => this s
  | None => mkClientStorage empty_IDB None
  end.

Definition first_run : Session :=
  Eval vm_compute in
    match initializeStorage first_two_opens fresh_key iso 3
            (new_ClientStorage empty_IDB None) with
    | Some (_, s) => s
    | None => new_ClientStorage empty_IDB None
    end.

Definition entry_b : entry TConversation.t :=
  Eval vm_compute in
    default (KString EmptyString, EmptyString, b)
      (openCursor (index_of (keyPath_of by_updatedAt) (conversations (db three))) prev
       !! 1).

Definition raw (id : string) (this : ClientStorage) : TMessage.t :=
  default m1 (messages (db this) !! id).

Definition blob_of (m : TMessage.t) : EncryptedData :=
  default (mkEncryptedData EmptyString EmptyString 0) (TMessage.encryptedData m).

(** An instance whose initialization has returned, on the store [this]. *)
Definition ready (storage : ClientStorage) : Session :=
  {| this := storage;
     connected := true;
     isInitialized := true;
     librechat_master_key := None;
     steps := 0 |}.

(** Three messages of [c1] whose ids run against their dates. *)
Definition n1 := message "n1" "c1" "third" "2024-01-01T00:00:03.000Z".
Definition n2 := message "n2" "c1" "first" "2024-01-01T00:00:01.000Z".
Definition n3 := message "n3" "c1" "second" "2024-01-01T00:00:02.000Z".
Definition out_of_order : ClientStorage :=
  store_messages [n1; n2; n3] (store_conversations [c1] (started true (Some "k3y"))).

(** The same with a [createdAt] that is no date on the second message. *)
Definition undated : ClientStorage :=
  store_messages [n1; message "n2" "c1" "first" "garbage"; n3]
    (store_conversations [c1] (started true (Some "k3y"))).

(** Scenario A with the cipher text of [m1] overwritten by that of [m2]. *)
Definition misplaced : ClientStorage :=
  with_db
    (with_messages
       (alter (TMessage.set_encryptedData (TMessage.encryptedData (raw "m2" scenario_A)))
          "m1" (messages (db scenario_A)))
       (db scenario_A))
    scenario_A.

(** A second session on the database of Scenario A.  The first session did
    not write its key to the local storage, so the item is missing and
    [initializeEncryption] makes a new key. *)
Definition second_session : Session :=
  Eval vm_compute in
    match initializeStorage first_two_opens fresh_key iso 3
            (new_ClientStorage (db scenario_A) None) with
    | Some (_, s) => s
    | None => new_ClientStorage empty_IDB None
    end.

Definition reimported_second : Completion unit * ClientStorage :=
  Eval vm_compute in
    importData (λ i, at_time (5000 + Z.of_nat i))
      (exportData (at_time 4000) (this second_session)) (this second_session).

End Scenario.


(** ** The executable host, continued

    Closed instances of the other host classes: the two ids of the data
    service, the messages of the host's errors, a browser that reads every
    file, and JSON for a backup and for a configuration.  This JSON is
    built on the reader and printer of [Host], which know strings, arrays
    and objects: a number and a boolean are written as strings. *)
Module Browser.
Import Host.

#[export] Instance constants : Constants :=
  {| NEW_CONVO := "new"; PENDING_CONVO := "PENDING" |}.

#[export] Instance error_messages : ErrorMessages :=
  {| host_message e :=
       match e with
       | SyntaxError => "Unexpected end of JSON input"
       | DataError => "Data provided to an operation does not meet requirements."
       | OpenDBError => "The operation failed for reasons unrelated to the database itself."
       | TypeError => "Cannot read properties of undefined"
       | _ => EmptyString
       end |}.

#[export] Instance file_host : ClientFileProcessor.FileHost :=
  {| ClientFileProcessor.processImage _ file :=
       Return ("data:" ++ ClientFileProcessor.type file ++ ";base64,AAAA", None);
     ClientFileProcessor.processDocument file := Return "text" |}.

(** *** Numbers and booleans *)

Definition number (z : Z) : json := JString (pretty z).

Definition read_number (j : json) : option Z :=
  match j with
  | JString (String "-" s) => Z.opp <$> digits s 0%Z
  | JString s => digits s 0%Z
  | _ => None
  end.

Definition boolean (b : bool) : json := JString (if b then "true" else "false").

Definition read_boolean (j : json) : option bool :=
  match j with
  | JString s => Some (bool_decide (s = "true"))
  | _ => None
  end.

Definition get_member (k : string) (j : json) : option json :=
  match j with
  | JObject l => get k l
  | _ => None
  end.

(** *** A backup *)

Definition status_name (s : SyncStatus) : string :=
  match s with
  | local => "local"
  | synced => "synced"
  | conflict => "conflict"
  end.

Definition read_status (s : string) : option SyncStatus :=
  if bool_decide (s = "local") then Some local
  else if bool_decide (s = "synced") then Some synced
  else if bool_decide (s = "conflict") then Some conflict
  else None.

Definition blob_to_json (b : EncryptedData) : json :=
  JObject [("data", JString (data b)); ("iv", JString (iv b));
           ("timestamp", number (timestamp b))].

Definition blob_of_json (j : json) : option EncryptedData :=
  d ← get_string "data" j; i ← get_string "iv" j;
  t ← get_member "timestamp" j ≫= read_number;
  Some (mkEncryptedData d i t).

Definition conversation_to_json (c : TConversation.t) : json :=
  JObject
    (member "conversationId" (JString <$> TConversation.conversationId c)
     ++ member "title" (JString <$> TConversation.title c)
     ++ member "promptPrefix" (JString <$> TConversation.promptPrefix c)
     ++ member "endpoint" (JString <$> TConversation.endpoint c)
     ++ member "model" (JString <$> TConversation.model c)
     ++ member "createdAt" (JString <$> TConversation.createdAt c)
     ++ member "updatedAt" (JString <$> TConversation.updatedAt c)
     ++ member "encryptedData" (blob_to_json <$> TConversation.encryptedData c)
     ++ member "encryptedAt" (number <$> TConversation.encryptedAt c)
     ++ member "lastAccessed" (number <$> TConversation.lastAccessed c)
     ++ member "syncStatus"
          (JString <$> (status_name <$> TConversation.syncStatus c)))%list.

Definition conversation_of_json (j : json) : TConversation.t :=
  {| TConversation.conversationId := get_string "conversationId" j;
     TConversation.title := get_string "title" j;
     TConversation.promptPrefix := get_string "promptPrefix" j;
     TConversation.endpoint := get_string "endpoint" j;
     TConversation.model := get_string "model" j;
     TConversation.createdAt := get_string "createdAt" j;
     TConversation.updatedAt := get_string "updatedAt" j;
     TConversation.encryptedData := get_member "encryptedData" j ≫= blob_of_json;
     TConversation.encryptedAt := get_member "encryptedAt" j ≫= read_number;
     TConversation.lastAccessed := get_member "lastAccessed" j ≫= read_number;
     TConversation.syncStatus := get_string "syncStatus" j ≫= read_status |}.

Definition message_to_json (m : TMessage.t) : json :=
  JObject
    ([("messageId", JString (TMessage.messageId m))]
     ++ member "conversationId" (JString <$> TMessage.conversationId m)
     ++ member "parentMessageId" (JString <$> TMessage.parentMessageId m)
     ++ [("isCreatedByUser", boolean (TMessage.isCreatedByUser m))]
     ++ member "text" (JString <$> TMessage.text m)
     ++ member "content" (JArray <$> (map part_to_json <$> TMessage.content m))
     ++ member "createdAt" (JString <$> TMessage.createdAt m)
     ++ member "encryptedData" (blob_to_json <$> TMessage.encryptedData m)
     ++ member "encryptedAt" (number <$> TMessage.encryptedAt m)
     ++ member "syncStatus" (JString <$> (status_name <$> TMessage.syncStatus m)))%list.

Definition message_of_json (j : json) : TMessage.t :=
  {| TMessage.messageId := default EmptyString (get_string "messageId" j);
     TMessage.conversationId := get_string "conversationId" j;
     TMessage.parentMessageId := get_string "parentMessageId" j;
     TMessage.isCreatedByUser :=
       default false (get_member "isCreatedByUser" j ≫= read_boolean);
     TMessage.text := get_string "text" j;
     TMessage.content := get_parts "content" j;
     TMessage.createdAt := get_string "createdAt" j;
     TMessage.encryptedData := get_member "encryptedData" j ≫= blob_of_json;
     TMessage.encryptedAt := get_member "encryptedAt" j ≫= read_number;
     TMessage.syncStatus := get_string "syncStatus" j ≫= read_status |}.

Definition settings_to_json (s : StorageSettings) : json :=
  JObject
    ([("encryptionEnabled", boolean (encryptionEnabled s));
      ("backupEnabled", boolean (backupEnabled s))]
     ++ member "masterKeyHash" (JString <$> masterKeyHash s)
     ++ member "lastBackup" (number <$> lastBackup s)
     ++ member "maxStorageSize" (number <$> maxStorageSize s))%list.

Definition settings_of_json (j : json) : StorageSettings :=
  {| encryptionEnabled := default false (get_member "encryptionEnabled" j ≫= read_boolean);
     backupEnabled := default false (get_member "backupEnabled" j ≫= read_boolean);
     masterKeyHash := get_string "masterKeyHash" j;
     lastBackup := get_member "lastBackup" j ≫= read_number;
     maxStorageSize := get_member "maxStorageSize" j ≫= read_number |}.

Definition get_array (k : string) (j : json) : list json :=
  match get_member k j with
  | Some (JArray l) => l
  | _ => []
  end.

#[export] Instance json_backup : JSON BackupData :=
  {| JSON_stringify d :=
       print
         (JObject
            ([("conversations",
               JArray (map conversation_to_json (b_conversations (localData d))));
              ("messages", JArray (map message_to_json (b_messages (localData d))))]
             ++ member "settings" (settings_to_json <$> b_settings (localData d))
             ++ member "exportDate" (JString <$> exportDate (localData d))
             ++ [("version", JString (version d))])%list);
     JSON_parse s :=
       j ← parse s;
       Some {| localData :=
                 {| b_conversations := map conversation_of_json (get_array "conversations" j);
                    b_messages := map message_of_json (get_array "messages" j);
                    b_settings := settings_of_json <$> get_member "settings" j;
                    exportDate := get_string "exportDate" j |};
               version := default EmptyString (get_string "version" j) |} |}.

(** *** A configuration: this host writes and reads everything but the
    providers. *)

Definition object_to_json (o : gmap string string) : json :=
  JObject (map (λ kv : string * string, (kv.1, JString kv.2)) (map_to_list o)).

Definition object_of_json (j : json) : gmap string string :=
  match j with
  | JObject l =>
      list_to_map
        (omap (λ kv : string * json,
                 match kv.2 with JString s => Some (kv.1, s) | _ => None end) l)
  | _ => ∅
  end.

Definition config_to_json (v : ClientConfigManager.ConfigValue) : json :=
  JObject
    [("defaultProvider", JString (ClientConfigManager.v_defaultProvider v));
     ("user",
      JObject
        [("preferredModels", object_to_json (ClientConfigManager.v_preferredModels v));
         ("customSettings", object_to_json (ClientConfigManager.v_customSettings v))]);
     ("features",
      JObject
        [("clientStorageEnabled",
          boolean (ClientConfigManager.clientStorageEnabled
                     (ClientConfigManager.v_features v)));
         ("offlineModeEnabled",
          boolean (ClientConfigManager.offlineModeEnabled
                     (ClientConfigManager.v_features v)));
         ("encryptionEnabled",
          boolean (ClientConfigManager.encryptionEnabled
                     (ClientConfigManager.v_features v)));
         ("backupEnabled",
          boolean (ClientConfigManager.backupEnabled
                     (ClientConfigManager.v_features v)))]);
     ("ui",
      JObject
        [("theme", JString (ClientConfigManager.theme (ClientConfigManager.v_ui v)));
         ("language", JString (ClientConfigManager.language (ClientConfigManager.v_ui v)));
         ("density", JString (ClientConfigManager.density (ClientConfigManager.v_ui v)))])].

Definition config_of_json (j : json) : ClientConfigManager.StoredConfig :=
  {| ClientConfigManager.s_providers := None;
     ClientConfigManager.s_defaultProvider := get_string "defaultProvider" j;
     ClientConfigManager.s_user :=
       (λ u, {| ClientConfigManager.s_preferredModels :=
                  object_of_json <$> get_member "preferredModels" u;
                ClientConfigManager.s_customSettings :=
                  object_of_json <$> get_member "customSettings" u |})
         <$> get_member "user" j;
     ClientConfigManager.s_features :=
       (λ f, {| ClientConfigManager.s_clientStorageEnabled :=
                  get_member "clientStorageEnabled" f ≫= read_boolean;
                ClientConfigManager.s_offlineModeEnabled :=
                  get_member "offlineModeEnabled" f ≫= read_boolean;
                ClientConfigManager.s_encryptionEnabled :=
                  get_member "encryptionEnabled" f ≫= read_boolean;
                ClientConfigManager.s_backupEnabled :=
                  get_member "backupEnabled" f ≫= read_boolean |})
         <$> get_member "features" j;
     ClientConfigManager.s_ui :=
       (λ u, {| ClientConfigManager.s_theme := get_string "theme" u;
                ClientConfigManager.s_language := get_string "language" u;
                ClientConfigManager.s_density := get_string "density" u |})
         <$> get_member "ui" j |}.

#[export] Instance config_json : ClientConfigManager.ConfigJSON :=
  {| ClientConfigManager.stringify v := print (config_to_json v);
     ClientConfigManager.stringify_indented v := print (config_to_json v);
     ClientConfigManager.parse s := config_of_json <$> parse s |}.

End Browser.

(** ** Concrete inputs, continued *)
Module Examples.
Import Host Scenario Browser.

(** A session on the store of Scenario A. *)
Definition session_A : Session :=
  {| this := scenario_A;
     connected := true;
     isInitialized := true;
     librechat_master_key := Some "k3y";
     steps := 0 |}.

(** The backup of Scenario A. *)
Definition backup_A : BackupData :=
  mkBackupData (exportData (at_time 4000) scenario_A) "1.0.0".

(** A message that belongs to no stored conversation. *)
Definition orphan := message "m9" "c9" "lost" "2024-01-01T00:00:03.000Z".

(** A snapshot whose settings say that encryption is off. *)
Definition plain_snapshot : Backup :=
  {| b_conversations := [c1];
     b_messages := [m1];
     b_settings := Some (settings_with false 1000);
     exportDate := None |}.

(** Files. *)
Definition photo : ClientFileProcessor.File :=
  ClientFileProcessor.mkFile "photo.png" 2048 "image/png".
Definition archive : ClientFileProcessor.File :=
  ClientFileProcessor.mkFile "backup.zip" 2048 "application/zip".
Definition no_options : ClientFileProcessor.FileProcessingOptions :=
  ClientFileProcessor.mkFileProcessingOptions None None None None None.

(** A manager in a page without a stored configuration, and a custom
    model. *)
Definition manager : ClientConfigManager.State :=
  ClientConfigManager.new None ClientConfigManager.initial_heap.

Definition custom : ClientConfigManager.ModelConfig :=
  ClientConfigManager.mkModelConfig "gpt-4o" "My GPT" EmptyString None None None
    ClientConfigManager.all_features None None None.

(** A stored configuration that sets one feature and the theme. *)
Definition stored_text : string :=
  Eval vm_compute in
    print (JObject [("features", JObject [("backupEnabled", boolean true)]);
                    ("ui", JObject [("theme", JString "dark")])]).

Definition stored_config : ClientConfigManager.StoredConfig :=
  Eval vm_compute in
    default (ClientConfigManager.mkStoredConfig None None None None None)
      (ClientConfigManager.parse stored_text).

End Examples.

(** ** Notions the properties are stated with *)

(** Sorting by a numeric key. *)
Definition key_after {A} (key : A → Z) (x y : A) : bool := (key y <? key x)%Z.
Definition key_le {A} (key : A → Z) (x y : A) : Prop := (key x ≤ key y)%Z.

(** The invariant of an object store with a key path: a record is stored
    under the value of its key path. *)
Definition keyed (this : ClientStorage) : Prop :=
  map_Forall (λ k c, TConversation.conversationId c = Some k) (conversations (db this))
  ∧ map_Forall (λ k m, TMessage.messageId m = k) (messages (db this)).

Definition set_maxStorageSize (n : option Z) (s : StorageSettings) : StorageSettings :=
  {| encryptionEnabled := encryptionEnabled s;
     backupEnabled := backupEnabled s;
     masterKeyHash := masterKeyHash s;
     lastBackup := lastBackup s;
     maxStorageSize := n |}.

(** Where a page that was given a cursor starts: after the first entry
    whose id is the cursor. *)
Fixpoint after_cursor (c : string) (rest : list (entry TConversation.t))
  : list (entry TConversation.t) :=
  match rest with
  | [] => []
  | e :: rest' =>
      if bool_decide (TConversation.conversationId e.2 = Some c) then rest'
      else after_cursor c rest'
  end.

(** The entries the pages hold when each page takes [n] entries and the
    next one starts after the entry the cursor stopped on. *)
Fixpoint visited_pages (fuel n : nat) (visit : list (entry TConversation.t))
  : list (list (entry TConversation.t)) :=
  match fuel with
  | O => []
  | S fuel' =>
      take n visit ::
        match visit !! n with
        | Some _ => visited_pages fuel' n (drop (S n) visit)
        | None => []
        end
  end.

Section notions.
Context `{CryptoJS} `{JSDate}.

(** The date a message was created: its [createdAt] field as the host's
    [Date] reads it; none when the field is missing or is no date. *)
Definition createdAt_date (m : TMessage.t) : option Z :=
  TMessage.createdAt m ≫= Date_getTime.

(** [a] is created no later than [b]: both have a date, and that of [a] is
    not the later one. *)
Definition createdAt_le (a b : TMessage.t) : Prop :=
  ∃ x y, createdAt_date a = Some x ∧ createdAt_date b = Some y ∧ (x ≤ y)%Z.

(** The host gives the payload back: the cipher returns the text it was
    given under the same key, and JSON reads back what it printed. *)
Definition round_trips {A} `{JSON A} (key : option string) (amb : Ambient) (x : A) : Prop :=
  let k := default EmptyString key in
  enc_Utf8
    (AES_decrypt (AES_encrypt (JSON_stringify x) k (random_iv amb) (random_salt amb))
       k (random_iv amb))
  = Some (JSON_stringify x)
  ∧ JSON_parse (JSON_stringify x) = Some x.

End notions.

(** The order of a listing: by the sort key, ascending or descending. *)
Definition key_order (o : SortOrder) (k1 k2 : IDBKey) : bool :=
  match o with
  | asc => IDBKey_leb k1 k2
  | desc => IDBKey_leb k2 k1
  end.

(** [c1] may come before [c2] in a listing sorted by [s] in order [o]. *)
Definition in_order (s : SortBy) (o : SortOrder) (c1 c2 : TConversation.t) : Prop :=
  ∃ k1 k2, keyPath_of s c1 = Some k1 ∧ keyPath_of s c2 = Some k2
           ∧ key_order o k1 k2 = true.

(** What a store call adds to a conversation, and a read to that. *)
Definition stamped (amb amb' : Ambient) (c : TConversation.t) : TConversation.t :=
  TConversation.set_lastAccessed (Some (now amb'))
    (TConversation.set_syncStatus (Some local)
       (TConversation.set_updatedAt
          (or_else (TConversation.updatedAt c) (now_iso amb)) c)).

Definition stamped_message (amb : Ambient) (m : TMessage.t) : TMessage.t :=
  TMessage.set_createdAt (or_else (TMessage.createdAt m) (now_iso amb))
    (TMessage.set_syncStatus (Some local) m).

(** * Properties *)

(** ** Sorting and indexes *)

Section sorting.
Context {A : Type}.
Implicit Types (after : A → A → bool) (l : list A).

Lemma insert_by_perm after x l : insert_by after x l ≡ₚ x :: l.
Proof.
  induction l as [|y l IH]; simpl; [done|].
  destruct (after x y); [|done].
  rewrite IH. apply Permutation_swap.
Qed.

Lemma sort_by_cons after x l :
  sort_by after (x :: l) = insert_by after x (sort_by after l).
Proof. reflexivity. Qed.

Lemma sort_by_perm after l : sort_by after l ≡ₚ l.
Proof.
  induction l as [|x l IH]; [done|].
  rewrite sort_by_cons, insert_by_perm. by rewrite IH.
Qed.

Lemma elem_of_sort_by after l x : x ∈ sort_by after l ↔ x ∈ l.
Proof. by rewrite sort_by_perm. Qed.

Lemma sort_by_nil after : sort_by after [] = [].
Proof. reflexivity. Qed.

(** Two tests that agree on the elements of the list sort it alike. *)
Lemma insert_by_ext after1 after2 x l :
  (∀ y, y ∈ l → after1 x y = after2 x y) →
  insert_by after1 x l = insert_by after2 x l.
Proof.
  induction l as [|y l IH]; intros Hext; simpl; [done|].
  rewrite Hext by left. rewrite IH; [done|].
  intros z Hz. apply Hext. by right.
Qed.

Lemma sort_by_ext after1 after2 l :
  (∀ x y, x ∈ l → y ∈ l → after1 x y = after2 x y) →
  sort_by after1 l = sort_by after2 l.
Proof.
  induction l as [|x l IH]; intros Hext; [done|].
  rewrite !sort_by_cons, IH.
  - apply insert_by_ext. intros y Hy%elem_of_sort_by.
    apply Hext; [left|by right].
  - intros a b Ha Hb. apply Hext; by right.
Qed.

(** Sorting by a numeric key: the result ascends. *)
Variable key : A → Z.
#[local] Abbreviation key_after := (key_after key).
#[local] Abbreviation key_le := (key_le key).

Lemma insert_by_key_sorted x l :
  Sorted key_le l → Sorted key_le (insert_by key_after x l).
Proof.
  induction 1 as [|y l Hl IH Hhd]; simpl.
  - by repeat constructor.
  - unfold key_after at 1. destruct (Z.ltb_spec (key y) (key x)) as [Hlt|Hge].
    + constructor; [done|].
      destruct l as [|z l]; simpl in *.
      * constructor. unfold key_le. lia.
      * unfold key_after at 1.
        destruct (Z.ltb_spec (key z) (key x)).
        -- constructor. by inversion Hhd.
        -- constructor. unfold key_le. lia.
    + constructor; [by constructor|]. by constructor.
Qed.

Lemma sort_by_key_sorted l : Sorted key_le (sort_by key_after l).
Proof.
  induction l as [|x l IH]; [constructor|].
  rewrite sort_by_cons. by apply insert_by_key_sorted.
Qed.

End sorting.

Section indexes.
Context {A : Type}.
Implicit Types (keyPath : A → option IDBKey) (store : gmap string A).

(** An index holds exactly the records of the store that have an index
    key, each under its primary key. *)
Lemma elem_of_index_of keyPath store (e : entry A) :
  e ∈ index_of keyPath store ↔
  store !! e.1.2 = Some e.2 ∧ keyPath e.2 = Some e.1.1.
Proof.
  unfold index_of. rewrite elem_of_sort_by, list_elem_of_omap. split.
  - intros [[k v] [Hin Hsome]]. apply elem_of_map_to_list in Hin. simpl in *.
    destruct (keyPath v) as [ik|] eqn:Hk; simplify_eq/=. by rewrite Hk.
  - destruct e as [[ik k] v]. simpl. intros [Hlook Hk].
    exists (k, v). split; [by apply elem_of_map_to_list|].
    simpl. by rewrite Hk.
Qed.

Lemma elem_of_openCursor_only (idx : list (entry A)) k e :
  e ∈ openCursor_only idx k ↔ e.1.1 = k ∧ e ∈ idx.
Proof. unfold openCursor_only. by rewrite list_elem_of_filter. Qed.

Lemma elem_of_openCursor (idx : list (entry A)) d e :
  e ∈ openCursor idx d ↔ e ∈ idx.
Proof. destruct d; simpl; [done|]. apply elem_of_reverse. Qed.

(** An index holds a primary key once. *)
Lemma NoDup_index_of_keys keyPath store :
  NoDup ((λ e : entry A, e.1.2) <$> index_of keyPath store).
Proof.
  unfold index_of. rewrite sort_by_perm.
  pose proof (NoDup_fst_map_to_list store) as Hkeys.
  induction (map_to_list store) as [|[k v] l IH]; [constructor|].
  rewrite fmap_cons in Hkeys. apply NoDup_cons in Hkeys as [Hk Hkeys].
  simpl. destruct (keyPath v); simpl; [|by apply IH].
  apply NoDup_cons. split; [|by apply IH].
  intros ([[ik k'] v'] & -> & Hin)%list_elem_of_fmap.
  apply list_elem_of_omap in Hin as ([k'' v''] & Hin & Hsome). simpl in *.
  destruct (keyPath v''); simplify_eq/=.
  destruct Hk. apply list_elem_of_fmap. by exists (k', v').
Qed.

Lemma NoDup_index_of keyPath store : NoDup (index_of keyPath store).
Proof. eapply NoDup_fmap_1, NoDup_index_of_keys. Qed.

(** Deleting at each visited entry removes exactly the visited keys. *)
Lemma lookup_foldl_delete (visit : list (entry A)) store k :
  foldl (λ store e, delete e.1.2 store) store visit !! k =
  if decide (k ∈ (λ e : entry A, e.1.2) <$> visit) then None else store !! k.
Proof.
  revert store. induction visit as [|e visit IH]; intros store.
  - destruct (decide _) as [Hin|_]; [|done]. by apply elem_of_nil in Hin.
  - rewrite fmap_cons. cbn [foldl]. rewrite IH.
    destruct (decide (k = e.1.2)) as [->|Hne].
    + rewrite lookup_delete_eq.
      destruct (decide (e.1.2 ∈ e.1.2 :: _)) as [_|[]]; [|left].
      by destruct (decide _).
    + rewrite lookup_delete_ne by done.
      destruct (decide (k ∈ _ <$> visit)) as [Hin|Hnin];
        destruct (decide _) as [Hin'|Hnin']; try done.
      * destruct Hnin'. by right.
      * by apply elem_of_cons in Hin' as [?|?].
Qed.

End indexes.

(** ** The stores *)

(** The two outcomes of a store call: the record was encrypted, or it is
    stored as it came (flag off, no key, or [encrypt] threw). *)
Ltac encrypt_cases :=
  match goal with
  | |- context [storedConversation_of _ _ _] => unfold storedConversation_of
  | |- context [storedMessage_of _ _ _] => unfold storedMessage_of
  end;
  destruct (_ && _); [destruct (encrypt _ _ _)|].

Section properties.
Context `{CryptoJS} `{JSDate} `{JSON TConversation.sensitive} `{JSON TMessage.sensitive}.
Implicit Types (this : ClientStorage) (id : string).

(** The cursor over [IDBKeyRange.only(id)] visits exactly the stored
    messages whose [conversationId] is [id]. *)
Lemma elem_of_messages_by_conversation this id (e : entry TMessage.t) :
  e ∈ messages_by_conversation this id ↔
  messages (db this) !! e.1.2 = Some e.2
  ∧ TMessage.conversationId e.2 = Some id ∧ e.1.1 = KString id.
Proof.
  unfold messages_by_conversation.
  rewrite elem_of_openCursor_only, elem_of_index_of.
  destruct e as [[ik k] m]; simpl. split.
  - intros (-> & Hlook & Hkey). split_and!; [done| |done].
    destruct (TMessage.conversationId m); by simplify_eq/=.
  - intros (Hlook & Hconv & ->). split_and!; [done..|]. by rewrite Hconv.
Qed.

Lemma messages_by_conversation_visits this id k m :
  messages (db this) !! k = Some m → TMessage.conversationId m = Some id →
  (KString id, k, m) ∈ messages_by_conversation this id.
Proof. intros. by apply elem_of_messages_by_conversation. Qed.

(** The messages store after [deleteConversation]. *)
Lemma deleteConversation_messages this id k :
  messages (db (deleteConversation id this)) !! k =
  match messages (db this) !! k with
  | Some m => if decide (TMessage.conversationId m = Some id) then None else Some m
  | None => None
  end.
Proof.
  unfold deleteConversation. simpl. rewrite lookup_foldl_delete.
  destruct (decide (k ∈ _)) as [Hin|Hnin].
  - apply list_elem_of_fmap in Hin as (e & -> & He).
    apply elem_of_messages_by_conversation in He as (Hlook & Hconv & _).
    rewrite Hlook. by rewrite decide_True.
  - destruct (messages (db this) !! k) as [m|] eqn:Hlook; [|done].
    destruct (decide (TMessage.conversationId m = Some id)) as [Hconv|]; [|done].
    destruct Hnin. apply list_elem_of_fmap. exists (KString id, k, m).
    split; [done|]. by apply messages_by_conversation_visits.
Qed.


(** ** Listing the messages of a conversation *)

(** Reading a stored message leaves its [createdAt] and its ids alone. *)
Lemma read_message_unchanged this m :
  TMessage.createdAt (read_message this m) = TMessage.createdAt m
  ∧ TMessage.messageId (read_message this m) = TMessage.messageId m
  ∧ TMessage.conversationId (read_message this m) = TMessage.conversationId m.
Proof.
  unfold read_message.
  destruct (TMessage.encryptedData m); [|done].
  destruct (truthy _); [|done].
  by destruct (decrypt _ _).
Qed.

(** The listing is a rearrangement of what the cursor visited, each record
    read: none is dropped, none is added. *)
Lemma getMessagesByConversationId_perm this id :
  getMessagesByConversationId id this ≡ₚ
  map (λ e : entry TMessage.t, read_message this e.2) (messages_by_conversation this id).
Proof. apply sort_by_perm. Qed.

Lemma elem_of_getMessagesByConversationId this id m' :
  m' ∈ getMessagesByConversationId id this ↔
  ∃ k m, messages (db this) !! k = Some m
         ∧ TMessage.conversationId m = Some id ∧ m' = read_message this m.
Proof.
  rewrite getMessagesByConversationId_perm, list_elem_of_fmap. split.
  - intros ([[ik k] m] & -> & He).
    apply elem_of_messages_by_conversation in He as (? & ? & _). by exists k, m.
  - intros (k & m & Hlook & Hconv & ->). exists (KString id, k, m).
    split; [done|]. by apply messages_by_conversation_visits.
Qed.

Lemma Sorted_weaken {A} (R R' : A → A → Prop) (P : A → Prop) (l : list A) :
  (∀ a b, P a → P b → R a b → R' a b) →
  Forall P l → Sorted R l → Sorted R' l.
Proof.
  intros HR HP Hs. induction Hs as [|x l Hs IH Hhd]; [constructor|].
  apply Forall_cons in HP as [Hx HP]. constructor; [by apply IH|].
  destruct Hhd as [|y l Hxy]; constructor.
  apply Forall_cons in HP as [Hy _]. by apply HR.
Qed.

(** The key of the final sort is the date of the record. *)
Lemma createdAt_time_date m x :
  createdAt_date m = Some x → createdAt_time m = Some x.
Proof.
  unfold createdAt_date, createdAt_time, or_else.
  by destruct (TMessage.createdAt m) as [[|a d]|].
Qed.

Lemma createdAt_date_read_message this m :
  createdAt_date (read_message this m) = createdAt_date m.
Proof. unfold createdAt_date. by rewrite (proj1 (read_message_unchanged this m)). Qed.

Lemma createdAt_le_trans a b c : createdAt_le a b → createdAt_le b c → createdAt_le a c.
Proof.
  intros (x & y & Hx & Hy & Hxy) (y' & z & Hy' & Hz & Hyz).
  exists x, z. split_and!; [done..|]. simplify_eq. lia.
Qed.

Lemma getMessagesByConversationId_sorted this id :
  map_Forall
    (λ _ m, TMessage.conversationId m = Some id → is_Some (createdAt_date m))
    (messages (db this)) →
  StronglySorted createdAt_le (getMessagesByConversationId id this).
Proof.
  intros Hvalid.
  set (key m := default 0%Z (createdAt_time m)).
  set (visited := map (λ e : entry TMessage.t, read_message this e.2)
                    (messages_by_conversation this id)).
  assert (Forall (λ m, is_Some (createdAt_date m)) visited) as Hall.
  { apply Forall_forall. intros m' ([[ik k] m] & -> & He)%list_elem_of_fmap.
    apply elem_of_messages_by_conversation in He as (? & ? & _).
    rewrite createdAt_date_read_message. by eapply Hvalid. }
  unfold getMessagesByConversationId. fold visited.
  rewrite (sort_by_ext _ (key_after key)).
  - apply Sorted_StronglySorted; [intros a b c; apply createdAt_le_trans|].
    apply (Sorted_weaken (key_le key) _ (λ m, is_Some (createdAt_date m))).
    + intros a b [x Hx] [y Hy] Hle. exists x, y.
      unfold key_le, key in Hle.
      rewrite (createdAt_time_date _ _ Hx), (createdAt_time_date _ _ Hy) in Hle. done.
    + apply Forall_forall. intros m Hm%elem_of_sort_by.
      by eapply Forall_forall in Hall.
    + apply sort_by_key_sorted.
  - intros a b Ha Hb.
    destruct (proj1 (Forall_forall _ _) Hall a Ha) as [x Hx].
    destruct (proj1 (Forall_forall _ _) Hall b Hb) as [y Hy].
    unfold createdAt_after, key_after, key.
    rewrite (createdAt_time_date _ _ Hx), (createdAt_time_date _ _ Hy). simpl.
    destruct (Z.ltb_spec 0 (x - y)), (Z.ltb_spec y x); lia.
Qed.

Lemma storedMessage_of_id amb m this :
  TMessage.messageId (storedMessage_of amb m this) = TMessage.messageId m.
Proof.
  by encrypt_cases.
Qed.

Lemma storedMessage_of_unchanged amb m this :
  TMessage.createdAt (storedMessage_of amb m this)
  = or_else (TMessage.createdAt m) (now_iso amb)
  ∧ TMessage.conversationId (storedMessage_of amb m this) = TMessage.conversationId m.
Proof.
  by encrypt_cases.
Qed.

(** Scenario A for every pair of dates: in a store that holds no message of
    the conversation, [m1] is stored with a date [T1] and [m2] with a later
    date [T2]; the listing is [m1], then [m2]. *)
Lemma storeMessage_twice_listing this amb1 amb2 m1 m2 id d1 d2 T1 T2 :
  map_Forall (λ _ m, TMessage.conversationId m ≠ Some id) (messages (db this)) →
  TMessage.conversationId m1 = Some id → TMessage.conversationId m2 = Some id →
  TMessage.messageId m1 ≠ TMessage.messageId m2 →
  TMessage.createdAt m1 = Some d1 → TMessage.createdAt m2 = Some d2 →
  truthy (Some d1) = true → truthy (Some d2) = true →
  Date_getTime d1 = Some T1 → Date_getTime d2 = Some T2 → (T1 < T2)%Z →
  let this1 := (storeMessage amb1 m1 this).2 in
  let this2 := (storeMessage amb2 m2 this1).2 in
  getMessagesByConversationId id this2
  = [read_message this2 (storedMessage_of amb1 m1 this);
     read_message this2 (storedMessage_of amb2 m2 this1)].
Proof.
  intros Hnone Hc1 Hc2 Hne Hd1 Hd2 Ht1 Ht2 HT1 HT2 Hlt this1 this2.
  set (raw1 := storedMessage_of amb1 m1 this).
  set (raw2 := storedMessage_of amb2 m2 this1).
  assert (createdAt_date raw1 = Some T1) as Htime1.
  { unfold createdAt_date. subst raw1.
    rewrite (proj1 (storedMessage_of_unchanged _ _ _)), Hd1.
    unfold or_else. by rewrite Ht1. }
  assert (createdAt_date raw2 = Some T2) as Htime2.
  { unfold createdAt_date. subst raw2.
    rewrite (proj1 (storedMessage_of_unchanged _ _ _)), Hd2.
    unfold or_else. by rewrite Ht2. }
  assert (messages (db this2)
          = <[TMessage.messageId m2 := raw2]>
              (<[TMessage.messageId m1 := raw1]> (messages (db this)))) as Hstore.
  { subst this2 this1 raw1 raw2. simpl. by rewrite !storedMessage_of_id. }
  set (e1 := (KString id, TMessage.messageId m1, raw1) : entry TMessage.t).
  set (e2 := (KString id, TMessage.messageId m2, raw2) : entry TMessage.t).
  assert (messages_by_conversation this2 id ≡ₚ [e1; e2]) as Hvisit.
  { apply NoDup_Permutation.
    - apply NoDup_filter, NoDup_index_of.
    - apply NoDup_cons. split; [|apply NoDup_singleton].
      intros [= ? _]%list_elem_of_singleton. done.
    - intros [[ik k] m]. rewrite elem_of_messages_by_conversation, Hstore. simpl.
      rewrite !elem_of_cons, elem_of_nil. split.
      + intros (Hlook & Hconv & ->).
        destruct (decide (k = TMessage.messageId m2)) as [->|Hk2].
        { rewrite lookup_insert_eq in Hlook. injection Hlook as <-. right. by left. }
        rewrite lookup_insert_ne in Hlook by done.
        destruct (decide (k = TMessage.messageId m1)) as [->|Hk1].
        { rewrite lookup_insert_eq in Hlook. injection Hlook as <-. by left. }
        rewrite lookup_insert_ne in Hlook by done.
        by destruct (Hnone _ _ Hlook).
      + intros [[= -> -> ->]|[[= -> -> ->]|[]]].
        * rewrite lookup_insert_ne, lookup_insert_eq by done.
          split_and!; [done| |done]. subst raw1.
          by rewrite (proj2 (storedMessage_of_unchanged _ _ _)).
        * rewrite lookup_insert_eq.
          split_and!; [done| |done]. subst raw2.
          by rewrite (proj2 (storedMessage_of_unchanged _ _ _)). }
  assert (StronglySorted createdAt_le (getMessagesByConversationId id this2)) as Hsorted.
  { apply getMessagesByConversationId_sorted. rewrite Hstore.
    intros k m Hlook Hconv.
    destruct (decide (k = TMessage.messageId m2)) as [->|Hk2].
    { rewrite lookup_insert_eq in Hlook. injection Hlook as <-. by eexists. }
    rewrite lookup_insert_ne in Hlook by done.
    destruct (decide (k = TMessage.messageId m1)) as [->|Hk1].
    { rewrite lookup_insert_eq in Hlook. injection Hlook as <-. by eexists. }
    rewrite lookup_insert_ne in Hlook by done.
    by destruct (Hnone _ _ Hlook). }
  pose proof (getMessagesByConversationId_perm this2 id) as Hperm.
  rewrite Hvisit in Hperm. simpl in Hperm.
  destruct (getMessagesByConversationId id this2) as [|x [|y [|z l]]] eqn:Hlisting;
    try (apply Permutation_length in Hperm; simpl in Hperm; lia).
  apply Permutation_length_2 in Hperm as [[-> ->]|[-> ->]]; [done|].
  apply StronglySorted_inv in Hsorted as [_ Hhd]. apply Forall_cons in Hhd as [Hle _].
  destruct Hle as (x & y & Hx & Hy & Hle).
  rewrite createdAt_date_read_message in Hx, Hy.
  rewrite Htime2 in Hx. rewrite Htime1 in Hy. simplify_eq. lia.
Qed.

(** With a key loaded, a record that is read and still carries a blob is a
    record whose blob did not decrypt: the blob left in place is the mark
    of the failure. *)
Lemma read_message_blob this m blob :
  truthy (encryptionKey this) = true →
  TMessage.encryptedData (read_message this m) = Some blob →
  read_message this m = m
  ∧ ∃ e, decrypt (A := TMessage.sensitive) (encryptionKey this) blob = Throw e.
Proof.
  intros Hkey. unfold read_message.
  destruct (TMessage.encryptedData m) as [b|] eqn:Hb; [|by rewrite Hb].
  rewrite Hkey.
  destruct (decrypt (encryptionKey this) b) as [d|e] eqn:Hd; [done|].
  rewrite Hb. intros [= <-]. split; [done|]. by exists e.
Qed.

(** What the listing makes of a stored record: it is listed as stored when
    it has no blob or when [decrypt] throws on its blob, and with the
    fields [decrypt] returns, and no blob, in every other case. *)
Lemma read_message_cases this m :
  truthy (encryptionKey this) = true →
  match TMessage.encryptedData m with
  | None => read_message this m = m
  | Some blob =>
      match decrypt (encryptionKey this) blob with
      | Throw _ => read_message this m = m
      | Return decrypted =>
          read_message this m = TMessage.spread_decrypted m decrypted
          ∧ TMessage.encryptedData (TMessage.spread_decrypted m decrypted) = None
      end
  end.
Proof.
  intros Hkey. unfold read_message. rewrite Hkey.
  destruct (TMessage.encryptedData m) as [blob|]; [|done].
  by destruct (decrypt (encryptionKey this) blob).
Qed.

(** ** Writing messages *)

Lemma getSettings_updateSettings amb s this :
  getSettings (updateSettings amb s this) = s.
Proof. unfold getSettings, updateSettings. simpl. by rewrite lookup_insert_eq. Qed.

(** C3, as the code has it: [storeMessage] does not read [maxStorageSize].
    Whatever limit [updateSettings] has stored, and whatever the store holds,
    the call returns normally and puts under the id of the message the very
    record it would put without the limit; nothing raises
    [QuotaExceededError]. *)
Theorem storeMessage_ignores_maxStorageSize amb amb' message this n :
  let limited := updateSettings amb' (set_maxStorageSize n (getSettings this)) this in
  let result := storeMessage amb message limited in
  result.1 = Return ()
  ∧ storedMessage_of amb message limited = storedMessage_of amb message this
  ∧ messages (db result.2) =
      <[TMessage.messageId message := storedMessage_of amb message this]>
        (messages (db this))
  ∧ conversations (db result.2) = conversations (db this).
Proof.
  intros limited result.
  assert (storedMessage_of amb message limited = storedMessage_of amb message this) as Heq.
  { unfold storedMessage_of. subst limited. by rewrite getSettings_updateSettings. }
  split_and!; [done|done| |done].
  subst result. unfold storeMessage, put_message. simpl.
  by rewrite Heq, storedMessage_of_id.
Qed.

(** ** Import *)

Lemma storedConversation_of_id amb c this :
  TConversation.conversationId (storedConversation_of amb c this)
  = TConversation.conversationId c.
Proof.
  by encrypt_cases.
Qed.

Lemma storeConversation_no_id amb c this :
  TConversation.conversationId c = None →
  storeConversation amb c this = (Throw DataError, this).
Proof.
  intros Hc. unfold storeConversation, put_conversation.
  by rewrite storedConversation_of_id, Hc.
Qed.

Lemma import_conversations_app amb i l1 l2 this :
  import_conversations amb i (l1 ++ l2) this =
  match import_conversations amb i l1 this with
  | (Return _, this') => import_conversations amb (i + List.length l1) l2 this'
  | (Throw e, this') => (Throw e, this')
  end.
Proof.
  revert i this. induction l1 as [|c l1 IH]; intros i this; simpl.
  - by rewrite Nat.add_0_r.
  - destruct (storeConversation (amb i) c this) as [[[]|e] this']; [|done].
    rewrite IH. by replace (S i + List.length l1) with (i + S (List.length l1)) by lia.
Qed.

(** The only error a store call raises is the one of [put]. *)
Lemma import_conversations_throws amb i l this e this' :
  import_conversations amb i l this = (Throw e, this') → e = DataError.
Proof.
  revert i this. induction l as [|c l IH]; intros i this; simpl; [done|].
  unfold storeConversation at 1, put_conversation.
  destruct (TConversation.conversationId _); [by apply IH|]. by intros [= <- _].
Qed.

(** C4, as the code has it: [importData] stops at the first record that
    fails.  A conversation without an id makes [put] throw; the [catch]
    rethrows, so [importData] throws [DataError] and the store is the one
    reached after the conversations before it: no later conversation, no
    message and no settings are imported, and no count of failures is
    returned. *)
Theorem importData_aborts_at_first_failure
    amb before bad after messages settings date this :
  TConversation.conversationId bad = None →
  importData amb
    {| b_conversations := before ++ bad :: after;
       b_messages := messages;
       b_settings := settings;
       exportDate := date |} this
  = (Throw DataError, (import_conversations amb 0 before this).2).
Proof.
  intros Hbad. unfold importData. simpl. rewrite import_conversations_app.
  destruct (import_conversations amb 0 before this) as [[[]|e] this'] eqn:Hbefore; simpl.
  - cbn [import_conversations]. by rewrite storeConversation_no_id.
  - by apply import_conversations_throws in Hbefore as ->.
Qed.

(** ** Encryption *)

Lemma encrypt_Return {A} `{JSON A} key amb (x : A) :
  truthy key = true →
  encrypt key amb x =
  Return {| data := AES_encrypt (JSON_stringify x) (default EmptyString key)
                      (random_iv amb) (random_salt amb);
            iv := random_iv amb;
            timestamp := now_encrypt amb |}.
Proof. intros Hkey. unfold encrypt. by rewrite Hkey. Qed.

Lemma decrypt_encrypt {A} `{JSON A} key amb (x : A) blob :
  truthy key = true → round_trips key amb x →
  encrypt key amb x = Return blob → decrypt key blob = Return x.
Proof.
  intros Hkey [Hcipher Hjson]. rewrite encrypt_Return by done. intros [= <-].
  unfold decrypt. rewrite Hkey. simpl. by rewrite Hcipher, Hjson.
Qed.

(** What [decrypt] can throw: the missing key, the failed UTF-8 decoding,
    the failed [JSON.parse]. *)
Lemma decrypt_Throw {A} `{JSON A} key blob e :
  decrypt (A := A) key blob = Throw e →
  e = Error "Encryption key not available"
  ∨ e = Error "Malformed UTF-8 data"
  ∨ e = SyntaxError.
Proof.
  unfold decrypt. destruct (negb _); [intros [= <-]; by left|].
  destruct (enc_Utf8 _); [|intros [= <-]; right; by left].
  destruct (JSON_parse _); [done|]. intros [= <-]. right; by right.
Qed.

(** C2, as the code has it: with a key loaded, [decrypt (encrypt x)] is [x]
    for every payload the host round-trips.  A blob carries no checksum and
    [decrypt] compares none: on any blob it either returns what
    [JSON.parse] read or throws one of its three errors, never
    [IntegrityError]. *)
Theorem decrypt_encrypt_round_trip {A} `{JSON A} key amb (x : A) :
  truthy key = true → round_trips key amb x →
  (∃ blob, encrypt key amb x = Return blob ∧ decrypt key blob = Return x)
  ∧ ∀ key' blob', decrypt (A := A) key' blob' ≠ Throw IntegrityError.
Proof.
  intros Hkey Hrt. split.
  - eexists. split; [by apply encrypt_Return|].
    eapply decrypt_encrypt; [done..|]. by apply encrypt_Return.
  - intros key' blob' Hthrow. by apply decrypt_Throw in Hthrow as [?|[?|?]].
Qed.

(** With the flag on and a key loaded, the stored conversation has no
    [title] and no [promptPrefix]: both are in the blob only. *)
Lemma storedConversation_of_encrypted amb c this :
  encryptionEnabled (getSettings this) = true → truthy (encryptionKey this) = true →
  ∃ blob,
    encrypt (encryptionKey this) amb
      {| TConversation.s_promptPrefix := TConversation.promptPrefix c;
         TConversation.s_title := TConversation.title c |} = Return blob
    ∧ TConversation.encryptedData (storedConversation_of amb c this) = Some blob
    ∧ TConversation.title (storedConversation_of amb c this) = None
    ∧ TConversation.promptPrefix (storedConversation_of amb c this) = None.
Proof.
  intros Hflag Hkey. eexists. split; [by apply encrypt_Return|].
  unfold storedConversation_of. rewrite Hflag, Hkey. simpl.
  by rewrite encrypt_Return.
Qed.

Lemma storedMessage_of_encrypted amb m this :
  encryptionEnabled (getSettings this) = true → truthy (encryptionKey this) = true →
  ∃ blob,
    encrypt (encryptionKey this) amb
      {| TMessage.s_text := TMessage.text m;
         TMessage.s_content := TMessage.content m |} = Return blob
    ∧ TMessage.encryptedData (storedMessage_of amb m this) = Some blob
    ∧ TMessage.text (storedMessage_of amb m this) = None
    ∧ TMessage.content (storedMessage_of amb m this) = None.
Proof.
  intros Hflag Hkey. eexists. split; [by apply encrypt_Return|].
  unfold storedMessage_of. rewrite Hflag, Hkey. simpl.
  by rewrite encrypt_Return.
Qed.

(** C7, as the code has it: the guard is the flag and a loaded key.  With
    both, [storeConversation] writes a record without [title] and
    [promptPrefix], which are in the blob only, and [getConversation] gives
    the title and the prompt prefix back when the host round-trips the
    payload; [storeMessage] likewise writes a record without [text] and
    [content]. *)
Theorem storeConversation_keeps_title_in_blob amb amb' c id m this :
  encryptionEnabled (getSettings this) = true →
  truthy (encryptionKey this) = true →
  TConversation.conversationId c = Some id →
  round_trips (encryptionKey this) amb
    {| TConversation.s_promptPrefix := TConversation.promptPrefix c;
       TConversation.s_title := TConversation.title c |} →
  (∃ raw this' c' this'',
     storeConversation amb c this = (Return (), this')
     ∧ conversations (db this') !! id = Some raw
     ∧ TConversation.title raw = None
     ∧ TConversation.promptPrefix raw = None
     ∧ is_Some (TConversation.encryptedData raw)
     ∧ getConversation amb' id this' = (Some c', this'')
     ∧ TConversation.title c' = TConversation.title c
     ∧ TConversation.promptPrefix c' = TConversation.promptPrefix c)
  ∧ (∃ raw this',
       storeMessage amb m this = (Return (), this')
       ∧ messages (db this') !! TMessage.messageId m = Some raw
       ∧ TMessage.text raw = None
       ∧ TMessage.content raw = None
       ∧ is_Some (TMessage.encryptedData raw)).
Proof.
  intros Hflag Hkey Hid Hrt. split.
  - destruct (storedConversation_of_encrypted amb c this Hflag Hkey)
      as (blob & Henc & Hblob & Htitle & Hprefix).
    set (raw := storedConversation_of amb c this) in *.
    assert (TConversation.conversationId raw = Some id) as Hraw
      by (subst raw; by rewrite storedConversation_of_id).
    set (touched := TConversation.set_lastAccessed (Some (now amb')) raw).
    eexists raw, _, _, _. split_and!.
    + unfold storeConversation, put_conversation. fold raw. by rewrite Hraw.
    + simpl. by rewrite lookup_insert_eq.
    + done.
    + done.
    + by rewrite Hblob.
    + unfold getConversation. simpl. rewrite lookup_insert_eq.
      unfold put_conversation. simpl. by rewrite Hraw.
    + unfold read_conversation. simpl. rewrite Hblob, Hkey.
      rewrite (decrypt_encrypt _ _ _ _ Hkey Hrt Henc). simpl.
      rewrite Htitle. by destruct (TConversation.title c).
    + unfold read_conversation. simpl. rewrite Hblob, Hkey.
      rewrite (decrypt_encrypt _ _ _ _ Hkey Hrt Henc). simpl.
      rewrite Hprefix. by destruct (TConversation.promptPrefix c).
  - destruct (storedMessage_of_encrypted amb m this Hflag Hkey)
      as (blob & _ & Hblob & Htext & Hcontent).
    eexists _, _. split_and!; [done| |done|done|by rewrite Hblob].
    simpl. by rewrite storedMessage_of_id, lookup_insert_eq.
Qed.

(** ** Pages *)

(** Once started, the loop takes the next [limit - count] entries; the
    cursor stops on the entry after them, whose id becomes [nextCursor]. *)
Lemma page_loop_started this cur limit rest acc count :
  page_loop this cur limit rest acc count true =
  let n := Z.to_nat (limit - Z.of_nat count) in
  ((acc ++ map (λ e : entry TConversation.t, read_conversation this e.2) (take n rest))%list,
   rest !! n ≫= λ e, TConversation.conversationId e.2).
Proof.
  revert acc count. induction rest as [|e rest IH]; intros acc count; simpl.
  - by rewrite take_nil, app_nil_r.
  - destruct (Z.ltb_spec (Z.of_nat count) limit) as [Hlt|Hge].
    + rewrite IH. simpl.
      replace (Z.to_nat (limit - Z.of_nat count))
        with (S (Z.to_nat (limit - Z.of_nat (S count)))) by lia.
      simpl. by rewrite <- app_assoc.
    + replace (Z.to_nat (limit - Z.of_nat count)) with 0 by lia.
      simpl. by rewrite app_nil_r.
Qed.

(** Before it has started, the loop looks for the cursor and skips it. *)
Lemma page_loop_seek this c limit rest acc count :
  (Z.of_nat count < limit)%Z →
  page_loop this (Some c) limit rest acc count false =
  page_loop this (Some c) limit (after_cursor c rest) acc count true.
Proof.
  intros Hlt. induction rest as [|e rest IH]; simpl; [done|].
  destruct (Z.ltb_spec (Z.of_nat count) limit); [|lia].
  by destruct (bool_decide _).
Qed.

(** The first page, and the page a cursor leads to. *)
Lemma getConversations_first_page this limit' sortBy' sortOrder' :
  let visit :=
    openCursor (index_of (keyPath_of (default by_updatedAt sortBy'))
                  (conversations (db this)))
      (match default desc sortOrder' with desc => prev | asc => next end) in
  let n := Z.to_nat (default 25%Z limit') in
  getConversations (mkListOptions None limit' sortBy' sortOrder') this =
  (map (λ e : entry TConversation.t, read_conversation this e.2) (take n visit),
   visit !! n ≫= λ e, TConversation.conversationId e.2).
Proof.
  intros visit n. unfold getConversations. simpl.
  rewrite page_loop_started. simpl. subst n. by rewrite Z.sub_0_r.
Qed.

Lemma getConversations_next_page this c limit' sortBy' sortOrder' :
  truthy (Some c) = true → (0 < default 25 limit')%Z →
  let visit :=
    openCursor (index_of (keyPath_of (default by_updatedAt sortBy'))
                  (conversations (db this)))
      (match default desc sortOrder' with desc => prev | asc => next end) in
  let n := Z.to_nat (default 25%Z limit') in
  getConversations (mkListOptions (Some c) limit' sortBy' sortOrder') this =
  (map (λ e : entry TConversation.t, read_conversation this e.2)
     (take n (after_cursor c visit)),
   after_cursor c visit !! n ≫= λ e, TConversation.conversationId e.2).
Proof.
  intros Hc Hlimit visit n. unfold getConversations.
  cbn [cursor limit sortBy sortOrder].
  rewrite Hc. cbn [negb]. rewrite page_loop_seek by (simpl; lia).
  rewrite page_loop_started. simpl. subst n. by rewrite Z.sub_0_r.
Qed.

(** Over entries with distinct ids, the entries after the cursor are the
    entries after its position. *)
Lemma after_cursor_drop c (visit : list (entry TConversation.t)) n e :
  NoDup ((λ e : entry TConversation.t, TConversation.conversationId e.2) <$> visit) →
  visit !! n = Some e → TConversation.conversationId e.2 = Some c →
  after_cursor c visit = drop (S n) visit.
Proof.
  revert n. induction visit as [|e' visit IH]; intros n Hnodup Hn Hc; [done|].
  rewrite fmap_cons in Hnodup. apply NoDup_cons in Hnodup as [Hnotin Hnodup].
  destruct n as [|n]; simpl in *.
  - simplify_eq. by rewrite bool_decide_eq_true_2.
  - rewrite bool_decide_eq_false_2; [by eapply IH|].
    intros He'. destruct Hnotin. rewrite He', <- Hc.
    apply list_elem_of_fmap. exists e. split; [done|]. by eapply list_elem_of_lookup_2.
Qed.

Lemma read_conversation_id this c :
  TConversation.conversationId (read_conversation this c)
  = TConversation.conversationId c.
Proof.
  unfold read_conversation.
  destruct (TConversation.encryptedData c); [|done].
  destruct (truthy _); [|done].
  by destruct (decrypt _ _).
Qed.

Lemma elem_of_concat {A} (x : A) (ls : list (list A)) :
  x ∈ List.concat ls ↔ ∃ l, x ∈ l ∧ l ∈ ls.
Proof.
  rewrite list_elem_of_In, in_concat. split.
  - intros (l & ? & ?). exists l. by rewrite !list_elem_of_In.
  - intros (l & ? & ?). exists l. by rewrite <- !list_elem_of_In.
Qed.

Lemma elem_of_drop_inv {A} (x : A) n (l : list A) : x ∈ drop n l → x ∈ l.
Proof.
  intros [i Hi]%list_elem_of_lookup. rewrite lookup_drop in Hi.
  by eapply list_elem_of_lookup_2.
Qed.

Lemma elem_of_visited_pages fuel n visit e :
  e ∈ List.concat (visited_pages fuel n visit) →
  e ∈ take n visit ∨ e ∈ drop (S n) visit.
Proof.
  revert visit. induction fuel as [|fuel IH]; intros visit; simpl.
  - by intros ?%elem_of_nil.
  - intros [Hhere|Hlater]%elem_of_app; [by left|]. right.
    destruct (visit !! n); [|by apply elem_of_nil in Hlater].
    apply IH in Hlater as [Hin|Hin].
    + apply elem_of_take in Hin as (i & Hi & _).
      by eapply list_elem_of_lookup_2.
    + by eapply elem_of_drop_inv.
Qed.

Section pages.
Variables (this : ClientStorage) (limit' : option Z) (sortBy' : option SortBy)
  (sortOrder' : option SortOrder).

Let visit : list (entry TConversation.t) :=
  openCursor (index_of (keyPath_of (default by_updatedAt sortBy'))
                (conversations (db this)))
    (match default desc sortOrder' with desc => prev | asc => next end).
Let n : nat := Z.to_nat (default 25%Z limit').
Let id_of (e : entry TConversation.t) : option string :=
  TConversation.conversationId e.2.

Hypothesis Hkeyed : keyed this.
Hypothesis Hnonempty : conversations (db this) !! EmptyString = None.
Hypothesis Hlimit : (0 < default 25 limit')%Z.

Lemma visit_stored e : e ∈ visit → conversations (db this) !! e.1.2 = Some e.2.
Proof. by intros [? _]%elem_of_openCursor%elem_of_index_of. Qed.

Lemma visit_id e : e ∈ visit → id_of e = Some e.1.2 ∧ truthy (Some e.1.2) = true.
Proof.
  intros Hlook%visit_stored. split; [by apply Hkeyed|].
  destruct (e.1.2); [|done]. by rewrite Hnonempty in Hlook.
Qed.

Lemma NoDup_visit_ids : NoDup (id_of <$> visit).
Proof.
  assert (id_of <$> visit = Some <$> ((λ e : entry TConversation.t, e.1.2) <$> visit)) as ->.
  { rewrite <- list_fmap_compose. apply Forall_fmap_ext, Forall_forall.
    intros e He. by apply visit_id. }
  apply (NoDup_fmap_2 _). subst visit.
  destruct (default desc sortOrder'); simpl; [apply NoDup_index_of_keys|].
  rewrite reverse_Permutation. apply NoDup_index_of_keys.
Qed.

(** The pages a cursor leads to: they start after the position of the
    entry whose id is the cursor. *)
Lemma follow_pages_from fuel i e c :
  visit !! i = Some e → id_of e = Some c →
  follow_pages fuel (mkListOptions (Some c) limit' sortBy' sortOrder') this =
  map (map (λ e : entry TConversation.t, read_conversation this e.2))
    (visited_pages fuel n (drop (S i) visit)).
Proof.
  revert i e c. induction fuel as [|fuel IH]; intros i e c Hi Hc; [done|].
  assert (e ∈ visit) as He by by eapply list_elem_of_lookup_2.
  destruct (visit_id e He) as [Hid Htruthy].
  rewrite Hc in Hid. injection Hid as ->.
  cbn [follow_pages visited_pages map].
  rewrite getConversations_next_page by done. fold visit n.
  rewrite (after_cursor_drop _ _ i e) by (done || apply NoDup_visit_ids).
  cbn [fst snd]. f_equal.
  destruct (drop (S i) visit !! n) as [e'|] eqn:Hnext; [|done]. simpl.
  rewrite lookup_drop in Hnext.
  assert (e' ∈ visit) as He' by by eapply list_elem_of_lookup_2.
  destruct (visit_id e' He') as [Hid' _]. unfold id_of in Hid'. rewrite Hid'.
  cbn [limit sortBy sortOrder].
  rewrite (IH (S i + n) e') by done.
  rewrite drop_drop. do 3 f_equal. lia.
Qed.

(** The pages from the start. *)
Lemma follow_pages_visited fuel :
  follow_pages fuel (mkListOptions None limit' sortBy' sortOrder') this =
  map (map (λ e : entry TConversation.t, read_conversation this e.2))
    (visited_pages fuel n visit).
Proof.
  destruct fuel as [|fuel]; [done|].
  cbn [follow_pages visited_pages map].
  rewrite getConversations_first_page. fold visit n. cbn [fst snd]. f_equal.
  destruct (visit !! n) as [e|] eqn:Hn; [|done]. simpl.
  assert (e ∈ visit) as He by by eapply list_elem_of_lookup_2.
  destruct (visit_id e He) as [Hid _]. unfold id_of in Hid. rewrite Hid.
  cbn [limit sortBy sortOrder].
  by apply (follow_pages_from _ n e).
Qed.

(** C1: the entry the first page stops on is stored and is in no page.
    The first page holds the first [limit] entries of the index and its
    [nextCursor] is the id of the entry after them; the next call skips the
    entry whose id is the cursor, so the pages that follow start one entry
    later. *)
Theorem follow_pages_omits_nextCursor fuel e :
  visit !! n = Some e →
  conversations (db this) !! e.1.2 = Some e.2
  ∧ (getConversations (mkListOptions None limit' sortBy' sortOrder') this).2
    = Some e.1.2
  ∧ ∀ c, c ∈ List.concat (follow_pages fuel (mkListOptions None limit' sortBy' sortOrder') this) →
         TConversation.conversationId c ≠ Some e.1.2.
Proof.
  intros Hn.
  assert (e ∈ visit) as He by by eapply list_elem_of_lookup_2.
  destruct (visit_id e He) as [Hid _].
  split_and!; [by apply visit_stored| |].
  - rewrite getConversations_first_page. fold visit n. simpl. by rewrite Hn.
  - intros c Hc Hcid. rewrite follow_pages_visited in Hc.
    apply elem_of_concat in Hc as (page & Hc & Hpage).
    apply list_elem_of_fmap in Hpage as (entries & -> & Hentries).
    apply list_elem_of_fmap in Hc as (e' & -> & He').
    rewrite read_conversation_id in Hcid.
    assert (e' ∈ List.concat (visited_pages fuel n visit)) as Hin
      by (apply elem_of_concat; eauto).
    pose proof NoDup_visit_ids as Hnodup.
    rewrite <- (take_drop_middle visit n e Hn), fmap_app, fmap_cons in Hnodup.
    apply NoDup_app in Hnodup as (_ & Hfront & Hback).
    apply NoDup_cons in Hback as [Hback _].
    apply elem_of_visited_pages in Hin as [Hin|Hin].
    + apply (Hfront (id_of e')); [by apply list_elem_of_fmap_2|].
      replace (id_of e') with (id_of e) by (by rewrite Hid). left.
    + apply Hback. replace (id_of e) with (id_of e') by (by rewrite Hid).
      by apply (list_elem_of_fmap_2 id_of).
Qed.

End pages.

(** ** Export and import *)

(** A listed conversation is the reading of a stored one. *)
Lemma elem_of_getConversations_first_page this limit sortBy sortOrder c :
  c ∈ (getConversations (mkListOptions None limit sortBy sortOrder) this).1 →
  ∃ k stored, conversations (db this) !! k = Some stored
              ∧ c = read_conversation this stored.
Proof.
  rewrite getConversations_first_page. simpl.
  intros ([[ik k] stored] & -> & He)%list_elem_of_fmap.
  apply elem_of_take in He as (i & He & _).
  apply list_elem_of_lookup_2, elem_of_openCursor, elem_of_index_of in He as [Hlook _].
  by exists k, stored.
Qed.

Lemma import_conversations_known amb (D : gset string) l i this :
  dom (conversations (db this)) = D →
  Forall (λ c, ∃ k, TConversation.conversationId c = Some k ∧ k ∈ D) l →
  ∃ this', import_conversations amb i l this = (Return (), this')
           ∧ dom (conversations (db this')) = D
           ∧ messages (db this') = messages (db this)
           ∧ settings (db this') = settings (db this)
           ∧ encryptionKey this' = encryptionKey this.
Proof.
  revert i this. induction l as [|c l IH]; intros i this Hdom Hall; simpl.
  - by exists this.
  - apply Forall_cons in Hall as [(k & Hk & HkD) Hall].
    unfold storeConversation at 1, put_conversation.
    rewrite storedConversation_of_id, Hk.
    edestruct (IH (S i)) as (this' & Himp & ? & ? & ? & ?);
      [|done|rewrite Himp; by exists this'].
    simpl. rewrite dom_insert_L, Hdom.
    by apply subseteq_union_1_L, singleton_subseteq_l.
Qed.

Lemma import_messages_known amb (D : gset string) l i this :
  dom (messages (db this)) = D →
  Forall (λ m, TMessage.messageId m ∈ D) l →
  ∃ this', import_messages amb i l this = (Return (), this')
           ∧ dom (messages (db this')) = D
           ∧ conversations (db this') = conversations (db this)
           ∧ settings (db this') = settings (db this)
           ∧ encryptionKey this' = encryptionKey this.
Proof.
  revert i this. induction l as [|m l IH]; intros i this Hdom Hall; simpl.
  - by exists this.
  - apply Forall_cons in Hall as [HmD Hall].
    edestruct (IH (S i)) as (this' & Himp & ? & ? & ? & ?);
      [|done|rewrite Himp; by exists this'].
    simpl. rewrite storedMessage_of_id, dom_insert_L, Hdom.
    by apply subseteq_union_1_L, singleton_subseteq_l.
Qed.

(** What the store calls of an import depend on: the settings and the
    key, which the import of records does not change. *)
Lemma storedConversation_of_ext amb c this1 this2 :
  settings (db this1) = settings (db this2) →
  encryptionKey this1 = encryptionKey this2 →
  storedConversation_of amb c this1 = storedConversation_of amb c this2.
Proof.
  intros Hs Hk. unfold storedConversation_of, getSettings. by rewrite Hs, Hk.
Qed.

Lemma storedMessage_of_ext amb m this1 this2 :
  settings (db this1) = settings (db this2) →
  encryptionKey this1 = encryptionKey this2 →
  storedMessage_of amb m this1 = storedMessage_of amb m this2.
Proof.
  intros Hs Hk. unfold storedMessage_of, getSettings. by rewrite Hs, Hk.
Qed.

(** After the loop over the conversations, the record under an id is what
    the last conversation of the list with that id was stored as; under an
    id no conversation of the list has, it is the record that was there. *)
Lemma import_conversations_written amb l : ∀ i this this' k,
  import_conversations amb i l this = (Return (), this') →
  ((∀ c, c ∈ l → TConversation.conversationId c ≠ Some k)
   ∧ conversations (db this') !! k = conversations (db this) !! k)
  ∨ ∃ j c, l !! j = Some c ∧ TConversation.conversationId c = Some k
           ∧ conversations (db this') !! k
             = Some (storedConversation_of (amb (i + j)) c this).
Proof.
  induction l as [|c0 l IH]; intros i this this' k; simpl.
  - intros [= <-]. left. split; [|done]. intros c Hc. by apply elem_of_nil in Hc.
  - unfold storeConversation at 1, put_conversation.
    rewrite storedConversation_of_id.
    destruct (TConversation.conversationId c0) as [k0|] eqn:Hk0; [|done].
    intros Himp.
    destruct (IH _ _ _ k Himp) as [[Hnone Hsame]|(j & c & Hj & Hid & Hlook)].
    + simpl in Hsame. destruct (decide (k0 = k)) as [->|Hne].
      * right. exists 0, c0. rewrite Nat.add_0_r.
        by rewrite lookup_insert_eq in Hsame.
      * left. rewrite lookup_insert_ne in Hsame by done. split; [|done].
        intros c [->|Hc]%elem_of_cons; [congruence|by apply Hnone].
    + right. exists (S j), c. split_and!; [done..|].
      rewrite Hlook. f_equal. replace (i + S j) with (S i + j) by lia.
      by apply storedConversation_of_ext.
Qed.

Lemma import_messages_written amb l : ∀ i this this' k,
  import_messages amb i l this = (Return (), this') →
  ((∀ m, m ∈ l → TMessage.messageId m ≠ k)
   ∧ messages (db this') !! k = messages (db this) !! k)
  ∨ ∃ j m, l !! j = Some m ∧ TMessage.messageId m = k
           ∧ messages (db this') !! k = Some (storedMessage_of (amb (i + j)) m this).
Proof.
  induction l as [|m0 l IH]; intros i this this' k; simpl.
  - intros [= <-]. left. split; [|done]. intros m Hm. by apply elem_of_nil in Hm.
  - intros Himp.
    destruct (IH _ _ _ k Himp) as [[Hnone Hsame]|(j & m & Hj & Hid & Hlook)].
    + simpl in Hsame. rewrite storedMessage_of_id in Hsame.
      destruct (decide (TMessage.messageId m0 = k)) as [<-|Hne].
      * right. exists 0, m0. rewrite Nat.add_0_r.
        by rewrite lookup_insert_eq in Hsame.
      * left. rewrite lookup_insert_ne in Hsame by done. split; [|done].
        intros m [->|Hm]%elem_of_cons; [done|by apply Hnone].
    + right. exists (S j), m. split_and!; [done..|].
      rewrite Hlook. f_equal. replace (i + S j) with (S i + j) by lia.
      by apply storedMessage_of_ext.
Qed.

(** What [storeConversation] writes carries the time of the call. *)
Lemma lastAccessed_storedConversation_of amb c this :
  TConversation.lastAccessed (storedConversation_of amb c this) = Some (now amb).
Proof. by encrypt_cases. Qed.

(** The import of an export, on the open database: it returns, keeps the
    ids, the counts, the settings and the key, and writes every record of
    the export again.  The conversation at position [j] of the export is
    stored by call number [j] of the import, the message at position [j] by
    call number [n + j], [n] being the number of exported conversations.
    Records the export does not hold are left as they are. *)
Lemma importData_exportData_written amb amb_export this :
  keyed this →
  let data := exportData amb_export this in
  let result := importData amb data this in
  let n := List.length (b_conversations data) in
  result.1 = Return ()
  ∧ dom (conversations (db result.2)) = dom (conversations (db this))
  ∧ dom (messages (db result.2)) = dom (messages (db this))
  ∧ getStorageStats result.2 = getStorageStats this
  ∧ getSettings result.2 = getSettings this
  ∧ encryptionKey result.2 = encryptionKey this
  ∧ (∀ c, c ∈ b_conversations data →
       ∃ k stored j,
         conversations (db this) !! k = Some stored
         ∧ c = read_conversation this stored
         ∧ b_conversations data !! j = Some c
         ∧ conversations (db result.2) !! k
           = Some (storedConversation_of (amb j) c this))
  ∧ (∀ k, (∀ c, c ∈ b_conversations data → TConversation.conversationId c ≠ Some k) →
       conversations (db result.2) !! k = conversations (db this) !! k)
  ∧ (∀ m, m ∈ b_messages data →
       ∃ stored j,
         messages (db this) !! TMessage.messageId m = Some stored
         ∧ m = read_message this stored
         ∧ b_messages data !! j = Some m
         ∧ messages (db result.2) !! TMessage.messageId m
           = Some (storedMessage_of (amb (n + j)) m this))
  ∧ (∀ k, (∀ m, m ∈ b_messages data → TMessage.messageId m ≠ k) →
       messages (db result.2) !! k = messages (db this) !! k).
Proof.
  intros [Hconv Hmsg] data result n.
  assert (∀ c, c ∈ b_conversations data →
            ∃ k stored, conversations (db this) !! k = Some stored
                        ∧ c = read_conversation this stored
                        ∧ TConversation.conversationId c = Some k) as Hexported.
  { intros c Hc. simpl in Hc.
    apply elem_of_getConversations_first_page in Hc as (k & stored & Hlook & ->).
    exists k, stored. split_and!; [done..|].
    rewrite read_conversation_id. by eapply Hconv. }
  assert (∀ m, m ∈ b_messages data →
            ∃ stored, messages (db this) !! TMessage.messageId m = Some stored
                      ∧ m = read_message this stored) as Hexported'.
  { intros m' Hm'. simpl in Hm'.
    apply list_elem_of_In, in_flat_map in Hm' as (c & _ & Hm').
    destruct (TConversation.conversationId c) as [id|]; [|done].
    apply list_elem_of_In, elem_of_getMessagesByConversationId in Hm'
      as (k & m & Hlook & _ & ->).
    exists m. split; [|done].
    by rewrite (proj1 (proj2 (read_message_unchanged this m))), (Hmsg _ _ Hlook). }
  assert (Forall (λ c, ∃ k, TConversation.conversationId c = Some k
                            ∧ k ∈ dom (conversations (db this)))
            (b_conversations data)) as Hcs.
  { apply Forall_forall. intros c (k & stored & Hlook & _ & Hid)%Hexported.
    exists k. split; [done|]. by apply elem_of_dom. }
  assert (Forall (λ m, TMessage.messageId m ∈ dom (messages (db this)))
            (b_messages data)) as Hms.
  { apply Forall_forall. intros m (stored & Hlook & _)%Hexported'.
    by apply elem_of_dom. }
  destruct (import_conversations_known amb _ _ 0 this eq_refl Hcs)
    as (this1 & Hi1 & Hd1 & Hm1 & Hs1 & Hk1).
  rewrite <- Hm1 in Hms.
  destruct (import_messages_known amb _ _ n this1 eq_refl Hms)
    as (this2 & Hi2 & Hd2 & Hc2 & Hs2 & Hk2).
  assert (result = (Return (),
            updateSettings (amb (n + List.length (b_messages data)))
              (getSettings this) this2)) as ->.
  { subst result. unfold importData. fold n. by rewrite Hi1, Hi2. }
  simpl. rewrite Hc2, Hd1, Hd2, Hm1. split_and!; [done..| | | | | | |].
  - unfold getStorageStats. simpl.
    rewrite Hc2, <- !size_dom, Hd1, Hd2, Hm1. done.
  - apply getSettings_updateSettings.
  - by rewrite Hk2, Hk1.
  - intros c Hc. destruct (Hexported c Hc) as (k & stored & Hlook & Hread & Hid).
    destruct (import_conversations_written _ _ _ _ _ k Hi1)
      as [[Hnone _]|(j & c2 & Hj & Hid2 & Hfinal)]; [by destruct (Hnone c Hc)|].
    destruct (Hexported c2 (list_elem_of_lookup_2 _ _ _ Hj))
      as (k2 & stored2 & Hlook2 & Hread2 & Hid2').
    assert (c2 = c) as ->.
    { rewrite Hid2 in Hid2'. injection Hid2' as <-.
      rewrite Hlook in Hlook2. injection Hlook2 as <-. by rewrite Hread, Hread2. }
    exists k, stored, j. split_and!; [done|done|exact Hj|exact Hfinal].
  - intros k Hnone.
    destruct (import_conversations_written _ _ _ _ _ k Hi1)
      as [[_ Hsame]|(j & c2 & Hj & Hid2 & _)]; [done|].
    by destruct (Hnone c2 (list_elem_of_lookup_2 _ _ _ Hj)).
  - intros m Hm. destruct (Hexported' m Hm) as (stored & Hlook & Hread).
    destruct (import_messages_written _ _ _ _ _ (TMessage.messageId m) Hi2)
      as [[Hnone _]|(j & m2 & Hj & Hid2 & Hfinal)]; [by destruct (Hnone m Hm)|].
    destruct (Hexported' m2 (list_elem_of_lookup_2 _ _ _ Hj))
      as (stored2 & Hlook2 & Hread2).
    assert (m2 = m) as -> by (rewrite Hid2 in Hlook2; congruence).
    exists stored, j. split_and!; [done|done|exact Hj|].
    rewrite Hfinal. f_equal. by apply storedMessage_of_ext.
  - intros k Hnone.
    destruct (import_messages_written _ _ _ _ _ k Hi2)
      as [[_ Hsame]|(j & m2 & Hj & Hid2 & _)]; [by rewrite Hsame, Hm1|].
    by destruct (Hnone m2 (list_elem_of_lookup_2 _ _ _ Hj)).
Qed.

End properties.

(** ** Initialization *)

Section initialization_properties.
Context `{CryptoJS}.
Variable openDB_ok : nat → bool.
Variable random_key : nat → string.
Variable iso_at : nat → string.

#[local] Abbreviation initializeStorage' :=
  (initializeStorage openDB_ok random_key iso_at).
#[local] Abbreviation initializeEncryption' :=
  (initializeEncryption random_key iso_at).

(** While every [openDB] resolves, [initializeStorage] does not return:
    [getSettings] awaits [ensureInitialized], which starts
    [initializeStorage] again before [isInitialized] is set. *)
Lemma initializeStorage_never_returns fuel s :
  (∀ n, openDB_ok n = true) → isInitialized s = false →
  initializeStorage' fuel s = None.
Proof.
  intros Hopen. revert s. induction fuel as [|fuel IH]; intros s Hinit; [done|].
  simpl. rewrite Hopen. unfold initializeEncryption, getSettings_init.
  simpl. rewrite Hinit. by rewrite IH.
Qed.

Lemma persisted_after_updateSettings ensure settings s s' :
  updateSettings_init iso_at ensure settings s = Some (Return (), s') →
  persisted_encryptionEnabled s' = encryptionEnabled settings.
Proof.
  unfold updateSettings_init.
  destruct (ensure s) as [[[[]|e] s1]|]; [|done..].
  destruct (connected s1); [|done]. intros [= <-].
  unfold persisted_encryptionEnabled, updateSettings. simpl.
  by rewrite lookup_insert_eq.
Qed.

Lemma getSettings_init_enabled ensure s settings s' :
  getSettings_init ensure s = Some (Return settings, s') →
  encryptionEnabled settings = true →
  persisted_encryptionEnabled s' = true.
Proof.
  unfold getSettings_init.
  destruct (ensure s) as [[[[]|e] s1]|]; [|done..].
  destruct (connected s1); intros [= <- <-]; [|done].
  unfold persisted_encryptionEnabled, getSettings.
  by destruct (settings (db (this s1)) !! "global").
Qed.

(** What [initializeEncryption] leaves behind: no key, or a persisted
    settings record that says encryption is enabled. *)
Lemma initializeEncryption_post ensure s s' :
  initializeEncryption' ensure s = Some s' →
  encryptionKey (this s') = None ∨ persisted_encryptionEnabled s' = true.
Proof.
  unfold initializeEncryption.
  destruct (getSettings_init ensure s) as [[[settings|e] s1]|] eqn:Hget; [| |done].
  2: { intros [= <-]. by left. }
  destruct (encryptionEnabled settings) eqn:Hflag; simpl.
  - pose proof (getSettings_init_enabled _ _ _ _ Hget Hflag) as Hpersisted.
    destruct (truthy (masterKeyHash settings)).
    + destruct (_ && _).
      * intros [= <-]. by right.
      * destruct (updateSettings_init _ _ _ _) as [[[[]|e] s3]|] eqn:Hupd; [| |done].
        -- intros [= <-]. right.
           by rewrite (persisted_after_updateSettings _ _ _ _ Hupd).
        -- intros [= <-]. by left.
    + intros [= <-]. by right.
  - destruct (updateSettings_init _ _ _ _) as [[[[]|e] s3]|] eqn:Hupd; [| |done].
    + intros [= <-]. right.
      by rewrite (persisted_after_updateSettings _ _ _ _ Hupd).
    + intros [= <-]. by left.
Qed.

Lemma initializeStorage_isInitialized fuel s s' :
  initializeStorage' fuel s = Some (Return (), s') → isInitialized s' = true.
Proof.
  destruct fuel as [|fuel]; [done|]. simpl.
  destruct (openDB_ok (steps s)); [|done].
  destruct (initializeEncryption' _ _); [|done]. by intros [= <-].
Qed.

(** The first run as the code takes it: the nested [initializeStorage]
    that [getSettings] starts has returned, the settings it left say
    disabled; the outer [initializeEncryption] then loads a fresh key,
    records its hash and persists the flag. *)
Lemma initializeStorage_first_run_enables fuel s s2 :
  openDB_ok (steps s) = true → isInitialized s = false →
  initializeStorage' fuel (set_connected true (tick s)) = Some (Return (), s2) →
  connected s2 = true → encryptionEnabled (getSettings (this s2)) = false →
  ∃ s', initializeStorage' (S fuel) s = Some (Return (), s')
        ∧ encryptionKey (this s') = Some (random_key (steps s2))
        ∧ masterKeyHash (getSettings (this s')) = Some (SHA256 (random_key (steps s2)))
        ∧ persisted_encryptionEnabled s' = true.
Proof.
  intros Hopen Hinit Hnested Hconn Hflag.
  pose proof (initializeStorage_isInitialized _ _ _ Hnested) as Hinit2.
  simpl. rewrite Hopen.
  unfold initializeEncryption, getSettings_init. simpl.
  rewrite Hinit, Hnested, Hconn, Hflag. simpl.
  unfold updateSettings_init. simpl. rewrite Hinit2. simpl. rewrite Hconn.
  eexists. split; [done|].
  unfold persisted_encryptionEnabled, getSettings, updateSettings. simpl.
  by rewrite lookup_insert_eq.
Qed.

(** C10, as the code has it: [initializeEncryption] swallows every error
    and goes on without encryption.  When [initializeStorage] returns
    normally, [isInitialized] is set and either no key is loaded or the
    persisted settings record says encryption is enabled; and on a first
    run (the nested initialization has returned and the settings say
    disabled) a fresh key is loaded, its hash recorded and the flag
    persisted as enabled. *)
Theorem initializeStorage_post fuel s s' :
  initializeStorage' fuel s = Some (Return (), s') →
  isInitialized s' = true
  ∧ (encryptionKey (this s') = None ∨ persisted_encryptionEnabled s' = true)
  ∧ ∀ s2, 0 < fuel → isInitialized s = false →
      initializeStorage' (pred fuel) (set_connected true (tick s)) = Some (Return (), s2) →
      connected s2 = true → encryptionEnabled (getSettings (this s2)) = false →
      encryptionKey (this s') = Some (random_key (steps s2))
      ∧ masterKeyHash (getSettings (this s')) = Some (SHA256 (random_key (steps s2)))
      ∧ persisted_encryptionEnabled s' = true.
Proof.
  intros Hrun. split_and!.
  - by eapply initializeStorage_isInitialized.
  - destruct fuel as [|fuel]; [done|]. simpl in Hrun.
    destruct (openDB_ok (steps s)); [|done].
    destruct (initializeEncryption' _ _) as [s2|] eqn:Henc; [|done].
    injection Hrun as <-. by apply initializeEncryption_post in Henc.
  - intros s2 Hfuel Hinit Hnested Hconn Hflag.
    destruct fuel as [|fuel]; [lia|]. simpl in Hnested.
    assert (openDB_ok (steps s) = true) as Hopen.
    { simpl in Hrun. by destruct (openDB_ok (steps s)). }
    destruct (initializeStorage_first_run_enables fuel s s2)
      as (s'' & Hrun' & Hkey & Hhash & Hpersisted); [done..|].
    rewrite Hrun in Hrun'. by injection Hrun' as <-.
Qed.

End initialization_properties.

(** ** The scenarios, run on the executable host *)

Section scenarios.
Import Host Scenario.

(** The pages of three conversations, one per page: [b] is missing. *)
Lemma three_conversations_pages :
  map (map TConversation.conversationId) (follow_pages 3 (page_size 1) three)
  = [[Some "a"]; [Some "c"]].
Proof. vm_compute. reflexivity. Qed.

(** C1 at three conversations and pages of one. *)
Lemma three_conversations_omit_b :
  conversations (db three) !! "b" = Some entry_b.2
  ∧ (getConversations (page_size 1) three).2 = Some "b"
  ∧ ∀ c, c ∈ List.concat (follow_pages 3 (page_size 1) three) →
         TConversation.conversationId c ≠ Some "b".
Proof.
  refine (follow_pages_omits_nextCursor three (Some 1%Z) None None _ _ _ 3 entry_b _).
  - split; apply (bool_decide_unpack _); vm_compute; reflexivity.
  - vm_compute. reflexivity.
  - reflexivity.
  - vm_compute. reflexivity.
Defined.

(** C2, counterexample: one flipped bit in the cipher text of the title and
    [decrypt] returns another title; one flipped bit in the bytes of the
    separator and it throws [SyntaxError]. *)
Lemma decrypt_tampered_blob :
  encrypt (Some "k3y") (at_time 1000) secret = Return secret_blob
  ∧ decrypt (Some "k3y") (tamper 15 secret_blob)
    = Return {| TConversation.s_promptPrefix := None;
                TConversation.s_title := Some "sfbret" |}
  ∧ decrypt (A := TConversation.sensitive) (Some "k3y") (tamper 12 secret_blob)
    = Throw SyntaxError.
Proof. split_and!; vm_compute; reflexivity. Qed.

(** C2 at the payload of Scenario B. *)
Lemma decrypt_encrypt_secret :
  (∃ blob, encrypt (Some "k3y") (at_time 1000) secret = Return blob
           ∧ decrypt (Some "k3y") blob = Return secret)
  ∧ ∀ key' blob',
      decrypt (A := TConversation.sensitive) key' blob' ≠ Throw IntegrityError.
Proof.
  apply decrypt_encrypt_round_trip; [reflexivity|].
  split; vm_compute; reflexivity.
Defined.

(** C3, counterexample: the limit is 1000, the estimate 2000, and
    [storeMessage] returns normally and has written the message. *)
Lemma storeMessage_over_maxStorageSize :
  maxStorageSize (getSettings over_quota) = Some 1000%Z
  ∧ estimatedSizeBytes (getStorageStats over_quota) = 2000
  ∧ (storeMessage (at_time 4000) m1 over_quota).1 = Return ()
  ∧ messages (db over_quota) !! "m1" = None
  ∧ messages (db (storeMessage (at_time 4000) m1 over_quota).2) !! "m1"
    = Some (storedMessage_of (at_time 4000) m1 over_quota).
Proof. split_and!; vm_compute; reflexivity. Qed.

(** C4, counterexample: the first conversation of the snapshot has no id;
    [importData] throws and nothing of the snapshot is stored, not the
    conversation [c1] and the message [m1] that come after it. *)
Lemma importData_stops :
  importData (λ _, at_time 1000) snapshot (started false None)
  = (Throw DataError, started false None)
  ∧ conversations (db (started false None)) !! "c1" = None.
Proof. split; vm_compute; reflexivity. Qed.

(** C4 at a snapshot whose second conversation has no id. *)
Lemma importData_aborts_after_a :
  importData (λ _, at_time 1000)
    {| b_conversations := [a] ++ no_id :: [c1];
       b_messages := [m1];
       b_settings := None;
       exportDate := None |}
    (started false None)
  = (Throw DataError,
     (import_conversations (λ _, at_time 1000) 0 [a] (started false None)).2).
Proof. apply importData_aborts_at_first_failure. reflexivity. Defined.

(** C7, counterexample: a session starts on a database whose settings say
    enabled, the nested [openDB] fails, [initializeEncryption] goes on
    without a key; the flag is on and the title is stored in plain text. *)
Lemma storeConversation_plaintext_without_key :
  (∃ s, restarted = Some (Return (), s) ∧ isInitialized s = true ∧ this s = keyless)
  ∧ encryptionEnabled (getSettings keyless) = true
  ∧ encryptionKey keyless = None
  ∧ (storeConversation (at_time 1000)
       (conversation (Some "c1") "secret" "2024-01-01T00:00:00.000Z") keyless).1
    = Return ()
  ∧ TConversation.title <$>
      conversations
        (db (storeConversation (at_time 1000)
               (conversation (Some "c1") "secret" "2024-01-01T00:00:00.000Z")
               keyless).2) !! "c1"
    = Some (Some "secret").
Proof.
  split_and!; [|vm_compute; reflexivity..].
  eexists. vm_compute. split_and!; reflexivity.
Qed.

(** C7 at Scenario B. *)
Lemma storeConversation_secret :
  let this := started true (Some "k3y") in
  let c := conversation (Some "c1") "secret" "2024-01-01T00:00:00.000Z" in
  (∃ raw this' c' this'',
     storeConversation (at_time 1000) c this = (Return (), this')
     ∧ conversations (db this') !! "c1" = Some raw
     ∧ TConversation.title raw = None
     ∧ TConversation.promptPrefix raw = None
     ∧ is_Some (TConversation.encryptedData raw)
     ∧ getConversation (at_time 2000) "c1" this' = (Some c', this'')
     ∧ TConversation.title c' = Some "secret"
     ∧ TConversation.promptPrefix c' = None)
  ∧ (∃ raw this',
       storeMessage (at_time 1000) m1 this = (Return (), this')
       ∧ messages (db this') !! "m1" = Some raw
       ∧ TMessage.text raw = None
       ∧ TMessage.content raw = None
       ∧ is_Some (TMessage.encryptedData raw)).
Proof.
  apply (storeConversation_keeps_title_in_blob (at_time 1000) (at_time 2000)
           (conversation (Some "c1") "secret" "2024-01-01T00:00:00.000Z") "c1" m1
           (started true (Some "k3y")));
    [reflexivity..|].
  split; vm_compute; reflexivity.
Defined.

(** Scenario B, evaluated: the raw record has no title and no prompt
    prefix, and the text [secret] occurs nowhere in its blob. *)
Lemma scenario_B_raw_record :
  (λ raw, (TConversation.title raw, TConversation.promptPrefix raw,
           (λ blob, index 0 "secret" (data blob)) <$> TConversation.encryptedData raw))
    <$> conversations
          (db (storeConversation (at_time 1000)
                 (conversation (Some "c1") "secret" "2024-01-01T00:00:00.000Z")
                 (started true (Some "k3y"))).2) !! "c1"
  = Some (None, None, Some None).
Proof. vm_compute. reflexivity. Qed.

(** Scenario C, evaluated: both messages are listed, [m1] without text and
    with its blob, [m2] with its text and without a blob. *)
Lemma scenario_C_texts :
  map (λ m, (TMessage.messageId m, TMessage.text m,
             bool_decide (is_Some (TMessage.encryptedData m))))
    (getMessagesByConversationId "c1" scenario_C)
  = [("m1", None, true); ("m2", Some "there", false)].
Proof. vm_compute. reflexivity. Qed.

(** C10, counterexample: the first [openDB] resolves, the one of the nested
    [initializeStorage] does not; initialization returns normally, nothing
    is persisted and no key is loaded. *)
Lemma initializeStorage_without_encryption :
  ∃ s, initializeStorage first_open_only fresh_key iso 2
         (new_ClientStorage empty_IDB None) = Some (Return (), s)
       ∧ isInitialized s = true
       ∧ settings (db (this s)) !! "global" = None
       ∧ persisted_encryptionEnabled s = false
       ∧ encryptionEnabled (getSettings (this s)) = false
       ∧ encryptionKey (this s) = None.
Proof. eexists. vm_compute. split_and!; reflexivity. Qed.

(** C10 at a first run on which the third [openDB] fails. *)
Lemma initializeStorage_first_run :
  isInitialized first_run = true
  ∧ (encryptionKey (this first_run) = None
     ∨ persisted_encryptionEnabled first_run = true)
  ∧ ∀ s2, 0 < 3 → isInitialized (new_ClientStorage empty_IDB None) = false →
      initializeStorage first_two_opens fresh_key iso (pred 3)
        (set_connected true (tick (new_ClientStorage empty_IDB None)))
      = Some (Return (), s2) →
      connected s2 = true → encryptionEnabled (getSettings (this s2)) = false →
      encryptionKey (this first_run) = Some (fresh_key (steps s2))
      ∧ masterKeyHash (getSettings (this first_run))
        = Some (SHA256 (fresh_key (steps s2)))
      ∧ persisted_encryptionEnabled first_run = true.
Proof.
  apply (initializeStorage_post first_two_opens fresh_key iso 3
           (new_ClientStorage empty_IDB None) first_run).
  vm_compute. reflexivity.
Defined.

(** The first run, evaluated: a key is loaded, its hash recorded and the
    flag persisted; the key itself is not written to the local storage. *)
Lemma first_run_enabled :
  encryptionKey (this first_run) = Some "4f0c"
  ∧ masterKeyHash (getSettings (this first_run)) = Some (SHA256 "4f0c")
  ∧ persisted_encryptionEnabled first_run = true
  ∧ librechat_master_key first_run = None.
Proof. split_and!; vm_compute; reflexivity. Qed.

(** While every [openDB] resolves, the first run does not return. *)
Lemma initializeStorage_diverges fuel :
  initializeStorage (λ _, true) fresh_key iso fuel (new_ClientStorage empty_IDB None)
  = None.
Proof. by apply initializeStorage_never_returns. Qed.

End scenarios.

(** ** The order of the keys and of an index *)

Lemma String_compare_trans_lt s1 : ∀ s2 s3,
  String.compare s1 s2 = Lt → String.compare s2 s3 = Lt → String.compare s1 s3 = Lt.
Proof.
  induction s1 as [|c1 s1 IH]; intros [|c2 s2] [|c3 s3]; simpl; try done.
  unfold Ascii.compare.
  destruct (N.compare_spec (N_of_ascii c1) (N_of_ascii c2)) as [E12|L12|G12];
    destruct (N.compare_spec (N_of_ascii c2) (N_of_ascii c3)) as [E23|L23|G23];
    try done; intros H12 H23.
  - rewrite E12, E23, N.compare_refl. eauto.
  - rewrite E12. by rewrite (proj2 (N.compare_lt_iff _ _) L23).
  - rewrite <- E23. by rewrite (proj2 (N.compare_lt_iff _ _) L12).
  - assert (N_of_ascii c1 < N_of_ascii c3)%N as L13 by lia.
    by rewrite (proj2 (N.compare_lt_iff _ _) L13).
Qed.

Lemma String_leb_trans s1 s2 s3 :
  String.leb s1 s2 = true → String.leb s2 s3 = true → String.leb s1 s3 = true.
Proof.
  unfold String.leb.
  destruct (String.compare s1 s2) eqn:H12; try done.
  - apply String.compare_eq_iff in H12 as ->. done.
  - destruct (String.compare s2 s3) eqn:H23; try done; intros _ _.
    + apply String.compare_eq_iff in H23 as <-. by rewrite H12.
    + by rewrite (String_compare_trans_lt _ _ _ H12 H23).
Qed.

Lemma String_leb_refl s : String.leb s s = true.
Proof. by destruct (String.leb_total s s). Qed.

Lemma IDBKey_leb_refl k : IDBKey_leb k k = true.
Proof. destruct k; simpl; [lia|apply String_leb_refl]. Qed.

Lemma IDBKey_leb_trans k1 k2 k3 :
  IDBKey_leb k1 k2 = true → IDBKey_leb k2 k3 = true → IDBKey_leb k1 k3 = true.
Proof.
  destruct k1, k2, k3; simpl; try done; [lia|apply String_leb_trans].
Qed.

Lemma IDBKey_leb_total k1 k2 : IDBKey_leb k1 k2 = true ∨ IDBKey_leb k2 k1 = true.
Proof.
  destruct k1, k2; simpl; auto; [lia|apply String.leb_total].
Qed.

Lemma IDBKey_leb_antisym k1 k2 :
  IDBKey_leb k1 k2 = true → IDBKey_leb k2 k1 = true → k1 = k2.
Proof.
  destruct k1, k2; simpl; try done.
  - intros. f_equal. lia.
  - intros. f_equal. by apply String.leb_antisym.
Qed.

Section index_order.
Context {A : Type}.
Implicit Types e : entry A.

Lemma entry_leb_total e1 e2 : entry_leb e1 e2 = true ∨ entry_leb e2 e1 = true.
Proof.
  unfold entry_leb. destruct (decide (e1.1.1 = e2.1.1)) as [Heq|Hne].
  - rewrite decide_True by done. apply String.leb_total.
  - rewrite decide_False by done. apply IDBKey_leb_total.
Qed.

Lemma entry_leb_trans e1 e2 e3 :
  entry_leb e1 e2 = true → entry_leb e2 e3 = true → entry_leb e1 e3 = true.
Proof.
  unfold entry_leb.
  destruct (decide (e1.1.1 = e2.1.1)) as [E12|N12];
    destruct (decide (e2.1.1 = e3.1.1)) as [E23|N23].
  - rewrite decide_True by congruence. apply String_leb_trans.
  - rewrite decide_False by congruence. rewrite E12. auto.
  - rewrite decide_False by congruence. rewrite <- E23. auto.
  - intros H12 H23. destruct (decide (e1.1.1 = e3.1.1)) as [E13|N13].
    + rewrite E13 in H12. destruct N23. by apply IDBKey_leb_antisym.
    + by eapply IDBKey_leb_trans.
Qed.

(** The index key ascends along an entry order. *)
Lemma entry_leb_key e1 e2 : entry_leb e1 e2 = true → IDBKey_leb e1.1.1 e2.1.1 = true.
Proof.
  unfold entry_leb. destruct (decide _) as [->|]; [|done].
  intros _. apply IDBKey_leb_refl.
Qed.

End index_order.

Section sorting_total.
Context {A : Type} (leb : A → A → bool).
Hypothesis leb_total : ∀ x y, leb x y = true ∨ leb y x = true.
Hypothesis leb_trans : ∀ x y z, leb x y = true → leb y z = true → leb x z = true.

Lemma insert_by_strongly_sorted x l :
  StronglySorted (λ a b, leb a b = true) l →
  StronglySorted (λ a b, leb a b = true) (insert_by (λ a b, negb (leb a b)) x l).
Proof.
  induction 1 as [|y l Hl IH Hy]; simpl.
  - by repeat constructor.
  - destruct (leb x y) eqn:Hxy; simpl.
    + constructor; [by constructor|].
      constructor; [done|]. eapply Forall_impl; [exact Hy|]. simpl. eauto.
    + constructor; [done|].
      assert (leb y x = true) as Hyx by (destruct (leb_total x y); congruence).
      rewrite (insert_by_perm _ x l). by constructor.
Qed.

Lemma sort_by_strongly_sorted l :
  StronglySorted (λ a b, leb a b = true) (sort_by (λ a b, negb (leb a b)) l).
Proof.
  induction l as [|x l IH]; [constructor|].
  rewrite sort_by_cons. by apply insert_by_strongly_sorted.
Qed.

End sorting_total.

Lemma StronglySorted_sublist {A} (R : relation A) l1 l2 :
  l1 `sublist_of` l2 → StronglySorted R l2 → StronglySorted R l1.
Proof.
  induction 1 as [|x l1 l2 Hsub IH|x l1 l2 Hsub IH]; intros Hs.
  - constructor.
  - apply StronglySorted_inv in Hs as [Hs Hall]. constructor; [auto|].
    rewrite Forall_forall in Hall |- *. intros y Hy. apply Hall.
    by eapply elem_of_sublist.
  - apply StronglySorted_inv in Hs as [Hs _]. auto.
Qed.

Lemma StronglySorted_reverse {A} (R : relation A) l :
  StronglySorted R l → StronglySorted (flip R) (reverse l).
Proof.
  induction 1 as [|x l Hl IH Hx]; [constructor|].
  rewrite reverse_cons. apply StronglySorted_app_2; [|done|by repeat constructor].
  intros y z Hy Hz%list_elem_of_singleton. rewrite elem_of_reverse in Hy. subst z.
  rewrite Forall_forall in Hx. exact (Hx _ Hy).
Qed.

Lemma index_of_sorted {A} (keyPath : A → option IDBKey) store :
  StronglySorted (λ e1 e2 : entry A, entry_leb e1 e2 = true) (index_of keyPath store).
Proof.
  unfold index_of. apply sort_by_strongly_sorted.
  - apply entry_leb_total.
  - apply entry_leb_trans.
Qed.

Section pages.
Context `{CryptoJS} `{JSDate} `{JSON TConversation.sensitive} `{JSON TMessage.sensitive}.
Implicit Types (this : ClientStorage) (id : string).

Lemma read_conversation_keyPath this s c :
  keyPath_of s (read_conversation this c) = keyPath_of s c.
Proof.
  unfold read_conversation.
  destruct (TConversation.encryptedData c); [|done].
  destruct (truthy _); [|done].
  destruct (decrypt _ _); [|done].
  by destruct s.
Qed.

(** A page is the reading of a sublist of what the cursor has to visit, of
    at most [limit - count] entries. *)
Lemma page_loop_sublist this cur limit rest : ∀ acc count start,
  ∃ l', l' `sublist_of` rest
        ∧ (page_loop this cur limit rest acc count start).1
          = (acc ++ map (λ e : entry TConversation.t, read_conversation this e.2) l')%list
        ∧ (List.length l' ≤ Z.to_nat (limit - Z.of_nat count))%nat.
Proof.
  induction rest as [|e rest IH]; intros acc count start; simpl.
  - exists []. split_and!; [done|by rewrite app_nil_r|simpl; lia].
  - destruct (Z.ltb_spec (Z.of_nat count) limit) as [Hlt|Hge].
    + destruct (negb start && bool_decide _) eqn:Hseek.
      { destruct (IH acc count true) as (l' & Hsub & Heq & Hlen).
        exists l'. split_and!; [by constructor|done|done]. }
      destruct start.
      * destruct (IH (acc ++ [read_conversation this e.2])%list (S count) true)
          as (l' & Hsub & Heq & Hlen).
        exists (e :: l'). split_and!; [by constructor| |simpl; lia].
        rewrite Heq. by rewrite <- app_assoc.
      * destruct (IH acc count false) as (l' & Hsub & Heq & Hlen).
        exists l'. split_and!; [by constructor|done|done].
    + exists []. split_and!; [apply sublist_nil_l|by rewrite app_nil_r|simpl; lia].
Qed.

Lemma getConversations_sublist options this :
  ∃ l', l' `sublist_of`
          openCursor
            (index_of (keyPath_of (default by_updatedAt (sortBy options)))
               (conversations (db this)))
            (match default desc (sortOrder options) with desc => prev | asc => next end)
        ∧ (getConversations options this).1
          = map (λ e : entry TConversation.t, read_conversation this e.2) l'
        ∧ (List.length l' ≤ Z.to_nat (default 25%Z (limit options)))%nat.
Proof.
  unfold getConversations.
  destruct (page_loop_sublist this (cursor options) (default 25%Z (limit options))
              (openCursor
                 (index_of (keyPath_of (default by_updatedAt (sortBy options)))
                    (conversations (db this)))
                 (match default desc (sortOrder options) with
                  | desc => prev | asc => next end))
              [] 0 (negb (truthy (cursor options)))) as (l' & Hsub & Heq & Hlen).
  exists l'. split_and!; [done|done|]. by rewrite Z.sub_0_r in Hlen.
Qed.

(** The order of the visit. *)
Lemma openCursor_sorted s o (store : gmap string TConversation.t) :
  StronglySorted
    (λ e1 e2 : entry TConversation.t, key_order o e1.1.1 e2.1.1 = true)
    (openCursor (index_of (keyPath_of s) store)
       (match o with desc => prev | asc => next end)).
Proof.
  pose proof (index_of_sorted (keyPath_of s) store) as Hs.
  destruct o; simpl.
  - eapply StronglySorted_fmap with (f := id) in Hs; [by rewrite list_fmap_id in Hs|].
    intros x y. apply entry_leb_key.
  - apply StronglySorted_reverse in Hs.
    eapply StronglySorted_fmap with (f := id) in Hs; [by rewrite list_fmap_id in Hs|].
    intros x y. apply entry_leb_key.
Qed.

(** X1: A page of [getConversations] is in the order asked for (by
    default: [updatedAt], newest first), every conversation on it has the
    sort key, and it holds at most [limit] conversations (by default 25;
    none when the limit is negative). *)
Theorem getConversations_sorted options this :
  let s := default by_updatedAt (sortBy options) in
  let o := default desc (sortOrder options) in
  let page := (getConversations options this).1 in
  StronglySorted (in_order s o) page
  ∧ (∀ c, c ∈ page → is_Some (keyPath_of s c))
  ∧ (Z.of_nat (List.length page) ≤ Z.max 0 (default 25 (limit options)))%Z.
Proof.
  intros s o page.
  destruct (getConversations_sublist options this) as (l' & Hsub & Heq & Hlen).
  subst page. rewrite Heq.
  assert (∀ e, e ∈ l' → keyPath_of s e.2 = Some e.1.1) as Hkey.
  { intros e He. eapply elem_of_sublist in He; [|exact Hsub].
    apply elem_of_openCursor, elem_of_index_of in He. tauto. }
  split_and!; [| |rewrite length_map; lia].
  - pose proof (StronglySorted_sublist _ _ _ Hsub (openCursor_sorted s o _)) as Hs.
    clear Hsub Heq Hlen.
    induction Hs as [|e l' Hs IH Hall]; simpl; [constructor|].
    constructor.
    + apply IH. intros e' He'. apply Hkey. by right.
    + rewrite Forall_forall in Hall. apply Forall_forall.
      intros c (e' & -> & He')%list_elem_of_fmap.
      exists e.1.1, e'.1.1. rewrite !read_conversation_keyPath.
      split_and!; [apply Hkey; left|apply Hkey; by right|by apply Hall].
  - intros c (e & -> & He)%list_elem_of_fmap.
    rewrite read_conversation_keyPath, (Hkey e He). by eexists.
Qed.

End pages.

Section cursors.
Context `{CryptoJS} `{JSDate} `{JSON TConversation.sensitive} `{JSON TMessage.sensitive}.
Implicit Types (this : ClientStorage) (id : string).

Lemma length_omap_le {A B} (f : A → option B) (l : list A) :
  (List.length (omap f l) ≤ List.length l)%nat.
Proof.
  induction l as [|x l IH]; [done|]. cbn [omap list_omap].
  change (list_omap A B f l) with (omap f l). destruct (f x); simpl; lia.
Qed.

Lemma NoDup_openCursor_keys {A} (idx : list (entry A)) d :
  NoDup ((λ e : entry A, e.1.2) <$> idx) →
  NoDup ((λ e : entry A, e.1.2) <$> openCursor idx d).
Proof.
  destruct d; simpl; [done|]. by rewrite reverse_Permutation.
Qed.

(** X2: A page lists no conversation twice, and what it lists is stored. *)
Theorem getConversations_NoDup options this :
  keyed this →
  let page := (getConversations options this).1 in
  NoDup (TConversation.conversationId <$> page)
  ∧ ∀ c, c ∈ page →
      ∃ k stored, conversations (db this) !! k = Some stored
                  ∧ TConversation.conversationId c = Some k
                  ∧ c = read_conversation this stored.
Proof.
  intros [Hconv _] page.
  destruct (getConversations_sublist options this) as (l' & Hsub & Heq & _).
  subst page. rewrite Heq. clear Heq.
  assert (∀ e, e ∈ l' →
            conversations (db this) !! e.1.2 = Some e.2
            ∧ TConversation.conversationId e.2 = Some e.1.2) as Hstored.
  { intros e He. eapply elem_of_sublist in He; [|exact Hsub].
    apply elem_of_openCursor, elem_of_index_of in He as [Hlook _].
    split; [done|]. by eapply Hconv. }
  split.
  - assert (TConversation.conversationId
              <$> map (λ e : entry TConversation.t, read_conversation this e.2) l'
            = Some <$> ((λ e : entry TConversation.t, e.1.2) <$> l')) as ->.
    { rewrite <- !list_fmap_compose. apply Forall_fmap_ext, Forall_forall.
      intros e He. simpl. rewrite read_conversation_id. by apply Hstored. }
    apply (NoDup_fmap_2 _).
    eapply sublist_NoDup; [|by apply fmap_sublist].
    apply NoDup_openCursor_keys, NoDup_index_of_keys.
  - intros c (e & -> & He)%list_elem_of_fmap.
    destruct (Hstored e He) as [Hlook Hid].
    exists e.1.2, e.2. by rewrite read_conversation_id.
Qed.

(** When the limit is not below the number of stored conversations, the
    cursor is exhausted within the first page. *)
Lemma openCursor_within_limit limit' (s : SortBy) (d : Direction) this :
  (Z.of_nat (size (conversations (db this))) ≤ default 25 limit')%Z →
  let visit := openCursor (index_of (keyPath_of s) (conversations (db this))) d in
  take (Z.to_nat (default 25%Z limit')) visit = visit
  ∧ visit !! Z.to_nat (default 25%Z limit') = None.
Proof.
  intros Hsize visit.
  assert (List.length visit ≤ size (conversations (db this)))%nat as Hlen.
  { subst visit. unfold index_of.
    assert (∀ l : list (entry TConversation.t),
              List.length (openCursor l d) = List.length l) as ->.
    { intros l. destruct d; [done|apply length_reverse]. }
    rewrite (sort_by_perm _ _).
    etrans; [apply length_omap_le|]. by rewrite length_map_to_list. }
  clearbody visit. unfold entry in *.
  split; [apply firstn_all2; lia|apply lookup_ge_None_2; lia].
Qed.

(** What a cursor visits: the stored conversations that have the sort
    key. *)
Lemma elem_of_read_openCursor (s : SortBy) (d : Direction) this c :
  c ∈ map (λ e : entry TConversation.t, read_conversation this e.2)
        (openCursor (index_of (keyPath_of s) (conversations (db this))) d) ↔
  ∃ k stored, conversations (db this) !! k = Some stored
              ∧ is_Some (keyPath_of s stored)
              ∧ c = read_conversation this stored.
Proof.
  split.
  - intros (e & -> & He)%list_elem_of_fmap.
    apply elem_of_openCursor, elem_of_index_of in He as [Hlook Hkey].
    exists e.1.2, e.2. by rewrite Hkey.
  - intros (k & stored & Hlook & [ik Hkey] & ->).
    apply list_elem_of_fmap. exists (ik, k, stored). split; [done|].
    by apply elem_of_openCursor, elem_of_index_of.
Qed.

(** X3: With a limit that is not below the number of stored conversations, the
    first page holds every conversation that has the sort key, and there is
    no next page. *)
Theorem getConversations_everything limit' sortBy' sortOrder' this :
  (Z.of_nat (size (conversations (db this))) ≤ default 25 limit')%Z →
  let result := getConversations (mkListOptions None limit' sortBy' sortOrder') this in
  result.2 = None
  ∧ ∀ c, c ∈ result.1 ↔
      ∃ k stored, conversations (db this) !! k = Some stored
                  ∧ is_Some (keyPath_of (default by_updatedAt sortBy') stored)
                  ∧ c = read_conversation this stored.
Proof.
  intros Hsize result. subst result. rewrite getConversations_first_page.
  cbn [fst snd].
  destruct (openCursor_within_limit limit' (default by_updatedAt sortBy')
              (match default desc sortOrder' with desc => prev | asc => next end)
              this Hsize) as [Htake Hnone].
  unfold entry in *. rewrite Htake, Hnone.
  split; [done|]. intros c. apply elem_of_read_openCursor.
Qed.

Lemma after_cursor_unknown c (visit : list (entry TConversation.t)) :
  (∀ e, e ∈ visit → TConversation.conversationId e.2 ≠ Some c) →
  after_cursor c visit = [].
Proof.
  induction visit as [|e visit IH]; intros Hall; simpl; [done|].
  rewrite bool_decide_eq_false_2 by (apply Hall; left).
  apply IH. intros e' He'. apply Hall. by right.
Qed.

(** A cursor that is the id of no stored conversation gives an empty page
    and ends the listing. *)
Lemma getConversations_unknown_cursor c limit' sortBy' sortOrder' this :
  truthy (Some c) = true → (0 < default 25 limit')%Z →
  (∀ k stored, conversations (db this) !! k = Some stored →
               TConversation.conversationId stored ≠ Some c) →
  getConversations (mkListOptions (Some c) limit' sortBy' sortOrder') this = ([], None).
Proof.
  intros Hc Hlimit Hunknown.
  rewrite getConversations_next_page by done.
  rewrite after_cursor_unknown; [by rewrite take_nil|].
  intros e [Hlook _]%elem_of_openCursor%elem_of_index_of. by eapply Hunknown.
Qed.

(** X4: Deleting the conversation a page ended on: the next page, asked for
    with that page's cursor, is empty and has no [nextCursor]. *)
Theorem getConversations_after_deleting_cursor c limit' sortBy' sortOrder' this :
  keyed this → truthy (Some c) = true → (0 < default 25 limit')%Z →
  getConversations (mkListOptions (Some c) limit' sortBy' sortOrder')
    (deleteConversation c this)
  = ([], None).
Proof.
  intros [Hconv _] Hc Hlimit.
  apply getConversations_unknown_cursor; [done..|].
  intros k stored Hlook Hid. simpl in Hlook.
  destruct (decide (k = c)) as [->|Hne].
  - by rewrite lookup_delete_eq in Hlook.
  - rewrite lookup_delete_ne in Hlook by done.
    apply Hconv in Hlook. simpl in Hlook. congruence.
Qed.

(** With a limit of zero or less the loop body never runs: the page is
    empty and [nextCursor] is the id of the first entry of the index,
    whatever the cursor. *)
Lemma getConversations_nonpositive_limit options this :
  (default 25 (limit options) ≤ 0)%Z →
  getConversations options this =
  ([], head (openCursor
               (index_of (keyPath_of (default by_updatedAt (sortBy options)))
                  (conversations (db this)))
               (match default desc (sortOrder options) with
                | desc => prev | asc => next end))
       ≫= λ e, TConversation.conversationId e.2).
Proof.
  intros Hlimit. unfold getConversations.
  destruct (openCursor _ _) as [|e rest]; [done|].
  cbn [page_loop head]. change (Z.of_nat 0) with 0%Z.
  destruct (Z.ltb_spec 0 (default 25%Z (limit options))); [lia|done].
Qed.

(** X5: With a limit of zero or less and a store that is not empty, a
    caller that follows [nextCursor] gets an empty page and a next cursor
    every time, for as long as it asks. *)
Theorem follow_pages_nonpositive_limit fuel options this k stored :
  (default 25 (limit options) ≤ 0)%Z →
  keyed this →
  conversations (db this) !! k = Some stored →
  is_Some (keyPath_of (default by_updatedAt (sortBy options)) stored) →
  follow_pages fuel options this = replicate fuel [].
Proof.
  intros Hlimit [Hconv _] Hlook [ik Hkey].
  revert options Hlimit Hkey. induction fuel as [|fuel IH]; intros options Hlimit Hkey; [done|].
  cbn [follow_pages replicate].
  rewrite getConversations_nonpositive_limit by done. cbn [fst snd].
  set (visit := openCursor _ _).
  assert ((ik, k, stored) ∈ visit) as Hin
    by by apply elem_of_openCursor, elem_of_index_of.
  destruct visit as [|e rest] eqn:Hvisit; [by apply elem_of_nil in Hin|].
  assert (e ∈ visit) as He by (rewrite Hvisit; left).
  apply elem_of_openCursor, elem_of_index_of in He as [He _].
  apply Hconv in He. simpl in *. rewrite He. simpl. f_equal.
  by apply IH.
Qed.

End cursors.

Lemma String_compare_refl s : String.compare s s = Eq.
Proof.
  pose proof (String.compare_antisym s s) as Hanti.
  by destruct (String.compare s s).
Qed.

Lemma String_ltb_leb s1 s2 :
  String.ltb s1 s2 = true → String.leb s1 s2 = true ∧ s1 ≠ s2.
Proof.
  unfold String.ltb, String.leb.
  destruct (String.compare s1 s2) eqn:Hcmp; try done.
  intros _. split; [done|]. intros ->. by rewrite String_compare_refl in Hcmp.
Qed.

Lemma StronglySorted_last {A} (R : relation A) (l : list A) y :
  StronglySorted R l → last l = Some y → ∀ x, x ∈ l → x = y ∨ R x y.
Proof.
  intros Hs [l' ->]%last_Some x [Hx|Hx%list_elem_of_singleton]%elem_of_app; [|by left].
  right. eapply StronglySorted_app_1_elem_of; [done..|left].
Qed.

Section index_maximum.
Context {A : Type}.
Implicit Types e : entry A.

Lemma entry_leb_antisym e1 e2 :
  entry_leb e1 e2 = true → entry_leb e2 e1 = true → e1.1.2 = e2.1.2.
Proof.
  unfold entry_leb. destruct (decide (e1.1.1 = e2.1.1)) as [Heq|Hne].
  - rewrite decide_True by done. apply String.leb_antisym.
  - rewrite decide_False by done. intros H12 H21.
    destruct Hne. by apply IDBKey_leb_antisym.
Qed.

(** The last entry of an index is the one every other entry is below. *)
Lemma last_index_of (keyPath : A → option IDBKey) store e :
  e ∈ index_of keyPath store →
  (∀ e', e' ∈ index_of keyPath store → e'.1.2 ≠ e.1.2 → entry_leb e' e = true) →
  last (index_of keyPath store) = Some e.
Proof.
  intros He Hmax.
  destruct (last (index_of keyPath store)) as [y|] eqn:Hlast; last first.
  { apply last_None in Hlast. rewrite Hlast in He. by apply elem_of_nil in He. }
  f_equal.
  assert (y ∈ index_of keyPath store) as Hy by by apply last_Some_elem_of.
  assert (y.1.2 = e.1.2) as Hk.
  { destruct (decide (y.1.2 = e.1.2)) as [|Hne]; [done|].
    pose proof (Hmax y Hy Hne) as Hye.
    destruct (StronglySorted_last _ _ _ (index_of_sorted keyPath store) Hlast e He)
      as [->|Hey]; [done|].
    symmetry. by apply entry_leb_antisym. }
  apply elem_of_index_of in He as [He1 He2], Hy as [Hy1 Hy2].
  rewrite Hk, He1 in Hy1. injection Hy1 as Hv.
  rewrite <- Hv, He2 in Hy2. injection Hy2 as Hik.
  destruct y as [[??]?], e as [[??]?]. simpl in *. congruence.
Qed.

End index_maximum.

Section most_recent.
Context `{CryptoJS} `{JSDate} `{JSON TConversation.sensitive} `{JSON TMessage.sensitive}.
Context `{Constants}.
Implicit Types (this : ClientStorage) (id : string).

Lemma storedConversation_of_updatedAt amb c this :
  TConversation.updatedAt (storedConversation_of amb c this)
  = or_else (TConversation.updatedAt c) (now_iso amb).
Proof. by encrypt_cases. Qed.

Lemma storedConversation_of_lastAccessed amb c this :
  TConversation.lastAccessed (storedConversation_of amb c this) = Some (now amb).
Proof. by encrypt_cases. Qed.

(** The first conversation of a descending first page is the last entry of
    the index. *)
Lemma head_getConversations_desc limit' s this :
  (0 < default 25 limit')%Z →
  head (getConversations (mkListOptions None limit' (Some s) (Some desc)) this).1
  = (λ e : entry TConversation.t, read_conversation this e.2)
      <$> last (index_of (keyPath_of s) (conversations (db this))).
Proof.
  intros Hlimit. rewrite getConversations_first_page.
  cbn [fst default from_option id openCursor].
  rewrite <- head_reverse.
  destruct (reverse _) as [|e rest]; [by destruct (Z.to_nat _)|].
  destruct (Z.to_nat (default 25%Z limit')) as [|n] eqn:Hn; [lia|]. done.
Qed.

(** X6: [updateConversation] moves a conversation to the top of the list: when
    the date it stamps is later than every other stored [updatedAt], the
    conversation is the first of the first page the application lists. *)
Theorem updateConversation_first iso amb c id this :
  TConversation.conversationId c = Some id →
  truthy (Some iso) = true →
  (∀ k stored u, conversations (db this) !! k = Some stored → k ≠ id →
     TConversation.updatedAt stored = Some u → String.ltb u iso = true) →
  ∃ this' first,
    clientDataService.updateConversation iso amb c this
    = (Return (TConversation.set_updatedAt (Some iso) c), this')
    ∧ head (clientDataService.getConversations None this').1 = Some first
    ∧ TConversation.conversationId first = Some id
    ∧ TConversation.updatedAt first = Some iso.
Proof.
  intros Hid Hiso Hlater.
  set (c' := TConversation.set_updatedAt (Some iso) c).
  set (stored := storedConversation_of amb c' this).
  set (this' := with_db (with_conversations (<[id := stored]> (conversations (db this)))
                           (db this)) this).
  assert (clientDataService.updateConversation iso amb c this = (Return c', this')) as Hupd.
  { unfold clientDataService.updateConversation, storeConversation, put_conversation.
    fold c'. rewrite storedConversation_of_id. subst c'. simpl. by rewrite Hid. }
  assert (TConversation.updatedAt stored = Some iso) as Hupdated.
  { subst stored. rewrite storedConversation_of_updatedAt. simpl.
    unfold or_else. by rewrite Hiso. }
  exists this', (read_conversation this' stored). split; [done|].
  unfold clientDataService.getConversations.
  rewrite head_getConversations_desc by done.
  rewrite (last_index_of _ _ (KString iso, id, stored)); simpl.
  - split_and!; [done| |].
    + rewrite read_conversation_id. subst stored. by rewrite storedConversation_of_id.
    + pose proof (read_conversation_keyPath this' by_updatedAt stored) as Hkey.
      simpl in Hkey. rewrite Hupdated in Hkey.
      destruct (TConversation.updatedAt (read_conversation this' stored)); by simplify_eq/=.
  - apply elem_of_index_of. simpl. rewrite lookup_insert_eq, Hupdated. done.
  - intros [[ik k] v] [Hlook Hkey]%elem_of_index_of Hne. simpl in *.
    rewrite lookup_insert_ne in Hlook by done.
    destruct (TConversation.updatedAt v) as [u|] eqn:Hu; [|done].
    injection Hkey as <-.
    destruct (String_ltb_leb u iso) as [Hleb Hneq]; [by eapply Hlater|].
    unfold entry_leb. simpl. rewrite decide_False by congruence. done.
Qed.

(** X7: [getConversation] marks the conversation as the most recently accessed:
    when the clock is later than every other stored [lastAccessed], a
    listing by [lastAccessed] starts with it. *)
Theorem getConversation_most_recent amb id stored limit' this :
  conversations (db this) !! id = Some stored →
  TConversation.conversationId stored = Some id →
  (0 < default 25 limit')%Z →
  (∀ k other t, conversations (db this) !! k = Some other → k ≠ id →
     TConversation.lastAccessed other = Some t → (t < now amb)%Z) →
  ∃ c this',
    getConversation amb id this = (Some c, this')
    ∧ TConversation.lastAccessed c = Some (now amb)
    ∧ messages (db this') = messages (db this)
    ∧ settings (db this') = settings (db this)
    ∧ (∀ k, k ≠ id → conversations (db this') !! k = conversations (db this) !! k)
    ∧ head (getConversations
              (mkListOptions None limit' (Some by_lastAccessed) (Some desc)) this').1
      = Some c.
Proof.
  intros Hlook Hid Hlimit Hlater.
  set (touched := TConversation.set_lastAccessed (Some (now amb)) stored).
  set (this' := with_db (with_conversations (<[id := touched]> (conversations (db this)))
                           (db this)) this).
  assert (getConversation amb id this = (Some (read_conversation this' touched), this'))
    as Hget.
  { unfold getConversation, put_conversation. rewrite Hlook. simpl. by rewrite Hid. }
  exists (read_conversation this' touched), this'.
  split_and!; [done| |done|done| |].
  - pose proof (read_conversation_keyPath this' by_lastAccessed touched) as Hkey.
    simpl in Hkey.
    destruct (TConversation.lastAccessed (read_conversation this' touched));
      by simplify_eq/=.
  - intros k Hne. simpl. by rewrite lookup_insert_ne.
  - rewrite head_getConversations_desc by done.
    rewrite (last_index_of _ _ (KNumber (now amb), id, touched)); simpl; [done| |].
    + apply elem_of_index_of. simpl. by rewrite lookup_insert_eq.
    + intros [[ik k] v] [Hlook' Hkey]%elem_of_index_of Hne. simpl in *.
      rewrite lookup_insert_ne in Hlook' by done.
      destruct (TConversation.lastAccessed v) as [t|] eqn:Ht; [|done].
      injection Hkey as <-.
      pose proof (Hlater k v t Hlook' Hne Ht).
      unfold entry_leb. simpl. rewrite decide_False by (intros [=]; lia).
      apply Z.leb_le. lia.
Qed.

End most_recent.

Section storage_round_trips.
Context `{CryptoJS} `{JSDate} `{JSON TConversation.sensitive} `{JSON TMessage.sensitive}.
Implicit Types (this : ClientStorage) (id : string).

(** X8: Encryption is transparent: whatever the settings and the key, reading
    back a conversation that was stored returns the conversation with the
    three stamps of the storage and nothing else changed. *)
Theorem getConversation_storeConversation amb amb' c id this :
  TConversation.conversationId c = Some id →
  TConversation.encryptedData c = None →
  TConversation.encryptedAt c = None →
  (encryptionEnabled (getSettings this) && truthy (encryptionKey this) = true →
   round_trips (encryptionKey this) amb
     {| TConversation.s_promptPrefix := TConversation.promptPrefix c;
        TConversation.s_title := TConversation.title c |}) →
  ∃ this' this'',
    storeConversation amb c this = (Return (), this')
    ∧ getConversation amb' id this' = (Some (stamped amb amb' c), this'').
Proof.
  intros Hid Hblob Hat Hround.
  unfold storeConversation, put_conversation.
  rewrite storedConversation_of_id, Hid.
  eexists _, _. split; [done|].
  unfold getConversation, put_conversation. cbn [db with_db conversations with_conversations].
  rewrite lookup_insert_eq. cbn [TConversation.set_lastAccessed TConversation.conversationId].
  rewrite storedConversation_of_id, Hid. f_equal. f_equal.
  unfold read_conversation, storedConversation_of.
  cbn [encryptionKey with_db].
  destruct (encryptionEnabled (getSettings this) && truthy (encryptionKey this)) eqn:Hon.
  - apply andb_true_iff in Hon as Hkey. destruct Hkey as [_ Hkey].
    rewrite encrypt_Return by done. simpl. rewrite Hkey.
    erewrite decrypt_encrypt; [|done|by apply Hround|by apply encrypt_Return].
    unfold stamped, TConversation.spread_decrypted. destruct c; simpl in *.
    subst. by destruct title, promptPrefix.
  - simpl. rewrite Hblob. unfold stamped. destruct c; simpl in *. by subst.
Qed.

(** What a reader makes of the record [storeMessage] wrote. *)
Lemma read_message_storedMessage_of amb m this this' :
  encryptionKey this' = encryptionKey this →
  TMessage.encryptedData m = None →
  TMessage.encryptedAt m = None →
  (encryptionEnabled (getSettings this) && truthy (encryptionKey this) = true →
   round_trips (encryptionKey this) amb
     {| TMessage.s_text := TMessage.text m;
        TMessage.s_content := TMessage.content m |}) →
  read_message this' (storedMessage_of amb m this) = stamped_message amb m.
Proof.
  intros Hsame Hblob Hat Hround.
  unfold read_message, storedMessage_of. rewrite Hsame.
  destruct (encryptionEnabled (getSettings this) && truthy (encryptionKey this)) eqn:Hon.
  - apply andb_true_iff in Hon as Hkey. destruct Hkey as [_ Hkey].
    rewrite encrypt_Return by done. simpl. rewrite Hkey.
    erewrite decrypt_encrypt; [|done|by apply Hround|by apply encrypt_Return].
    unfold stamped_message, TMessage.spread_decrypted. destruct m; simpl in *.
    subst. by destruct text, content.
  - simpl. rewrite Hblob. unfold stamped_message. destruct m; simpl in *. by subst.
Qed.

(** X9: The same for a message: the listing of its conversation holds the
    message as it was given, with the two stamps of the storage. *)
Theorem getMessagesByConversationId_storeMessage amb m id this :
  TMessage.conversationId m = Some id →
  TMessage.encryptedData m = None →
  TMessage.encryptedAt m = None →
  (encryptionEnabled (getSettings this) && truthy (encryptionKey this) = true →
   round_trips (encryptionKey this) amb
     {| TMessage.s_text := TMessage.text m;
        TMessage.s_content := TMessage.content m |}) →
  stamped_message amb m
  ∈ getMessagesByConversationId id (storeMessage amb m this).2.
Proof.
  intros Hid Hblob Hat Hround.
  apply elem_of_getMessagesByConversationId.
  exists (TMessage.messageId m), (storedMessage_of amb m this). split_and!.
  - simpl. by rewrite storedMessage_of_id, lookup_insert_eq.
  - by rewrite (proj2 (storedMessage_of_unchanged amb m this)).
  - by rewrite read_message_storedMessage_of.
Qed.

(** X10: Storing is an upsert: a record stored under an id that is already there
    replaces it, and the counts go up by one only for a new id. *)
Theorem getStorageStats_store amb c id m this :
  TConversation.conversationId c = Some id →
  let after_c := getStorageStats (storeConversation amb c this).2 in
  let after_m := getStorageStats (storeMessage amb m this).2 in
  conversationCount after_c
  = (conversationCount (getStorageStats this)
     + if decide (is_Some (conversations (db this) !! id)) then 0 else 1)%nat
  ∧ messageCount after_c = messageCount (getStorageStats this)
  ∧ messageCount after_m
    = (messageCount (getStorageStats this)
       + if decide (is_Some (messages (db this) !! TMessage.messageId m)) then 0 else 1)%nat
  ∧ conversationCount after_m = conversationCount (getStorageStats this).
Proof.
  intros Hid after_c after_m. subst after_c after_m.
  unfold storeConversation, put_conversation.
  rewrite storedConversation_of_id, Hid. simpl.
  rewrite storedMessage_of_id, !map_size_insert.
  split_and!; [|done| |done].
  - destruct (decide _) as [[? ->]|Hnone]; simpl; [lia|].
    apply eq_None_not_Some in Hnone. rewrite Hnone. lia.
  - destruct (decide _) as [[? ->]|Hnone]; simpl; [lia|].
    apply eq_None_not_Some in Hnone. rewrite Hnone. lia.
Qed.

Lemma size_foldl_delete {A} (visit : list (entry A)) : ∀ store : gmap string A,
  NoDup ((λ e : entry A, e.1.2) <$> visit) →
  (∀ e, e ∈ visit → is_Some (store !! e.1.2)) →
  (size (foldl (λ store e, delete e.1.2 store) store visit) + List.length visit
   = size store)%nat.
Proof.
  induction visit as [|e visit IH]; intros store Hnodup Hin; simpl; [lia|].
  rewrite fmap_cons in Hnodup. apply NoDup_cons in Hnodup as [Hnotin Hnodup].
  destruct (Hin e) as [v Hv]; [left|].
  assert (size store ≠ 0)%nat as Hpos.
  { intros Hz%map_size_empty_inv. by rewrite Hz in Hv. }
  pose proof (IH (delete e.1.2 store) Hnodup) as IH'.
  rewrite map_size_delete_Some in IH' by done.
  unfold entry in *. rewrite <- Nat.add_succ_comm, Nat.add_succ_l, IH'; [lia|].
  intros e' He'. rewrite lookup_delete_ne; [apply Hin; by right|].
  intros Heq. destruct Hnotin. apply list_elem_of_fmap. by exists e'.
Qed.

(** X11: What [deleteConversation] removes is what the listing showed: the
    message count goes down by the length of the listing, the conversation
    count by one when the conversation was stored. *)
Theorem deleteConversation_stats id this :
  let after := getStorageStats (deleteConversation id this) in
  (messageCount after + List.length (getMessagesByConversationId id this)
   = messageCount (getStorageStats this))%nat
  ∧ (conversationCount after
     + (if decide (is_Some (conversations (db this) !! id)) then 1 else 0)
     = conversationCount (getStorageStats this))%nat.
Proof.
  intros after. subst after. simpl. split.
  - rewrite (Permutation_length (getMessagesByConversationId_perm this id)), length_map.
    apply size_foldl_delete.
    + unfold messages_by_conversation, openCursor_only.
      eapply sublist_NoDup; [|apply fmap_sublist, sublist_filter].
      apply NoDup_index_of_keys.
    + intros e [Hlook _]%elem_of_messages_by_conversation. by rewrite Hlook.
  - rewrite map_size_delete.
    destruct (decide _) as [[c Hc]|Hnone].
    + rewrite Hc. assert (size (conversations (db this)) ≠ 0)%nat; [|lia].
      intros Hz%map_size_empty_inv. by rewrite Hz in Hc.
    + apply eq_None_not_Some in Hnone. rewrite Hnone. simpl. lia.
Qed.

(** X12: Deleting twice is deleting once, and two deletions commute. *)
Theorem deleteConversation_idempotent id id' this :
  deleteConversation id (deleteConversation id this) = deleteConversation id this
  ∧ deleteConversation id (deleteConversation id' this)
    = deleteConversation id' (deleteConversation id this).
Proof.
  assert (∀ this1 this2,
            conversations (db this1) = conversations (db this2) →
            messages (db this1) = messages (db this2) →
            settings (db this1) = settings (db this2) →
            encryptionKey this1 = encryptionKey this2 → this1 = this2) as Hext.
  { intros [[]] [[]]; simpl. by intros -> -> -> ->. }
  split; apply Hext; try done.
  - simpl. by rewrite delete_delete_eq.
  - apply map_eq. intros k. rewrite !deleteConversation_messages.
    destruct (messages (db this) !! k) as [m|]; [|done].
    destruct (decide (TMessage.conversationId m = Some id)) as [Hm|Hm]; [done|].
    by rewrite decide_False.
  - simpl. apply delete_delete.
  - apply map_eq. intros k. rewrite !deleteConversation_messages.
    destruct (messages (db this) !! k) as [m|]; [|done].
    destruct (decide (TMessage.conversationId m = Some id')) as [Hm'|Hm'];
      destruct (decide (TMessage.conversationId m = Some id)) as [Hm|Hm]; try done.
    + by rewrite decide_True.
    + by rewrite decide_False.
Qed.

Lemma index_of_empty {A} (keyPath : A → option IDBKey) : index_of keyPath ∅ = [].
Proof. unfold index_of. by rewrite map_to_list_empty. Qed.

(** X13: [clearAllData] empties the two record stores and forgets the saved
    key, and leaves the settings and the loaded key as they are. *)
Theorem clearAllData_post s :
  let s' := clearAllData s in
  getStorageStats (this s') = mkStorageStats 0 0 0
  ∧ (∀ options, getConversations options (this s') = ([], None))
  ∧ (∀ id, getMessagesByConversationId id (this s') = [])
  ∧ (∀ amb id, (getConversation amb id (this s')).1 = None)
  ∧ getSettings (this s') = getSettings (this s)
  ∧ encryptionKey (this s') = encryptionKey (this s)
  ∧ librechat_master_key s' = None.
Proof.
  intros s'. subst s'. split_and!; try done.
  - intros options. unfold getConversations. cbn [clearAllData this db conversations
      set_librechat_master_key set_this with_db].
    rewrite index_of_empty. by destruct (default desc (sortOrder options)).
Qed.

Lemma import_conversations_Return amb l : ∀ i this,
  Forall (λ c, is_Some (TConversation.conversationId c)) l →
  ∃ this', import_conversations amb i l this = (Return (), this')
           ∧ settings (db this') = settings (db this)
           ∧ encryptionKey this' = encryptionKey this.
Proof.
  induction l as [|c l IH]; intros i this Hall; simpl.
  - by exists this.
  - apply Forall_cons in Hall as [[k Hk] Hall].
    unfold storeConversation at 1, put_conversation.
    rewrite storedConversation_of_id, Hk.
    destruct (IH (S i) (with_db (with_conversations
                 (<[k:=storedConversation_of (amb i) c this]> (conversations (db this)))
                 (db this)) this) Hall) as (this' & -> & ? & ?).
    by exists this'.
Qed.

Lemma import_messages_Return amb l : ∀ i this,
  ∃ this', import_messages amb i l this = (Return (), this')
           ∧ settings (db this') = settings (db this)
           ∧ encryptionKey this' = encryptionKey this.
Proof.
  induction l as [|m l IH]; intros i this; simpl.
  - by exists this.
  - destruct (IH (S i) (with_db (put_message (storedMessage_of (amb i) m this) (db this))
                          this)) as (this' & -> & ? & ?).
    by exists this'.
Qed.

(** X14: An import that carries settings replaces the settings of the instance:
    when the imported settings say that encryption is off, every later
    store call writes its record in plain text, although the key stays
    loaded. *)
Theorem importData_settings amb data s this :
  Forall (λ c, is_Some (TConversation.conversationId c)) (b_conversations data) →
  b_settings data = Some s →
  ∃ this',
    importData amb data this = (Return (), this')
    ∧ getSettings this' = s
    ∧ encryptionKey this' = encryptionKey this
    ∧ (encryptionEnabled s = false →
       ∀ amb' c m,
         storedConversation_of amb' c this'
         = TConversation.set_updatedAt
             (or_else (TConversation.updatedAt c) (now_iso amb'))
             (TConversation.set_syncStatus (Some local)
                (TConversation.set_lastAccessed (Some (now amb')) c))
         ∧ storedMessage_of amb' m this' = stamped_message amb' m).
Proof.
  intros Hall Hs. unfold importData.
  destruct (import_conversations_Return amb _ 0 this Hall) as (this1 & -> & Hs1 & Hk1).
  destruct (import_messages_Return amb (b_messages data)
              (List.length (b_conversations data)) this1) as (this2 & -> & Hs2 & Hk2).
  rewrite Hs. eexists. split; [done|].
  split_and!; [apply getSettings_updateSettings|simpl; congruence|].
  intros Hoff amb' c m.
  unfold storedConversation_of, storedMessage_of.
  by rewrite getSettings_updateSettings, Hoff.
Qed.

(** What [exportData] exports of a store of at most 10000 conversations,
    each with its [updatedAt]. *)
Lemma elem_of_exportData_conversations amb this c' :
  (Z.of_nat (size (conversations (db this))) ≤ 10000)%Z →
  map_Forall (λ _ c, is_Some (TConversation.updatedAt c)) (conversations (db this)) →
  c' ∈ b_conversations (exportData amb this) ↔
  ∃ k stored, conversations (db this) !! k = Some stored
              ∧ c' = read_conversation this stored.
Proof.
  intros Hsize Hupdated. cbn [exportData b_conversations].
  rewrite getConversations_first_page. cbn [fst].
  destruct (openCursor_within_limit (Some 10000%Z) by_updatedAt prev this Hsize)
    as [Hall _].
  cbn [default from_option id] in *. rewrite Hall, elem_of_read_openCursor. split.
  - intros (k & stored & ? & _ & ?). eauto.
  - intros (k & stored & Hlook & ->). exists k, stored. split_and!; [done| |done].
    simpl. destruct (Hupdated k stored Hlook) as [u ->]. by eexists.
Qed.

Lemma elem_of_exportData_messages amb this m' :
  keyed this →
  (Z.of_nat (size (conversations (db this))) ≤ 10000)%Z →
  map_Forall (λ _ c, is_Some (TConversation.updatedAt c)) (conversations (db this)) →
  m' ∈ b_messages (exportData amb this) ↔
  ∃ k m id, messages (db this) !! k = Some m
            ∧ TMessage.conversationId m = Some id
            ∧ is_Some (conversations (db this) !! id)
            ∧ m' = read_message this m.
Proof.
  intros [Hconv _] Hsize Hupdated.
  pose proof (λ c', elem_of_exportData_conversations amb this c' Hsize Hupdated) as Hcs.
  cbn [exportData b_messages b_conversations] in *.
  rewrite list_elem_of_In, in_flat_map. split.
  - intros (c & Hc%list_elem_of_In & Hm').
    apply Hcs in Hc as (k & stored & Hlook & ->).
    rewrite read_conversation_id, (Hconv _ _ Hlook) in Hm'.
    apply list_elem_of_In, elem_of_getMessagesByConversationId in Hm'
      as (k' & m & Hm & Hid & ->).
    exists k', m, k. by rewrite Hlook.
  - intros (k' & m & id & Hm & Hid & [stored Hlook] & ->).
    exists (read_conversation this stored). split.
    + apply list_elem_of_In, Hcs. eauto.
    + rewrite read_conversation_id, (Hconv _ _ Hlook).
      apply list_elem_of_In, elem_of_getMessagesByConversationId. eauto.
Qed.

(** X15: [exportData] on a store of at most 10000 conversations, each with its
    [updatedAt]: every conversation is exported, and of the messages those
    whose conversation is stored; a message of a conversation that is not
    stored is left out. *)
Theorem exportData_contents amb this :
  keyed this →
  (Z.of_nat (size (conversations (db this))) ≤ 10000)%Z →
  map_Forall (λ _ c, is_Some (TConversation.updatedAt c)) (conversations (db this)) →
  let data := exportData amb this in
  (∀ c', c' ∈ b_conversations data ↔
      ∃ k stored, conversations (db this) !! k = Some stored
                  ∧ c' = read_conversation this stored)
  ∧ (∀ m', m' ∈ b_messages data ↔
      ∃ k m id, messages (db this) !! k = Some m
                ∧ TMessage.conversationId m = Some id
                ∧ is_Some (conversations (db this) !! id)
                ∧ m' = read_message this m)
  ∧ b_settings data = Some (getSettings this).
Proof.
  intros Hkeyed Hsize Hupdated data. split_and!; [| |done].
  - intros c'. by apply elem_of_exportData_conversations.
  - intros m'. by apply elem_of_exportData_messages.
Qed.

End storage_round_trips.

Section ensure_initialized.
Context `{CryptoJS}.
Variable openDB_ok : nat → bool.
Variable random_key : nat → string.
Variable iso_at : nat → string.

(** X16: While every [openDB] resolves, no method of an instance that is not
    initialized returns: each awaits [ensureInitialized], which starts
    [initializeStorage], which awaits [getSettings], which awaits
    [ensureInitialized] again. *)
Theorem ensureInitialized_never_returns fuel s settings :
  (∀ n, openDB_ok n = true) → isInitialized s = false →
  ensureInitialized openDB_ok random_key iso_at fuel s = None
  ∧ getSettings_init (ensureInitialized openDB_ok random_key iso_at fuel) s = None
  ∧ updateSettings_init iso_at (ensureInitialized openDB_ok random_key iso_at fuel)
      settings s = None.
Proof.
  intros Hopen Hinit.
  assert (ensureInitialized openDB_ok random_key iso_at fuel s = None) as Hnone.
  { unfold ensureInitialized. rewrite Hinit.
    by apply initializeStorage_never_returns. }
  unfold getSettings_init, updateSettings_init. by rewrite Hnone.
Qed.

End ensure_initialized.

Section backup.
Context `{CryptoJS} `{JSDate} `{JSON TConversation.sensitive} `{JSON TMessage.sensitive}.
Context `{JSON BackupData} `{ErrorMessages}.
Implicit Types (this : ClientStorage) (id : string).

Import ServerBackupService.

Lemma decryptBackup_Return {A} `{JSON A} key backup (y : A) :
  decryptBackup key backup = Return y →
  ∃ dataString, JSON_parse dataString = Some y
                ∧ SHA256 dataString = checksum backup.
Proof.
  unfold decryptBackup. destruct (negb (truthy key)); [done|].
  destruct (enc_Utf8 _) as [s|]; [|done].
  destruct (JSON_parse s) as [y'|] eqn:Hy; [|done].
  case_bool_decide as Hsum; [|done].
  intros [= <-]. exists s. by split.
Qed.

Lemma decryptBackup_encryptBackup_Return {A} `{JSON A} key amb (x : A) :
  truthy key = true → round_trips key amb x →
  ∃ backup, encryptBackup key amb x = Return backup
            ∧ decryptBackup key backup = Return x.
Proof.
  intros Hkey [Hcipher Hjson].
  unfold encryptBackup, decryptBackup. rewrite Hkey. simpl.
  eexists. split; [done|]. simpl. rewrite Hcipher, Hjson.
  by rewrite bool_decide_eq_true_2.
Qed.

(** X17: A backup decrypts to what was encrypted, a backup whose checksum field
    was changed is refused, and whatever [decryptBackup] returns agrees
    with the checksum that came with it. *)
Theorem decryptBackup_encryptBackup {A} `{JSON A} key amb (x : A) :
  truthy key = true → round_trips key amb x →
  ∃ backup,
    encryptBackup key amb x = Return backup
    ∧ decryptBackup key backup = Return x
    ∧ (∀ c, c ≠ checksum backup →
         decryptBackup (A := A) key
           {| backup_data := backup_data backup;
              backup_iv := backup_iv backup;
              backup_timestamp := backup_timestamp backup;
              checksum := c |}
         = Throw (Error "Backup data integrity check failed"))
    ∧ ∀ key' backup' (y : A),
        decryptBackup key' backup' = Return y →
        ∃ dataString, JSON_parse dataString = Some y
                      ∧ SHA256 dataString = checksum backup'.
Proof.
  intros Hkey [Hcipher Hjson].
  unfold encryptBackup, decryptBackup. rewrite Hkey. simpl.
  eexists. split; [done|]. simpl. rewrite Hcipher, Hjson.
  split_and!.
  - by rewrite bool_decide_eq_true_2.
  - intros c Hc. by rewrite bool_decide_eq_false_2.
  - apply decryptBackup_Return.
Qed.

Lemma import_conversations_dom amb l : ∀ i this this',
  import_conversations amb i l this = (Return (), this') →
  dom (conversations (db this)) ⊆ dom (conversations (db this'))
  ∧ ∀ c k, c ∈ l → TConversation.conversationId c = Some k →
      k ∈ dom (conversations (db this')).
Proof.
  induction l as [|c l IH]; intros i this this'; simpl.
  - intros [= <-]. split; [done|]. intros c k Hc. by apply elem_of_nil in Hc.
  - unfold storeConversation at 1, put_conversation.
    rewrite storedConversation_of_id.
    destruct (TConversation.conversationId c) as [k0|] eqn:Hk0; [|done].
    intros [Hsub Hin]%IH. simpl in Hsub. rewrite dom_insert in Hsub. split.
    + etrans; [|exact Hsub]. apply union_subseteq_r.
    + intros c' k [->|Hc']%elem_of_cons Hk; [|by eapply Hin].
      assert (k = k0) as -> by congruence.
      apply Hsub, elem_of_union_l. by apply elem_of_singleton.
Qed.

Lemma import_messages_dom amb l : ∀ i this this',
  import_messages amb i l this = (Return (), this') →
  dom (messages (db this)) ⊆ dom (messages (db this'))
  ∧ conversations (db this') = conversations (db this)
  ∧ ∀ m, m ∈ l → TMessage.messageId m ∈ dom (messages (db this')).
Proof.
  induction l as [|m l IH]; intros i this this'; simpl.
  - intros [= <-]. split_and!; [done..|]. intros m Hm. by apply elem_of_nil in Hm.
  - intros (Hsub & Hconv & Hin)%IH. simpl in Hsub, Hconv.
    rewrite storedMessage_of_id, dom_insert in Hsub. split_and!; [|done|].
    + etrans; [|exact Hsub]. apply union_subseteq_r.
    + intros m' [->|Hm']%elem_of_cons; [|by apply Hin].
      apply Hsub, elem_of_union_l. by apply elem_of_singleton.
Qed.

(** X18: Restoring on one instance the backup made of another: the restore
    succeeds, and afterwards the instance holds every conversation of the
    source, every message of the source whose conversation the source
    holds, and the settings of the source. *)
Theorem restoreBackup_exportData key amb_export amb_backup amb source target :
  keyed source →
  (Z.of_nat (size (conversations (db source))) ≤ 10000)%Z →
  map_Forall (λ _ c, is_Some (TConversation.updatedAt c)) (conversations (db source)) →
  truthy key = true →
  round_trips key amb_backup (mkBackupData (exportData amb_export source) "1.0.0") →
  ∃ backup target',
    encryptBackup key amb_backup (mkBackupData (exportData amb_export source) "1.0.0")
    = Return backup
    ∧ restoreBackup key true (Return backup) amb target
      = ({| success := true; error := None |}, target')
    ∧ dom (conversations (db source)) ⊆ dom (conversations (db target'))
    ∧ (∀ k m id, messages (db source) !! k = Some m →
         TMessage.conversationId m = Some id →
         is_Some (conversations (db source) !! id) →
         k ∈ dom (messages (db target')))
    ∧ getSettings target' = getSettings source.
Proof.
  intros Hkeyed Hsize Hupdated Hkey Hround.
  destruct (decryptBackup_encryptBackup_Return key amb_backup _ Hkey Hround)
    as (backup & Henc & Hdec).
  pose proof (λ c', elem_of_exportData_conversations amb_export source c' Hsize Hupdated)
    as Hcs.
  pose proof (λ m', elem_of_exportData_messages amb_export source m' Hkeyed Hsize Hupdated)
    as Hms.
  assert (b_settings (exportData amb_export source) = Some (getSettings source))
    as Hsettings by done.
  destruct Hkeyed as [Hconv Hmsg].
  set (data := exportData amb_export source) in *.
  assert (Forall (λ c, is_Some (TConversation.conversationId c)) (b_conversations data))
    as Hids.
  { apply Forall_forall. intros c (k & stored & Hlook & ->)%Hcs.
    rewrite read_conversation_id, (Hconv _ _ Hlook). by eexists. }
  destruct (import_conversations_Return amb _ 0 target Hids) as (t1 & Hi1 & Hs1 & Hk1).
  destruct (import_messages_Return amb (b_messages data)
              (List.length (b_conversations data)) t1) as (t2 & Hi2 & Hs2 & Hk2).
  exists backup. eexists. split; [done|].
  unfold restoreBackup. cbn [negb]. rewrite Hdec. cbn [localData].
  unfold importData. rewrite Hi1, Hi2, Hsettings. split; [done|].
  apply import_conversations_dom in Hi1 as [_ Hin1].
  apply import_messages_dom in Hi2 as (_ & Hconv2 & Hin2).
  simpl. split_and!.
  - intros k [stored Hlook]%elem_of_dom. rewrite Hconv2.
    apply (Hin1 (read_conversation source stored)).
    + apply Hcs. eauto.
    + by rewrite read_conversation_id, (Hconv _ _ Hlook).
  - intros k m id Hlook Hid Hstored.
    rewrite <- (Hmsg _ _ Hlook), <- (proj1 (proj2 (read_message_unchanged source m))).
    apply Hin2, Hms. by exists k, m, id.
  - apply getSettings_updateSettings.
Qed.

End backup.

Section files.
Import ClientFileProcessor.
Context `{FileHost} `{ErrorMessages}.

Lemma getSupportedTypes_allowed provider types :
  getSupportedTypes provider = Some types →
  Forall (λ t, t ∈ default [] (allowedTypes DEFAULT_OPTIONS)) types.
Proof.
  unfold getSupportedTypes, get_property, providerSupport. cbn [assoc].
  repeat case_bool_decide; intros [= <-];
    apply (bool_decide_unpack _); vm_compute; reflexivity.
Qed.

(** X20: A type [getSupportedTypes] lists for a provider, any provider, passes
    the validation of a processor built without limits of its own (or with
    a [maxSize] of 0, which reads as none), for a file of at most 20 MB. *)
Theorem getSupportedTypes_validateFile provider types options file :
  maxSize options = None ∨ maxSize options = Some 0%Z →
  allowedTypes options = None →
  getSupportedTypes provider = Some types →
  type file ∈ types →
  (size file ≤ 20 * 1024 * 1024)%Z →
  validateFile (new options) file = valid.
Proof.
  intros Hmax Htypes Hsupported Hin Hsize. unfold validateFile, new.
  cbn [maxSize allowedTypes]. rewrite Htypes.
  assert (or_number (spread (maxSize DEFAULT_OPTIONS) (maxSize options))
            (default 0%Z (maxSize DEFAULT_OPTIONS)) = (20 * 1024 * 1024)%Z) as ->.
  { by destruct Hmax as [->| ->]. }
  destruct (Z.ltb_spec (20 * 1024 * 1024) (size file)) as [|_]; [lia|].
  rewrite bool_decide_eq_true_2; [done|].
  pose proof (getSupportedTypes_allowed provider types Hsupported) as Hall.
  rewrite Forall_forall in Hall. by apply Hall.
Qed.

Lemma validateFile_error options file error :
  validateFile options file = invalid error → truthy (Some error) = true.
Proof.
  unfold validateFile. destruct (_ <? _)%Z; [by intros [= <-]|].
  destruct (negb _); [by intros [= <-]|done].
Qed.

(** X21: A file that fails the validation is read by nobody and is never turned
    into a message part: [processFile] returns it with the validation
    error, and [convertToLLMFormat] throws on that for every provider. *)
Theorem convertToLLMFormat_invalid options file error provider :
  validateFile options file = invalid error →
  processFile options file = failed file error
  ∧ convertToLLMFormat (processFile options file) provider
    = Throw (Error ("File processing error: " ++ error)).
Proof.
  intros Hinvalid. unfold processFile. rewrite Hinvalid. split; [done|].
  unfold convertToLLMFormat. cbn [p_error failed].
  by rewrite (validateFile_error _ _ _ Hinvalid).
Qed.

End files.

Section configuration.
Import ClientConfigManager.
Context `{ConfigJSON}.
Implicit Types (s : State).

Lemma get_feature_set_feature f b fs : get_feature f (set_feature f b fs) = b.
Proof. by destruct f. Qed.

Lemma get_set {A} (object : Object A) key (value : A) :
  key ≠ "__proto__" → get (set object key value) key = own value.
Proof.
  intros Hkey. unfold get, set.
  rewrite bool_decide_eq_false_2 by done. simpl. by rewrite lookup_insert_eq.
Qed.

Lemma isFeatureEnabled_toggleFeature f s :
  isFeatureEnabled f (toggleFeature f s) = negb (isFeatureEnabled f s).
Proof.
  unfold isFeatureEnabled, toggleFeature. simpl. unfold features_of at 1. simpl.
  rewrite lookup_insert_eq. simpl. by rewrite get_feature_set_feature.
Qed.

Lemma features_of_toggleFeature f s l :
  l ≠ c_features (config s) →
  features_of (heap (toggleFeature f s)) l = features_of (heap s) l.
Proof.
  intros Hl. unfold toggleFeature. simpl. unfold features_of at 1. simpl.
  by rewrite lookup_insert_ne.
Qed.

Lemma isFeatureEnabled_resetToDefaults f s :
  isFeatureEnabled f (resetToDefaults s) = get_feature f (features_of (heap s) 0).
Proof. done. Qed.

Lemma config_toggleFeature f s : config (toggleFeature f s) = config s.
Proof. done. Qed.

Lemma heap_resetToDefaults s : heap (resetToDefaults s) = heap s.
Proof. done. Qed.

Lemma config_resetToDefaults s : config (resetToDefaults s) = DEFAULT_CONFIG.
Proof. done. Qed.

(** X22: [resetToDefaults] does not undo what was changed since the last reset:
    after a reset [this.config] shares the [features] and the
    [preferredModels] object with [DEFAULT_CONFIG], so [toggleFeature] and
    [setPreferredModel] change the defaults themselves. *)
Theorem resetToDefaults_keeps_changes feature providerId modelId s :
  truthy (Some modelId) = true → providerId ≠ "__proto__" →
  let s1 := resetToDefaults s in
  isFeatureEnabled feature (resetToDefaults (toggleFeature feature s1))
  = negb (isFeatureEnabled feature s1)
  ∧ getPreferredModel providerId
      (resetToDefaults (setPreferredModel providerId modelId s1))
    = Return (Some modelId).
Proof.
  intros Hmodel Hkey s1. split.
  - rewrite <- isFeatureEnabled_toggleFeature. done.
  - unfold getPreferredModel, preferredModels_of. simpl.
    rewrite lookup_insert_eq. simpl. rewrite get_set by done. by destruct modelId.
Qed.

Lemma fresh_not_0 {A} (m : gmap loc A) : fresh m ≠ 0.
Proof. done. Qed.

(** X23: After [importConfig] the configuration has a [features] object of its
    own: a toggle then changes that object only, and [resetToDefaults]
    brings back the value of the defaults. *)
Theorem importConfig_resetToDefaults configJson stored feature s :
  parse configJson = Some stored →
  let s1 := (importConfig configJson s).2 in
  (importConfig configJson s).1 = Return ()
  ∧ isFeatureEnabled feature s1
    = default (get_feature feature (features_of (heap s) 0))
        (s_features stored ≫= λ fs,
           match feature with
           | f_clientStorageEnabled => s_clientStorageEnabled fs
           | f_offlineModeEnabled => s_offlineModeEnabled fs
           | f_encryptionEnabled => s_encryptionEnabled fs
           | f_backupEnabled => s_backupEnabled fs
           end)
  ∧ isFeatureEnabled feature (toggleFeature feature s1)
    = negb (isFeatureEnabled feature s1)
  ∧ isFeatureEnabled feature (resetToDefaults (toggleFeature feature s1))
    = get_feature feature (features_of (heap s) 0).
Proof.
  intros Hparse s1. subst s1. unfold importConfig. rewrite Hparse.
  split_and!; [done| |apply isFeatureEnabled_toggleFeature|].
  - unfold isFeatureEnabled, features_of at 1. simpl. rewrite lookup_insert_eq. simpl.
    destruct (s_features stored) as [fs|]; [|done]. simpl.
    destruct feature; simpl; by destruct fs as [[] [] [] []].
  - rewrite isFeatureEnabled_resetToDefaults, features_of_toggleFeature.
    + unfold features_of at 1. simpl. by rewrite lookup_insert_ne.
    + simpl. by intros ?%symmetry%fresh_not_0.
Qed.

Lemma getProvider_own providerId s p :
  getProvider providerId s = own p →
  ∃ l, providers (config s) !! providerId = Some l
       ∧ provider_objects (heap s) !! l = Some p.
Proof.
  unfold getProvider, get.
  destruct (providers (config s) !! providerId) as [l|]; [|by case_bool_decide].
  destruct (provider_objects (heap s) !! l) as [p'|] eqn:Hp; [|done].
  intros [= <-]. eauto.
Qed.

(** X24: [addCustomModel] appends and never replaces: when the provider already
    has a model with the id, [getModel] keeps returning that one; and
    [removeCustomModel] removes every model with the id, the provider's own
    ones too. *)
Theorem addCustomModel_getModel providerId model s p :
  getProvider providerId s = own p →
  ∃ s',
    addCustomModel providerId model s = (Return (), s')
    ∧ getModel providerId (id model) s'
      = Return (Some (default (set_provider providerId model)
                        (snd <$> list_find (λ m, id m = id model) (models p))))
    ∧ getModelsForProvider providerId s'
      = Return (filter (λ m, enabled m ≠ Some false)
                  (models p ++ [set_provider providerId model])%list)
    ∧ getModel providerId (id model)
        (removeCustomModel providerId (id model) s').2
      = Return None.
Proof.
  intros (l & Hl & Hp)%getProvider_own.
  unfold addCustomModel, get. rewrite Hl, Hp. eexists. split; [done|].
  set (p' := set_models (models p ++ [set_provider providerId model])%list p).
  assert (∀ s0 q, providers (config s0) !! providerId = Some l →
            provider_objects (heap s0) !! l = Some q →
            getProvider providerId s0 = own q) as Hown.
  { intros s0 q H1 H2. unfold getProvider, get. by rewrite H1, H2. }
  assert (getProvider providerId (saveConfig (write_provider l p' s)) = own p') as Hp'.
  { apply Hown; [done|]. simpl. by rewrite lookup_insert_eq. }
  split_and!.
  - unfold getModel. rewrite Hp'. do 2 f_equal. simpl.
    destruct (list_find _ (models p)) as [[i old]|] eqn:Hfind.
    + by rewrite (list_find_app_l _ _ _ _ _ Hfind).
    + rewrite list_find_app_r by done. simpl. by rewrite decide_True.
  - unfold getModelsForProvider. by rewrite Hp'.
  - unfold removeCustomModel, get. simpl. rewrite Hl, lookup_insert_eq. cbn [snd].
    unfold getModel. erewrite Hown; [|done|simpl; by rewrite lookup_insert_eq].
    do 2 f_equal. simpl.
    destruct (list_find _ _) as [[i m]|] eqn:Hfind; [|done].
    apply list_find_Some in Hfind as (Hin & Hid & _).
    apply list_elem_of_lookup_2, list_elem_of_filter in Hin as [Hne _]. done.
Qed.

(** X25: The preferred model of a provider need not be one of its models:
    removing the model that is preferred leaves the preference in place. *)
Theorem removeCustomModel_getPreferredModel providerId modelId s p :
  getProvider providerId s = own p →
  get (preferredModels_of (heap s) (preferredModels (config s))) providerId
  = own modelId →
  truthy (Some modelId) = true →
  let s' := (removeCustomModel providerId modelId s).2 in
  (removeCustomModel providerId modelId s).1 = Return ()
  ∧ getModel providerId modelId s' = Return None
  ∧ getPreferredModel providerId s' = Return (Some modelId).
Proof.
  intros (l & Hl & Hp)%getProvider_own Hpref Hmodel s'. subst s'.
  unfold removeCustomModel, get. rewrite Hl, Hp. cbn [fst snd].
  split_and!; [done| |].
  - unfold getModel, getProvider, get. simpl. rewrite Hl, lookup_insert_eq. simpl.
    do 2 f_equal.
    destruct (list_find _ _) as [[i m]|] eqn:Hfind; [|done].
    apply list_find_Some in Hfind as (Hin & Hid & _).
    apply list_elem_of_lookup_2, list_elem_of_filter in Hin as [Hne _]. done.
  - unfold getPreferredModel. simpl.
    change (preferredModels_of _ (preferredModels (config s)))
      with (preferredModels_of (heap s) (preferredModels (config s))).
    rewrite Hpref. by destruct modelId.
Qed.

End configuration.

Section service.
Context `{CryptoJS} `{JSDate} `{JSON TConversation.sensitive} `{JSON TMessage.sensitive}.
Context `{Constants}.
Implicit Types (this : ClientStorage) (id : string).

Lemma or_else_truthy a b : truthy (Some b) = true → truthy (or_else a b) = true.
Proof. unfold or_else. by destruct (truthy a) eqn:Ha. Qed.

Lemma or_else_idemp a b c :
  truthy (Some b) = true → or_else (or_else a b) c = or_else a b.
Proof.
  intros Hb. unfold or_else at 1. by rewrite or_else_truthy.
Qed.

(** X19: A message stored through the data service is listed by the data
    service with the date the service gave it, unless its conversation is
    the new or the pending one: such a message is stored and counted, and
    never listed. *)
Theorem getMessagesByConvoId_storeMessage iso amb m id this :
  truthy (Some iso) = true →
  TMessage.conversationId m = Some id →
  TMessage.encryptedData m = None →
  TMessage.encryptedAt m = None →
  (encryptionEnabled (getSettings this) && truthy (encryptionKey this) = true →
   round_trips (encryptionKey this) amb
     {| TMessage.s_text := TMessage.text m;
        TMessage.s_content := TMessage.content m |}) →
  let result := clientDataService.storeMessage iso amb m this in
  let stored := TMessage.set_createdAt (or_else (TMessage.createdAt m) iso) m in
  result.1 = Return stored
  ∧ is_Some (messages (db result.2) !! TMessage.messageId m)
  ∧ if bool_decide (id = NEW_CONVO) || bool_decide (id = PENDING_CONVO)
    then clientDataService.getMessagesByConvoId id result.2 = []
    else TMessage.set_syncStatus (Some local) stored
         ∈ clientDataService.getMessagesByConvoId id result.2.
Proof.
  intros Hiso Hid Hblob Hat Hround result stored. subst result.
  unfold clientDataService.storeMessage, clientDataService.getMessagesByConvoId.
  fold stored. cbn [storeMessage fst snd]. split_and!; [done| |].
  - simpl. rewrite storedMessage_of_id, lookup_insert_eq. by eexists.
  - destruct (_ || _); [done|].
    assert (TMessage.set_syncStatus (Some local) stored = stamped_message amb stored) as ->.
    { unfold stamped_message. subst stored. simpl.
      rewrite or_else_idemp by done. by destruct m. }
    apply elem_of_getMessagesByConversationId.
    exists (TMessage.messageId m), (storedMessage_of amb stored this). split_and!.
    + simpl. by rewrite storedMessage_of_id, lookup_insert_eq.
    + by rewrite (proj2 (storedMessage_of_unchanged amb stored this)).
    + by rewrite read_message_storedMessage_of.
Qed.

End service.

Section configuration_import.
Import ClientConfigManager.
Context `{ConfigJSON}.
Implicit Types (s : State).

Lemma lookup_fresh {A} (m : gmap loc A) : m !! fresh m = None.
Proof.
  apply not_elem_of_dom. intros Hin%elem_of_elements%max_list_elem_of_le.
  unfold fresh in Hin. lia.
Qed.

(** Allocation gives every parsed provider an object of its own and
    leaves the objects that were there as they are. *)
Lemma alloc_providers_spec (parsed : Object ProviderConfig) objects :
  let r := alloc_providers parsed objects in
  (∀ k, r.1 !! k = None ↔ parsed !! k = None)
  ∧ (∀ k p, parsed !! k = Some p → ∃ l, r.1 !! k = Some l ∧ r.2 !! l = Some p)
  ∧ (∀ l p, objects !! l = Some p → r.2 !! l = Some p).
Proof.
  unfold alloc_providers.
  apply (map_fold_weak_ind
           (λ (r : Object loc * gmap loc ProviderConfig) (m : Object ProviderConfig),
              (∀ k, r.1 !! k = None ↔ m !! k = None)
              ∧ (∀ k p, m !! k = Some p → ∃ l, r.1 !! k = Some l ∧ r.2 !! l = Some p)
              ∧ (∀ l p, objects !! l = Some p → r.2 !! l = Some p))).
  - split_and!; [done| |done]. intros k p Hk. by rewrite lookup_empty in Hk.
  - intros k p m r Hnone (Hdom & Hparsed & Hold). simpl. split_and!.
    + intros k'. destruct (decide (k = k')) as [->|Hne].
      * by rewrite !lookup_insert_eq.
      * by rewrite !lookup_insert_ne.
    + intros k' p'. destruct (decide (k = k')) as [->|Hne].
      * rewrite !lookup_insert_eq. intros [= ->].
        exists (fresh r.2). by rewrite lookup_insert_eq.
      * rewrite !lookup_insert_ne by done. intros (l & Hl & Hp)%Hparsed.
        exists l. split; [done|]. rewrite lookup_insert_ne; [done|].
        intros <-. by rewrite lookup_fresh in Hp.
    + intros l p' Hl%Hold. rewrite lookup_insert_ne; [done|].
      intros <-. by rewrite lookup_fresh in Hl.
Qed.

(** X26: What [importConfig] makes of the providers: a provider of the imported
    configuration is used as imported, and a provider of the defaults that
    the imported configuration does not have is there again, as the
    defaults have it now. *)
Theorem importConfig_getProvider configJson stored providerId s :
  parse configJson = Some stored →
  let s' := (importConfig configJson s).2 in
  match default ∅ (s_providers stored) !! providerId with
  | Some p => getProvider providerId s' = own p
  | None =>
      ∀ l p, DEFAULT_PROVIDER_CONFIGS !! providerId = Some l →
             provider_objects (heap s) !! l = Some p →
             getProvider providerId s' = own p
  end.
Proof.
  intros Hparse s'. subst s'. unfold importConfig. rewrite Hparse.
  destruct (alloc_providers_spec (default ∅ (s_providers stored))
              (provider_objects (heap s))) as (Hdom & Hparsed & Hold).
  unfold getProvider, get. cbn [snd saveConfig config heap mergeWithDefaults fst
    providers provider_objects]. unfold spread_object.
  destruct (default ∅ (s_providers stored) !! providerId) as [p|] eqn:Hp.
  - destruct (Hparsed _ _ Hp) as (l & Hl & Hobj).
    rewrite (lookup_union_Some_l _ _ _ _ Hl). by rewrite Hobj.
  - intros l p Hl Hobj. apply Hdom in Hp.
    rewrite lookup_union_r by done. rewrite Hl. by rewrite (Hold _ _ Hobj).
Qed.

End configuration_import.

Section examples.
Import Host Scenario Browser Examples.

(** Pages of two over the three conversations. *)
Lemma three_conversations_NoDup :
  let page := (getConversations (page_size 2) three).1 in
  NoDup (TConversation.conversationId <$> page)
  ∧ ∀ c, c ∈ page →
      ∃ k stored, conversations (db three) !! k = Some stored
                  ∧ TConversation.conversationId c = Some k
                  ∧ c = read_conversation three stored.
Proof.
  apply getConversations_NoDup.
  split; apply (bool_decide_unpack _); vm_compute; reflexivity.
Defined.

Lemma three_conversations_everything :
  let result := getConversations (mkListOptions None (Some 10%Z) None None) three in
  result.2 = None
  ∧ ∀ c, c ∈ result.1 ↔
      ∃ k stored, conversations (db three) !! k = Some stored
                  ∧ is_Some (keyPath_of (default by_updatedAt None) stored)
                  ∧ c = read_conversation three stored.
Proof.
  apply (getConversations_everything (Some 10%Z) None None three).
  vm_compute. discriminate.
Defined.

Lemma three_conversations_after_deleting_b :
  getConversations (mkListOptions (Some "b") (Some 1%Z) None None)
    (deleteConversation "b" three)
  = ([], None).
Proof.
  apply getConversations_after_deleting_cursor; [|reflexivity|reflexivity].
  split; apply (bool_decide_unpack _); vm_compute; reflexivity.
Defined.

Lemma three_conversations_limit_0 :
  follow_pages 4 (page_size 0) three = replicate 4 [].
Proof.
  apply (follow_pages_nonpositive_limit 4 (page_size 0) three "b" entry_b.2).
  - vm_compute. discriminate.
  - split; apply (bool_decide_unpack _); vm_compute; reflexivity.
  - vm_compute. reflexivity.
  - vm_compute. by eexists.
Defined.

Lemma three_conversations_update_c :
  ∃ this' first,
    clientDataService.updateConversation "2024-03-01T00:00:00.000Z" (at_time 7000) c three
    = (Return (TConversation.set_updatedAt (Some "2024-03-01T00:00:00.000Z") c), this')
    ∧ head (clientDataService.getConversations None this').1 = Some first
    ∧ TConversation.conversationId first = Some "c"
    ∧ TConversation.updatedAt first = Some "2024-03-01T00:00:00.000Z".
Proof.
  apply (updateConversation_first "2024-03-01T00:00:00.000Z" (at_time 7000) c "c" three);
    [reflexivity|reflexivity|].
  intros k stored u Hlook Hne Hu.
  assert (map_Forall
            (λ k stored, k ≠ "c" →
               from_option (λ u, String.ltb u "2024-03-01T00:00:00.000Z") true
                 (TConversation.updatedAt stored) = true)
            (conversations (db three))) as Hall
    by (apply (bool_decide_unpack _); vm_compute; reflexivity).
  pose proof (Hall k stored Hlook Hne) as Hk. by rewrite Hu in Hk.
Defined.


Lemma three_conversations_get_c :
  ∃ c' this',
    getConversation (at_time 9000) "c" three = (Some c', this')
    ∧ TConversation.lastAccessed c' = Some (now (at_time 9000))
    ∧ messages (db this') = messages (db three)
    ∧ settings (db this') = settings (db three)
    ∧ (∀ k, k ≠ "c" → conversations (db this') !! k = conversations (db three) !! k)
    ∧ head (getConversations
              (mkListOptions None (Some 2%Z) (Some by_lastAccessed) (Some desc)) this').1
      = Some c'.
Proof.
  apply (getConversation_most_recent (at_time 9000) "c"
           (default c (conversations (db three) !! "c")) (Some 2%Z) three);
    [vm_compute; reflexivity..|].
  intros k other t Hlook Hne Ht.
  assert (map_Forall
            (λ k other, k ≠ "c" →
               from_option (λ t, bool_decide (t < 9000)%Z) true
                 (TConversation.lastAccessed other) = true)
            (conversations (db three))) as Hall
    by (apply (bool_decide_unpack _); vm_compute; reflexivity).
  pose proof (Hall k other Hlook Hne) as Hk. rewrite Ht in Hk.
  by apply bool_decide_eq_true in Hk.
Defined.

Lemma getConversation_storeConversation_c1 :
  ∃ this' this'',
    storeConversation (at_time 1000) c1 (started true (Some "k3y")) = (Return (), this')
    ∧ getConversation (at_time 2000) "c1" this'
      = (Some (stamped (at_time 1000) (at_time 2000) c1), this'').
Proof.
  apply getConversation_storeConversation; [reflexivity..|].
  intros _. split; vm_compute; reflexivity.
Defined.

Lemma getMessagesByConversationId_storeMessage_m1 :
  stamped_message (at_time 1000) m1
  ∈ getMessagesByConversationId "c1"
      (storeMessage (at_time 1000) m1 (started true (Some "k3y"))).2.
Proof.
  apply getMessagesByConversationId_storeMessage; [reflexivity..|].
  intros _. split; vm_compute; reflexivity.
Defined.

Lemma getStorageStats_store_a :
  let after_c := getStorageStats (storeConversation (at_time 6000) a three).2 in
  let after_m := getStorageStats (storeMessage (at_time 6000) m1 three).2 in
  conversationCount after_c
  = (conversationCount (getStorageStats three)
     + if decide (is_Some (conversations (db three) !! "a")) then 0 else 1)%nat
  ∧ messageCount after_c = messageCount (getStorageStats three)
  ∧ messageCount after_m
    = (messageCount (getStorageStats three)
       + if decide (is_Some (messages (db three) !! TMessage.messageId m1))
         then 0 else 1)%nat
  ∧ conversationCount after_m = conversationCount (getStorageStats three).
Proof. apply (getStorageStats_store (at_time 6000) a "a" m1 three). reflexivity. Defined.

Lemma importData_plain_snapshot :
  ∃ this',
    importData (λ i, at_time (5000 + Z.of_nat i)) plain_snapshot (started true (Some "k3y"))
    = (Return (), this')
    ∧ getSettings this' = settings_with false 1000
    ∧ encryptionKey this' = encryptionKey (started true (Some "k3y"))
    ∧ (encryptionEnabled (settings_with false 1000) = false →
       ∀ amb' c m,
         storedConversation_of amb' c this'
         = TConversation.set_updatedAt
             (or_else (TConversation.updatedAt c) (now_iso amb'))
             (TConversation.set_syncStatus (Some local)
                (TConversation.set_lastAccessed (Some (now amb')) c))
         ∧ storedMessage_of amb' m this' = stamped_message amb' m).
Proof.
  apply importData_settings; [|reflexivity].
  apply (bool_decide_unpack _). vm_compute. reflexivity.
Defined.

Lemma exportData_scenario_A :
  let data := exportData (at_time 4000) scenario_A in
  (∀ c', c' ∈ b_conversations data ↔
      ∃ k stored, conversations (db scenario_A) !! k = Some stored
                  ∧ c' = read_conversation scenario_A stored)
  ∧ (∀ m', m' ∈ b_messages data ↔
      ∃ k m id, messages (db scenario_A) !! k = Some m
                ∧ TMessage.conversationId m = Some id
                ∧ is_Some (conversations (db scenario_A) !! id)
                ∧ m' = read_message scenario_A m)
  ∧ b_settings data = Some (getSettings scenario_A).
Proof.
  apply exportData_contents.
  - split; apply (bool_decide_unpack _); vm_compute; reflexivity.
  - vm_compute. discriminate.
  - apply (bool_decide_unpack _). vm_compute. reflexivity.
Defined.

Lemma fresh_instance_never_returns :
  ensureInitialized (λ _, true) fresh_key iso 10 (new_ClientStorage empty_IDB None) = None
  ∧ getSettings_init (ensureInitialized (λ _, true) fresh_key iso 10)
      (new_ClientStorage empty_IDB None) = None
  ∧ updateSettings_init iso (ensureInitialized (λ _, true) fresh_key iso 10)
      default_settings (new_ClientStorage empty_IDB None) = None.
Proof. apply ensureInitialized_never_returns; reflexivity. Defined.

Lemma decryptBackup_encryptBackup_secret :
  ∃ backup,
    ServerBackupService.encryptBackup (Some "b4ckup") (at_time 1000) secret = Return backup
    ∧ ServerBackupService.decryptBackup (Some "b4ckup") backup = Return secret
    ∧ (∀ c, c ≠ checksum backup →
         ServerBackupService.decryptBackup (A := TConversation.sensitive) (Some "b4ckup")
           {| backup_data := backup_data backup;
              backup_iv := backup_iv backup;
              backup_timestamp := backup_timestamp backup;
              checksum := c |}
         = Throw (Error "Backup data integrity check failed"))
    ∧ ∀ key' backup' (y : TConversation.sensitive),
        ServerBackupService.decryptBackup key' backup' = Return y →
        ∃ dataString, JSON_parse dataString = Some y
                      ∧ SHA256 dataString = checksum backup'.
Proof.
  apply decryptBackup_encryptBackup; [reflexivity|].
  split; vm_compute; reflexivity.
Defined.

Lemma restoreBackup_scenario_A :
  ∃ backup target',
    ServerBackupService.encryptBackup (Some "b4ckup") (at_time 4500)
      (mkBackupData (exportData (at_time 4000) scenario_A) "1.0.0")
    = Return backup
    ∧ ServerBackupService.restoreBackup (Some "b4ckup") true (Return backup)
        (λ i, at_time (5000 + Z.of_nat i)) (started false None)
      = ({| success := true; error := None |}, target')
    ∧ dom (conversations (db scenario_A)) ⊆ dom (conversations (db target'))
    ∧ (∀ k m id, messages (db scenario_A) !! k = Some m →
         TMessage.conversationId m = Some id →
         is_Some (conversations (db scenario_A) !! id) →
         k ∈ dom (messages (db target')))
    ∧ getSettings target' = getSettings scenario_A.
Proof.
  apply restoreBackup_exportData.
  - split; apply (bool_decide_unpack _); vm_compute; reflexivity.
  - vm_compute. discriminate.
  - apply (bool_decide_unpack _). vm_compute. reflexivity.
  - reflexivity.
  - split; vm_compute; reflexivity.
Defined.

Lemma getMessagesByConvoId_storeMessage_m1 :
  let result :=
    clientDataService.storeMessage "2024-02-02T00:00:00.000Z" (at_time 1000) m1
      (started true (Some "k3y")) in
  let stored :=
    TMessage.set_createdAt
      (or_else (TMessage.createdAt m1) "2024-02-02T00:00:00.000Z") m1 in
  result.1 = Return stored
  ∧ is_Some (messages (db result.2) !! TMessage.messageId m1)
  ∧ if bool_decide ("c1" = NEW_CONVO) || bool_decide ("c1" = PENDING_CONVO)
    then clientDataService.getMessagesByConvoId "c1" result.2 = []
    else TMessage.set_syncStatus (Some local) stored
         ∈ clientDataService.getMessagesByConvoId "c1" result.2.
Proof.
  apply (getMessagesByConvoId_storeMessage "2024-02-02T00:00:00.000Z" (at_time 1000)
           m1 "c1" (started true (Some "k3y"))); [reflexivity..|].
  intros _. split; vm_compute; reflexivity.
Defined.

Lemma validateFile_photo :
  ClientFileProcessor.validateFile (ClientFileProcessor.new no_options) photo
  = ClientFileProcessor.valid.
Proof.
  apply (getSupportedTypes_validateFile EModelEndpoint.anthropic
           [ "image/jpeg"; "image/png"; "image/gif"; "image/webp"; "application/pdf";
             "text/plain"; "text/markdown" ]);
    [by left|reflexivity|reflexivity| |vm_compute; discriminate].
  apply (bool_decide_unpack _). vm_compute. reflexivity.
Defined.

Lemma convertToLLMFormat_archive :
  ClientFileProcessor.processFile (ClientFileProcessor.new no_options) archive
  = ClientFileProcessor.failed archive
      ("File type 'application/zip' is not supported. Allowed types: "
       ++ ClientFileProcessor.join
            (default [] (ClientFileProcessor.allowedTypes
                           ClientFileProcessor.DEFAULT_OPTIONS)))
  ∧ ClientFileProcessor.convertToLLMFormat
      (ClientFileProcessor.processFile (ClientFileProcessor.new no_options) archive)
      EModelEndpoint.openAI
    = Throw (Error ("File processing error: "
                    ++ ("File type 'application/zip' is not supported. Allowed types: "
                        ++ ClientFileProcessor.join
                             (default [] (ClientFileProcessor.allowedTypes
                                            ClientFileProcessor.DEFAULT_OPTIONS))))).
Proof. apply convertToLLMFormat_invalid. vm_compute. reflexivity. Defined.

Lemma manager_keeps_changes :
  let s1 := ClientConfigManager.resetToDefaults manager in
  ClientConfigManager.isFeatureEnabled ClientConfigManager.f_backupEnabled
    (ClientConfigManager.resetToDefaults
       (ClientConfigManager.toggleFeature ClientConfigManager.f_backupEnabled s1))
  = negb (ClientConfigManager.isFeatureEnabled ClientConfigManager.f_backupEnabled s1)
  ∧ ClientConfigManager.getPreferredModel EModelEndpoint.openAI
      (ClientConfigManager.resetToDefaults
         (ClientConfigManager.setPreferredModel EModelEndpoint.openAI "gpt-4o" s1))
    = Return (Some "gpt-4o").
Proof.
  apply resetToDefaults_keeps_changes; [reflexivity|].
  vm_compute. discriminate.
Defined.


Lemma manager_importConfig_resetToDefaults :
  let s1 := (ClientConfigManager.importConfig stored_text manager).2 in
  (ClientConfigManager.importConfig stored_text manager).1 = Return ()
  ∧ ClientConfigManager.isFeatureEnabled ClientConfigManager.f_backupEnabled s1
    = default
        (ClientConfigManager.get_feature ClientConfigManager.f_backupEnabled
           (ClientConfigManager.features_of (ClientConfigManager.heap manager) 0))
        (ClientConfigManager.s_features stored_config ≫= λ fs,
           match ClientConfigManager.f_backupEnabled with
           | ClientConfigManager.f_clientStorageEnabled =>
               ClientConfigManager.s_clientStorageEnabled fs
           | ClientConfigManager.f_offlineModeEnabled =>
               ClientConfigManager.s_offlineModeEnabled fs
           | ClientConfigManager.f_encryptionEnabled =>
               ClientConfigManager.s_encryptionEnabled fs
           | ClientConfigManager.f_backupEnabled => ClientConfigManager.s_backupEnabled fs
           end)
  ∧ ClientConfigManager.isFeatureEnabled ClientConfigManager.f_backupEnabled
      (ClientConfigManager.toggleFeature ClientConfigManager.f_backupEnabled s1)
    = negb (ClientConfigManager.isFeatureEnabled ClientConfigManager.f_backupEnabled s1)
  ∧ ClientConfigManager.isFeatureEnabled ClientConfigManager.f_backupEnabled
      (ClientConfigManager.resetToDefaults
         (ClientConfigManager.toggleFeature ClientConfigManager.f_backupEnabled s1))
    = ClientConfigManager.get_feature ClientConfigManager.f_backupEnabled
        (ClientConfigManager.features_of (ClientConfigManager.heap manager) 0).
Proof.
  apply (importConfig_resetToDefaults stored_text stored_config).
  vm_compute. reflexivity.
Defined.

Lemma manager_addCustomModel :
  ∃ s',
    ClientConfigManager.addCustomModel EModelEndpoint.openAI custom manager
    = (Return (), s')
    ∧ ClientConfigManager.getModel EModelEndpoint.openAI
        (ClientConfigManager.id custom) s'
      = Return
          (Some (default (ClientConfigManager.set_provider EModelEndpoint.openAI custom)
                   (snd <$> list_find
                              (λ m, ClientConfigManager.id m = ClientConfigManager.id custom)
                              (ClientConfigManager.models
                                 ClientConfigManager.openAI_config))))
    ∧ ClientConfigManager.getModelsForProvider EModelEndpoint.openAI s'
      = Return
          (filter (λ m, ClientConfigManager.enabled m ≠ Some false)
             (ClientConfigManager.models ClientConfigManager.openAI_config
              ++ [ClientConfigManager.set_provider EModelEndpoint.openAI custom])%list)
    ∧ ClientConfigManager.getModel EModelEndpoint.openAI (ClientConfigManager.id custom)
        (ClientConfigManager.removeCustomModel EModelEndpoint.openAI
           (ClientConfigManager.id custom) s').2
      = Return None.
Proof.
  apply addCustomModel_getModel. vm_compute. reflexivity.
Defined.

Lemma manager_removes_preferred :
  let s' :=
    (ClientConfigManager.removeCustomModel EModelEndpoint.openAI "gpt-4o-mini" manager).2 in
  (ClientConfigManager.removeCustomModel EModelEndpoint.openAI "gpt-4o-mini" manager).1
  = Return ()
  ∧ ClientConfigManager.getModel EModelEndpoint.openAI "gpt-4o-mini" s' = Return None
  ∧ ClientConfigManager.getPreferredModel EModelEndpoint.openAI s'
    = Return (Some "gpt-4o-mini").
Proof.
  apply (removeCustomModel_getPreferredModel EModelEndpoint.openAI "gpt-4o-mini" manager
           ClientConfigManager.openAI_config);
    vm_compute; reflexivity.
Defined.

Lemma manager_importConfig_getProvider :
  let s' := (ClientConfigManager.importConfig stored_text manager).2 in
  match default ∅ (ClientConfigManager.s_providers stored_config)
        !! EModelEndpoint.google with
  | Some p => ClientConfigManager.getProvider EModelEndpoint.google s' = own p
  | None =>
      ∀ l p, ClientConfigManager.DEFAULT_PROVIDER_CONFIGS !! EModelEndpoint.google = Some l →
             ClientConfigManager.provider_objects (ClientConfigManager.heap manager) !! l
             = Some p →
             ClientConfigManager.getProvider EModelEndpoint.google s' = own p
  end.
Proof.
  apply (importConfig_getProvider stored_text stored_config EModelEndpoint.google manager).
  vm_compute. reflexivity.
Defined.

End examples.

(** ** The methods, from the call of [ensureInitialized] on *)

Section methods_properties.
Context `{CryptoJS} `{JSDate} `{JSON TConversation.sensitive} `{JSON TMessage.sensitive}.
Variable openDB_ok : nat → bool.
Variable random_key : nat → string.
Variable iso_at : nat → string.
Implicit Types (s : Session) (id : string).

(** On an instance whose initialization has returned, [ensureInitialized]
    returns at once and changes nothing. *)
Lemma ensureInitialized_initialized fuel s :
  isInitialized s = true →
  ensureInitialized openDB_ok random_key iso_at fuel s = Some (Return (), s).
Proof. intros Hinit. unfold ensureInitialized. by rewrite Hinit. Qed.

(** On an instance that is not initialized, while every [openDB] resolves,
    none of the four methods returns, whatever the fuel. *)
Lemma methods_never_return fuel s :
  (∀ n, openDB_ok n = true) → isInitialized s = false →
  (∀ id, getMessagesByConversationId_init
           (ensureInitialized openDB_ok random_key iso_at fuel) id s = None)
  ∧ (∀ id, deleteConversation_init
             (ensureInitialized openDB_ok random_key iso_at fuel) id s = None)
  ∧ (∀ amb, exportData_init
              (ensureInitialized openDB_ok random_key iso_at fuel) amb s = None)
  ∧ (∀ amb data, importData_init
                   (ensureInitialized openDB_ok random_key iso_at fuel) amb data s = None).
Proof.
  intros Hopen Hinit.
  assert (ensureInitialized openDB_ok random_key iso_at fuel s = None) as Hnone.
  { unfold ensureInitialized. rewrite Hinit. by apply initializeStorage_never_returns. }
  unfold getMessagesByConversationId_init, deleteConversation_init, exportData_init,
    importData_init.
  by rewrite Hnone.
Qed.


(** C8, as the code has it: on an instance whose initialization has
    returned and that holds a key, [getMessagesByConversationId] returns a
    list, and the list holds every stored message of the conversation and
    nothing else.  A message with a blob on which [decrypt] throws is
    listed as stored, the blob still on it; that is the only trace of a
    failure.  A message with a blob on which [decrypt] returns is listed
    with the fields [decrypt] returned and without its blob, whether or
    not that blob is the one the message was stored with. *)
Theorem getMessagesByConversationId_init_decrypt fuel s id :
  isInitialized s = true → connected s = true →
  truthy (encryptionKey (this s)) = true →
  let listing := getMessagesByConversationId id (this s) in
  getMessagesByConversationId_init
    (ensureInitialized openDB_ok random_key iso_at fuel) id s
  = Some (Return listing, s)
  ∧ (∀ m', m' ∈ listing ↔
       ∃ k m, messages (db (this s)) !! k = Some m
              ∧ TMessage.conversationId m = Some id
              ∧ m' = read_message (this s) m)
  ∧ (∀ k m, messages (db (this s)) !! k = Some m →
       TMessage.conversationId m = Some id →
       match TMessage.encryptedData m with
       | None => m ∈ listing
       | Some blob =>
           match decrypt (encryptionKey (this s)) blob with
           | Throw _ => m ∈ listing
           | Return decrypted =>
               TMessage.spread_decrypted m decrypted ∈ listing
               ∧ TMessage.encryptedData (TMessage.spread_decrypted m decrypted) = None
           end
       end)
  ∧ ∀ m' blob, m' ∈ listing → TMessage.encryptedData m' = Some blob →
      ∃ e, decrypt (A := TMessage.sensitive) (encryptionKey (this s)) blob = Throw e.
Proof.
  intros Hinit Hconn Hkey listing. split_and!.
  - unfold getMessagesByConversationId_init.
    by rewrite ensureInitialized_initialized, Hconn.
  - apply elem_of_getMessagesByConversationId.
  - intros k m Hlook Hid.
    assert (read_message (this s) m ∈ listing) as Hin.
    { apply elem_of_getMessagesByConversationId. by exists k, m. }
    pose proof (read_message_cases (this s) m Hkey) as Hcases.
    destruct (TMessage.encryptedData m) as [blob|]; [|by rewrite <- Hcases].
    destruct (decrypt (encryptionKey (this s)) blob) as [decrypted|e];
      [|by rewrite <- Hcases].
    destruct Hcases as [Hread Hblob]. split; [by rewrite <- Hread|done].
  - intros m' blob (k & m & _ & _ & ->)%elem_of_getMessagesByConversationId Hblob.
    by apply read_message_blob in Hblob as [_ ?].
Qed.

(** C9, as the code has it: on an instance whose initialization has
    returned, when every stored message of the conversation has a
    [createdAt] that is a date, [getMessagesByConversationId] returns
    exactly the stored messages of the conversation, each read, and every
    message of the list is created no later than the ones after it. *)
Theorem getMessagesByConversationId_init_ascending fuel s id :
  isInitialized s = true → connected s = true →
  map_Forall
    (λ _ m, TMessage.conversationId m = Some id → is_Some (createdAt_date m))
    (messages (db (this s))) →
  let listing := getMessagesByConversationId id (this s) in
  getMessagesByConversationId_init
    (ensureInitialized openDB_ok random_key iso_at fuel) id s
  = Some (Return listing, s)
  ∧ StronglySorted createdAt_le listing
  ∧ ∀ m', m' ∈ listing ↔
          ∃ k m, messages (db (this s)) !! k = Some m
                 ∧ TMessage.conversationId m = Some id
                 ∧ m' = read_message (this s) m.
Proof.
  intros Hinit Hconn Hvalid listing. split_and!.
  - unfold getMessagesByConversationId_init.
    by rewrite ensureInitialized_initialized, Hconn.
  - by apply getMessagesByConversationId_sorted.
  - apply elem_of_getMessagesByConversationId.
Qed.

(** C5, as the code has it: on an instance whose initialization has
    returned and whose records sit under their own ids, the import of the
    export returns, and the ids, the two counts, the settings and the key
    are what they were.  Every record of the export is written again: the
    call of the import that handles the record at position [j] of the
    export puts, under the id of that record, what [storeConversation] or
    [storeMessage] makes of the record as the export read it, which for a
    conversation carries the time of the call as [lastAccessed].  A record
    the export does not hold is left as it is. *)
Theorem importData_exportData_rewrites_records fuel amb amb_export s :
  isInitialized s = true → connected s = true → keyed (this s) →
  let data := exportData amb_export (this s) in
  let n := List.length (b_conversations data) in
  let s' := set_this (importData amb data (this s)).2 s in
  exportData_init (ensureInitialized openDB_ok random_key iso_at fuel) amb_export s
  = Some (Return data, s)
  ∧ importData_init (ensureInitialized openDB_ok random_key iso_at fuel) amb data s
    = Some (Return (), s')
  ∧ dom (conversations (db (this s'))) = dom (conversations (db (this s)))
  ∧ dom (messages (db (this s'))) = dom (messages (db (this s)))
  ∧ getStorageStats (this s') = getStorageStats (this s)
  ∧ getSettings (this s') = getSettings (this s)
  ∧ encryptionKey (this s') = encryptionKey (this s)
  ∧ (∀ c, c ∈ b_conversations data →
       ∃ k stored j,
         conversations (db (this s)) !! k = Some stored
         ∧ c = read_conversation (this s) stored
         ∧ b_conversations data !! j = Some c
         ∧ conversations (db (this s')) !! k
           = Some (storedConversation_of (amb j) c (this s))
         ∧ TConversation.lastAccessed (storedConversation_of (amb j) c (this s))
           = Some (now (amb j)))
  ∧ (∀ k, (∀ c, c ∈ b_conversations data → TConversation.conversationId c ≠ Some k) →
       conversations (db (this s')) !! k = conversations (db (this s)) !! k)
  ∧ (∀ m, m ∈ b_messages data →
       ∃ stored j,
         messages (db (this s)) !! TMessage.messageId m = Some stored
         ∧ m = read_message (this s) stored
         ∧ b_messages data !! j = Some m
         ∧ messages (db (this s')) !! TMessage.messageId m
           = Some (storedMessage_of (amb (n + j)) m (this s)))
  ∧ (∀ k, (∀ m, m ∈ b_messages data → TMessage.messageId m ≠ k) →
       messages (db (this s')) !! k = messages (db (this s)) !! k).
Proof.
  intros Hinit Hconn Hkeyed data n s'.
  destruct (importData_exportData_written amb amb_export (this s) Hkeyed)
    as (Hret & Hdc & Hdm & Hstats & Hsettings & Hkey & Hcs & Hcs' & Hms & Hms').
  split_and!; try done.
  - unfold exportData_init. by rewrite ensureInitialized_initialized, Hconn.
  - unfold importData_init. rewrite ensureInitialized_initialized, Hconn by done.
    cbv zeta. subst s' data. by rewrite Hret.
  - intros c Hc. destruct (Hcs c Hc) as (k & stored & j & ? & ? & ? & ?).
    exists k, stored, j. split_and!; [done..|].
    apply lastAccessed_storedConversation_of.
Qed.

End methods_properties.

(** ** The methods, run on the executable host *)

Section methods_scenarios.
Import Host Scenario.


(** Scenario A, evaluated: two messages are listed before the delete, the
    store holds none after it. *)
Lemma deleteConversation_scenario_A_counts :
  List.length (getMessagesByConversationId "c1" scenario_A) = 2
  ∧ getStorageStats (deleteConversation "c1" scenario_A) = mkStorageStats 0 0 0.
Proof. split; vm_compute; reflexivity. Qed.


(** C8 at Scenario C. *)
Lemma scenario_C_listing :
  let listing := getMessagesByConversationId "c1" (this (ready scenario_C)) in
  getMessagesByConversationId_init (ensureInitialized (λ _, true) fresh_key iso 0) "c1"
    (ready scenario_C)
  = Some (Return listing, ready scenario_C)
  ∧ (∀ m', m' ∈ listing ↔
       ∃ k m, messages (db (this (ready scenario_C))) !! k = Some m
              ∧ TMessage.conversationId m = Some "c1"
              ∧ m' = read_message (this (ready scenario_C)) m)
  ∧ (∀ k m, messages (db (this (ready scenario_C))) !! k = Some m →
       TMessage.conversationId m = Some "c1" →
       match TMessage.encryptedData m with
       | None => m ∈ listing
       | Some blob =>
           match decrypt (encryptionKey (this (ready scenario_C))) blob with
           | Throw _ => m ∈ listing
           | Return decrypted =>
               TMessage.spread_decrypted m decrypted ∈ listing
               ∧ TMessage.encryptedData (TMessage.spread_decrypted m decrypted) = None
           end
       end)
  ∧ ∀ m' blob, m' ∈ listing → TMessage.encryptedData m' = Some blob →
      ∃ e, decrypt (A := TMessage.sensitive)
             (encryptionKey (this (ready scenario_C))) blob = Throw e.
Proof.
  apply (getMessagesByConversationId_init_decrypt (λ _, true) fresh_key iso 0
           (ready scenario_C) "c1"); reflexivity.
Defined.

(** C8, counterexample: the cipher text of [m1] is overwritten by the
    cipher text of [m2].  [decrypt] returns, and [m1] is listed with the
    text of [m2], without a blob and without any trace of a failure. *)
Lemma getMessagesByConversationId_misplaced_blob :
  TMessage.encryptedData (raw "m1" misplaced) = TMessage.encryptedData (raw "m2" scenario_A)
  ∧ TMessage.encryptedData (raw "m1" misplaced) ≠ TMessage.encryptedData (raw "m1" scenario_A)
  ∧ getMessagesByConversationId_init (ensureInitialized (λ _, true) fresh_key iso 0) "c1"
      (ready misplaced)
    = Some (Return (getMessagesByConversationId "c1" misplaced), ready misplaced)
  ∧ map (λ m, (TMessage.messageId m, TMessage.text m,
               bool_decide (is_Some (TMessage.encryptedData m))))
      (getMessagesByConversationId "c1" scenario_A)
    = [("m1", Some "hi", false); ("m2", Some "there", false)]
  ∧ map (λ m, (TMessage.messageId m, TMessage.text m,
               bool_decide (is_Some (TMessage.encryptedData m))))
      (getMessagesByConversationId "c1" misplaced)
    = [("m1", Some "there", false); ("m2", Some "there", false)].
Proof.
  split_and!; [vm_compute; reflexivity| |vm_compute; reflexivity..].
  intros Heq. vm_compute in Heq. discriminate Heq.
Qed.

(** C9 at three messages whose ids run against their dates. *)
Lemma out_of_order_listing :
  let listing := getMessagesByConversationId "c1" (this (ready out_of_order)) in
  getMessagesByConversationId_init (ensureInitialized (λ _, true) fresh_key iso 0) "c1"
    (ready out_of_order)
  = Some (Return listing, ready out_of_order)
  ∧ StronglySorted createdAt_le listing
  ∧ ∀ m', m' ∈ listing ↔
          ∃ k m, messages (db (this (ready out_of_order))) !! k = Some m
                 ∧ TMessage.conversationId m = Some "c1"
                 ∧ m' = read_message (this (ready out_of_order)) m.
Proof.
  apply (getMessagesByConversationId_init_ascending (λ _, true) fresh_key iso 0
           (ready out_of_order) "c1"); [reflexivity..|].
  apply (bool_decide_unpack _). vm_compute. reflexivity.
Defined.

(** The two listings, evaluated: the cursor visits [n1], [n2], [n3], and
    the listing is by date; Scenario A gives [m1], then [m2]. *)
Lemma out_of_order_evaluated :
  map (λ e : entry TMessage.t, e.1.2) (messages_by_conversation out_of_order "c1")
  = ["n1"; "n2"; "n3"]
  ∧ map (λ m, (TMessage.messageId m, TMessage.text m, TMessage.createdAt m))
      (getMessagesByConversationId "c1" out_of_order)
    = [("n2", Some "first", Some "2024-01-01T00:00:01.000Z");
       ("n3", Some "second", Some "2024-01-01T00:00:02.000Z");
       ("n1", Some "third", Some "2024-01-01T00:00:03.000Z")]
  ∧ map (λ m, (TMessage.messageId m, TMessage.text m))
      (getMessagesByConversationId "c1" scenario_A)
    = [("m1", Some "hi"); ("m2", Some "there")].
Proof. split_and!; vm_compute; reflexivity. Qed.

(** C9, counterexample: the [createdAt] of [n2] is no date.  The comparator
    is [NaN] against it, no message moves, and [n1] is listed before [n3],
    which was created a second earlier.  And on a new instance the method
    does not return. *)
Lemma getMessagesByConversationId_undated :
  getMessagesByConversationId_init (ensureInitialized (λ _, true) fresh_key iso 0) "c1"
    (ready undated)
  = Some (Return (getMessagesByConversationId "c1" undated), ready undated)
  ∧ map (λ m, (TMessage.messageId m, TMessage.createdAt m, createdAt_date m))
      (getMessagesByConversationId "c1" undated)
    = [("n1", Some "2024-01-01T00:00:03.000Z", Some 1704067203000%Z);
       ("n2", Some "garbage", None);
       ("n3", Some "2024-01-01T00:00:02.000Z", Some 1704067202000%Z)]
  ∧ ¬ StronglySorted createdAt_le (getMessagesByConversationId "c1" undated)
  ∧ ∀ fuel,
      getMessagesByConversationId_init (ensureInitialized (λ _, true) fresh_key iso fuel)
        "c1" (new_ClientStorage (db scenario_A) None)
      = None.
Proof.
  split_and!; [vm_compute; reflexivity..| |].
  - intros Hs.
    assert (map createdAt_date (getMessagesByConversationId "c1" undated)
            = [Some 1704067203000%Z; None; Some 1704067202000%Z]) as Hdates
      by (vm_compute; reflexivity).
    destruct (getMessagesByConversationId "c1" undated) as [|x [|y [|z l]]];
      [discriminate Hdates..|].
    injection Hdates as Hx _ Hz _.
    apply StronglySorted_inv in Hs as [_ Hall].
    apply Forall_cons in Hall as [_ Hall]. apply Forall_cons in Hall as [Hle _].
    destruct Hle as (a & b & Ha & Hb & Hle). rewrite Hx in Ha. rewrite Hz in Hb.
    simplify_eq. lia.
  - intros fuel.
    by apply (methods_never_return (λ _, true) fresh_key iso fuel
                (new_ClientStorage (db scenario_A) None)).
Qed.

(** C5 at Scenario A. *)
Lemma importData_exportData_scenario_A :
  let amb := λ i, at_time (5000 + Z.of_nat i) in
  let data := exportData (at_time 4000) (this (ready scenario_A)) in
  let n := List.length (b_conversations data) in
  let s' := set_this (importData amb data (this (ready scenario_A))).2 (ready scenario_A) in
  exportData_init (ensureInitialized (λ _, true) fresh_key iso 0) (at_time 4000)
    (ready scenario_A)
  = Some (Return data, ready scenario_A)
  ∧ importData_init (ensureInitialized (λ _, true) fresh_key iso 0) amb data
      (ready scenario_A)
    = Some (Return (), s')
  ∧ dom (conversations (db (this s'))) = dom (conversations (db (this (ready scenario_A))))
  ∧ dom (messages (db (this s'))) = dom (messages (db (this (ready scenario_A))))
  ∧ getStorageStats (this s') = getStorageStats (this (ready scenario_A))
  ∧ getSettings (this s') = getSettings (this (ready scenario_A))
  ∧ encryptionKey (this s') = encryptionKey (this (ready scenario_A))
  ∧ (∀ c, c ∈ b_conversations data →
       ∃ k stored j,
         conversations (db (this (ready scenario_A))) !! k = Some stored
         ∧ c = read_conversation (this (ready scenario_A)) stored
         ∧ b_conversations data !! j = Some c
         ∧ conversations (db (this s')) !! k
           = Some (storedConversation_of (amb j) c (this (ready scenario_A)))
         ∧ TConversation.lastAccessed
             (storedConversation_of (amb j) c (this (ready scenario_A)))
           = Some (now (amb j)))
  ∧ (∀ k, (∀ c, c ∈ b_conversations data → TConversation.conversationId c ≠ Some k) →
       conversations (db (this s')) !! k
       = conversations (db (this (ready scenario_A))) !! k)
  ∧ (∀ m, m ∈ b_messages data →
       ∃ stored j,
         messages (db (this (ready scenario_A))) !! TMessage.messageId m = Some stored
         ∧ m = read_message (this (ready scenario_A)) stored
         ∧ b_messages data !! j = Some m
         ∧ messages (db (this s')) !! TMessage.messageId m
           = Some (storedMessage_of (amb (n + j)) m (this (ready scenario_A))))
  ∧ (∀ k, (∀ m, m ∈ b_messages data → TMessage.messageId m ≠ k) →
       messages (db (this s')) !! k = messages (db (this (ready scenario_A))) !! k).
Proof.
  apply (importData_exportData_rewrites_records (λ _, true) fresh_key iso 0
           (λ i, at_time (5000 + Z.of_nat i)) (at_time 4000) (ready scenario_A));
    [reflexivity..|].
  split; apply (bool_decide_unpack _); vm_compute; reflexivity.
Defined.

(** Scenario A, evaluated: what the three calls of the import wrote, read
    back.  The texts are what they were; the conversation has the time of
    the first call as [lastAccessed]. *)
Lemma importData_exportData_scenario_A_evaluated :
  let result :=
    importData (λ i, at_time (5000 + Z.of_nat i)) (exportData (at_time 4000) scenario_A)
      scenario_A in
  result.1 = Return ()
  ∧ map (λ c, (TConversation.conversationId c, TConversation.title c,
               TConversation.lastAccessed c))
      (getConversations (page_size 10) scenario_A).1
    = [(Some "c1", Some "Hello", Some 1000%Z)]
  ∧ map (λ c, (TConversation.conversationId c, TConversation.title c,
               TConversation.lastAccessed c))
      (getConversations (page_size 10) result.2).1
    = [(Some "c1", Some "Hello", Some 5000%Z)]
  ∧ map (λ m, (TMessage.messageId m, TMessage.text m))
      (getMessagesByConversationId "c1" result.2)
    = [("m1", Some "hi"); ("m2", Some "there")].
Proof. split_and!; vm_compute; reflexivity. Qed.

(** C5, counterexample: a second session on the database of Scenario A.
    The key of the first session is not in the local storage, the session
    has made a new one, and no blob of the first session decrypts: the
    export holds every record with its blob and without its text.  The
    import then stores each under the new key, and the blob it writes holds
    the fields the export had, which are none.  The ids and the counts are
    what they were; the blob that held the text of [m1] and the one that
    held the title of [c1] are gone. *)
Lemma importData_exportData_second_session :
  initializeStorage first_two_opens fresh_key iso 3 (new_ClientStorage (db scenario_A) None)
  = Some (Return (), second_session)
  ∧ isInitialized second_session = true
  ∧ connected second_session = true
  ∧ db (this second_session)
    = with_settings (settings (db (this second_session))) (db scenario_A)
  ∧ encryptionKey (this second_session) = Some "4f0c"
  ∧ importData_init (ensureInitialized first_two_opens fresh_key iso 0)
      (λ i, at_time (5000 + Z.of_nat i))
      (exportData (at_time 4000) (this second_session)) second_session
    = Some (Return (), set_this reimported_second.2 second_session)
  ∧ getStorageStats reimported_second.2 = getStorageStats (this second_session)
  ∧ decrypt (Some "k3y") (blob_of (raw "m1" (this second_session)))
    = Return {| TMessage.s_text := Some "hi"; TMessage.s_content := None |}
  ∧ decrypt (Some "k3y") (blob_of (raw "m1" reimported_second.2))
    ≠ Return {| TMessage.s_text := Some "hi"; TMessage.s_content := None |}
  ∧ decrypt (Some "4f0c") (blob_of (raw "m1" reimported_second.2))
    = Return {| TMessage.s_text := None; TMessage.s_content := None |}
  ∧ (λ c, decrypt (Some "k3y") <$> TConversation.encryptedData c)
      <$> conversations (db (this second_session)) !! "c1"
    = Some (Some (Return {| TConversation.s_promptPrefix := None;
                            TConversation.s_title := Some "Hello" |}))
  ∧ (λ c, decrypt (Some "4f0c") <$> TConversation.encryptedData c)
      <$> conversations (db reimported_second.2) !! "c1"
    = Some (Some (Return {| TConversation.s_promptPrefix := None;
                            TConversation.s_title := None |}))
  ∧ map (λ m, (TMessage.messageId m, TMessage.text m,
               bool_decide (is_Some (TMessage.encryptedData m))))
      (getMessagesByConversationId "c1" (this second_session))
    = [("m1", None, true); ("m2", None, true)]
  ∧ map (λ m, (TMessage.messageId m, TMessage.text m,
               bool_decide (is_Some (TMessage.encryptedData m))))
      (getMessagesByConversationId "c1" reimported_second.2)
    = [("m1", None, false); ("m2", None, false)].
Proof.
  split_and!; try (vm_compute; reflexivity).
  intros Heq. vm_compute in Heq. discriminate Heq.
Qed.

End methods_scenarios.
